(** * simpleubjson, Draft 8 codec: a shallow embedding and its properties

    The development follows [simpleubjson/draft8.py]: the marker table, the
    TLV reader [next_tlv], the value decoder (sized containers, and the two
    generators for unsized ones) and the type-directed encoder.  Host
    library functions the module calls ([struct.pack], [struct.unpack],
    [ord], [chr], [unicode.encode], [str.decode], [decimal.Decimal]) are
    given by executable models of their documented behaviour. *)

From Stdlib Require Import ZArith List Bool Lia String.
From Stdlib Require Import Strings.Byte.
From Stdlib Require Import SpecFloat.
From Stdlib Require Import DecimalN DecimalPos.
Import ListNotations.

Local Open Scope Z_scope.

#[local] Set Warnings "-register-all".

(** ** Bytes *)

Definition bytes := list byte.

Definition Z_of_byte (b : byte) : Z := Z.of_N (Byte.to_N b).

(** The byte whose ordinal is [z mod 256]. *)
Definition byte_of_Z (z : Z) : byte :=
  match Byte.of_N (Z.to_N (z mod 256)) with
  | Some b => b
  | None => x00
  end.

(** ** Python objects *)

(** [decimal.Decimal]: sign, coefficient and exponent of a finite number
    ([_sign], [_int] read as a number, [_exp]), or one of the special
    values.  The diagnostic payload of a NaN is a number, [0] standing for
    the empty payload. *)
Inductive Decimal : Type :=
| DecFinite (sign : bool) (coeff : N) (exp : Z)
| DecInfinity (sign : bool)
| DecNaN (sign : bool) (signaling : bool) (diag : N).

(** The two generators the decoder hands out; both read from the decoder's
    byte source when they are advanced. *)
Inductive stream_kind : Type := ArrayStream | ObjectStream.

(** Values of the host language, as far as the codec distinguishes them.
    A [unicode] string is its list of code points, a [str] its bytes, a
    [float] an IEEE binary64 number.  A [dict] lists its items in
    iteration order.  [PIterator] stands for the finite lazy sequences the
    encoder accepts (generator, xrange, dict key and value iterators) and
    lists the items they will produce; [PStream] is a generator created by
    the decoder, whose items are not yet read. *)
Inductive iter_kind : Type :=
| KXRange | KGenerator | KDictKeys | KDictValues.

Inductive pyobj : Type :=
| PNoop
| PNone
| PBool (b : bool)
| PInt (z : Z)
| PFloat (f : spec_float)
| PDecimal (d : Decimal)
| PStr (s : bytes)
| PUnicode (s : list Z)
| PTuple (items : list pyobj)
| PList (items : list pyobj)
| PSet (items : list pyobj)
| PFrozenset (items : list pyobj)
| PDict (items : list (pyobj * pyobj))
| PIterator (k : iter_kind) (items : list pyobj)
| PDictItems (items : list (pyobj * pyobj))
| PStream (k : stream_kind)
| PInstance (cls : string) (base : pyobj)
| PObject (cls : string).

(** ** Exceptions and results *)

(** Exceptions carry the format string of the raising statement and the
    values it is applied to.  [Unmodelled] marks the behaviours left
    outside the embedding (encoding a generator that is still bound to a
    decoder, and reading a decimal from text with characters beyond
    ASCII). *)
Inductive exn : Type :=
| EarlyEndOfStreamError (msg : string) (arg : option pyobj)
| MarkerError (msg : string) (marker : byte)
| EncodeError (msg : string) (obj : pyobj)
| ValueError (msg : string)
| TypeError (msg : string)
| AttributeError (msg : string)
| KeyError (key : byte)
| AssertionError (msg : string)
| StructError (msg : string)
| OverflowError (msg : string)
| UnicodeDecodeError (msg : string)
| InvalidOperation (msg : string)
| Unmodelled (what : string).

Inductive result (A : Type) : Type :=
| Ok (a : A)
| Raise (e : exn)
| OutOfFuel.
Arguments Ok {A} a.
Arguments Raise {A} e.
Arguments OutOfFuel {A}.

Definition bind {A B} (r : result A) (k : A -> result B) : result B :=
  match r with
  | Ok a => k a
  | Raise e => Raise e
  | OutOfFuel => OutOfFuel
  end.

Notation "x <- r ;; k" := (bind r (fun x => k))
  (at level 61, r at next level, right associativity).
Notation "' p <- r ;; k" := (bind r (fun x => let 'p := x in k))
  (at level 61, p pattern, r at next level, right associativity).

(** ** Host library: [ord], [chr], [struct.pack], [struct.unpack] *)

(** [ord(s)]: defined on strings of length one only. *)
Definition ord (s : bytes) : result Z :=
  match s with
  | [b] => Ok (Z_of_byte b)
  | _ => Raise (TypeError "ord() expected a character")
  end.

(** [chr(i)]: the one-byte string of ordinal [i], for [i] in [range(256)]. *)
Definition chr (i : Z) : result bytes :=
  if (0 <=? i) && (i <? 256) then Ok [byte_of_Z i]
  else Raise (ValueError "chr() arg not in range(256)").

(** Big-endian bytes of [z] modulo [256 ^ w], most significant first. *)
Fixpoint be_bytes (w : nat) (z : Z) : bytes :=
  match w with
  | O => []
  | S k => byte_of_Z (z / 256 ^ Z.of_nat k) :: be_bytes k z
  end.

(** The unsigned number a big-endian byte string denotes. *)
Definition be_value (bs : bytes) : Z :=
  fold_left (fun acc b => acc * 256 + Z_of_byte b) bs 0.

(** Reading the [w]-byte unsigned number [u] as two's complement. *)
Definition to_signed (w : nat) (u : Z) : Z :=
  if u <? 2 ^ (8 * Z.of_nat w - 1) then u else u - 2 ^ (8 * Z.of_nat w).

(** The integer formats of [struct] used by the module, all big-endian:
    ['>h'], ['>i'], ['>q'] are signed of 2, 4 and 8 bytes, ['>I'] is
    unsigned of 4 bytes. *)
Inductive int_format : Type := Fmt_h | Fmt_i | Fmt_q | Fmt_I.

Definition fmt_width (f : int_format) : nat :=
  match f with Fmt_h => 2 | Fmt_i => 4 | Fmt_q => 8 | Fmt_I => 4 end%nat.

Definition fmt_signed (f : int_format) : bool :=
  match f with Fmt_I => false | _ => true end.

Definition fmt_min (f : int_format) : Z :=
  if fmt_signed f then - 2 ^ (8 * Z.of_nat (fmt_width f) - 1) else 0.

Definition fmt_max (f : int_format) : Z :=
  if fmt_signed f then 2 ^ (8 * Z.of_nat (fmt_width f) - 1) - 1
  else 2 ^ (8 * Z.of_nat (fmt_width f)) - 1.

(** [pack(fmt, z)] raises [struct.error] when [z] does not fit. *)
Definition pack (f : int_format) (z : Z) : result bytes :=
  if (fmt_min f <=? z) && (z <=? fmt_max f)
  then Ok (be_bytes (fmt_width f) z)
  else Raise (StructError "argument out of range").

(** [unpack(fmt, s)] raises [struct.error] unless [s] has the size of the
    format. *)
Definition unpack (f : int_format) (s : bytes) : result Z :=
  if Nat.eqb (List.length s) (fmt_width f)
  then Ok (if fmt_signed f then to_signed (fmt_width f) (be_value s)
           else be_value s)
  else Raise (StructError "unpack requires a string argument of the format's length").

(** [source.read(n)] on an in-memory source: up to [n] bytes, fewer at the
    end of the data, and the source advanced past them. *)
Fixpoint read (n : Z) (src : bytes) : bytes * bytes :=
  match src with
  | [] => ([], [])
  | x :: src' =>
    if n <=? 0 then ([], src)
    else let '(s, rest) := read (n - 1) src' in (x :: s, rest)
  end.

(** The byte string of a literal, as the module's [b('...')]. *)
Definition b (s : string) : bytes := list_byte_of_string s.

(** ** Host library: the UTF-8 codec

    [unicode.encode('utf-8')] and [str.decode('utf-8')] of the host
    (a build with 4-byte code units): code points up to [0x10FFFF],
    surrogates included, overlong forms rejected on decoding. *)

Definition utf8_encode_char (c : Z) : bytes :=
  if c <? 0x80 then [byte_of_Z c]
  else if c <? 0x800 then
    [byte_of_Z (0xC0 + c / 64); byte_of_Z (0x80 + c mod 64)]
  else if c <? 0x10000 then
    [byte_of_Z (0xE0 + c / 4096); byte_of_Z (0x80 + (c / 64) mod 64);
     byte_of_Z (0x80 + c mod 64)]
  else
    [byte_of_Z (0xF0 + c / 262144); byte_of_Z (0x80 + (c / 4096) mod 64);
     byte_of_Z (0x80 + (c / 64) mod 64); byte_of_Z (0x80 + c mod 64)].

Definition utf8_encode (s : list Z) : bytes := flat_map utf8_encode_char s.

Definition is_continuation (c : Z) : bool := (0x80 <=? c) && (c <=? 0xBF).

Definition utf8_error : exn :=
  UnicodeDecodeError "'utf8' codec can't decode byte".

Fixpoint utf8_decode (s : bytes) : result (list Z) :=
  match s with
  | [] => Ok []
  | b0 :: s1 =>
    let c0 := Z_of_byte b0 in
    if c0 <? 0x80 then
      cs <- utf8_decode s1 ;; Ok (c0 :: cs)
    else if (0xC2 <=? c0) && (c0 <=? 0xDF) then
      match s1 with
      | b1 :: s2 =>
        let c1 := Z_of_byte b1 in
        if is_continuation c1 then
          cs <- utf8_decode s2 ;;
          Ok (((c0 - 0xC0) * 64 + (c1 - 0x80)) :: cs)
        else Raise utf8_error
      | _ => Raise utf8_error
      end
    else if (0xE0 <=? c0) && (c0 <=? 0xEF) then
      match s1 with
      | b1 :: b2 :: s3 =>
        let c1 := Z_of_byte b1 in
        let c2 := Z_of_byte b2 in
        if is_continuation c1 && is_continuation c2
           && negb ((c0 =? 0xE0) && (c1 <? 0xA0)) then
          cs <- utf8_decode s3 ;;
          Ok (((c0 - 0xE0) * 4096 + (c1 - 0x80) * 64 + (c2 - 0x80)) :: cs)
        else Raise utf8_error
      | _ => Raise utf8_error
      end
    else if (0xF0 <=? c0) && (c0 <=? 0xF4) then
      match s1 with
      | b1 :: b2 :: b3 :: s4 =>
        let c1 := Z_of_byte b1 in
        let c2 := Z_of_byte b2 in
        let c3 := Z_of_byte b3 in
        if is_continuation c1 && is_continuation c2 && is_continuation c3
           && negb ((c0 =? 0xF0) && (c1 <? 0x90))
           && negb ((c0 =? 0xF4) && (0x8F <? c1)) then
          cs <- utf8_decode s4 ;;
          Ok (((c0 - 0xF0) * 262144 + (c1 - 0x80) * 4096
               + (c2 - 0x80) * 64 + (c3 - 0x80)) :: cs)
        else Raise utf8_error
      | _ => Raise utf8_error
      end
    else Raise utf8_error
  end.

(** A code point of the host's [unicode] type. *)
Definition code_point (c : Z) : Prop := 0 <= c < 0x110000.

(** ** Host library: [decimal.Decimal] *)

Fixpoint uint_bytes (u : Decimal.uint) : bytes :=
  match u with
  | Decimal.Nil => []
  | Decimal.D0 u => "0"%byte :: uint_bytes u
  | Decimal.D1 u => "1"%byte :: uint_bytes u
  | Decimal.D2 u => "2"%byte :: uint_bytes u
  | Decimal.D3 u => "3"%byte :: uint_bytes u
  | Decimal.D4 u => "4"%byte :: uint_bytes u
  | Decimal.D5 u => "5"%byte :: uint_bytes u
  | Decimal.D6 u => "6"%byte :: uint_bytes u
  | Decimal.D7 u => "7"%byte :: uint_bytes u
  | Decimal.D8 u => "8"%byte :: uint_bytes u
  | Decimal.D9 u => "9"%byte :: uint_bytes u
  end.

(** [str(n)] for a natural number: its decimal digits. *)
Definition N_digits (n : N) : bytes := uint_bytes (N.to_uint n).

(** ["%+d" % z] *)
Definition signed_digits (z : Z) : bytes :=
  (if z <? 0 then b "-" else b "+") ++ N_digits (Z.to_N (Z.abs z)).

Definition sign_prefix (sign : bool) : bytes := if sign then b "-" else [].

(** [Decimal.__str__], in the default context (capital [E]). *)
Definition Decimal_str (d : Decimal) : bytes :=
  match d with
  | DecInfinity s => sign_prefix s ++ b "Infinity"
  | DecNaN s signaling diag =>
    sign_prefix s ++ (if signaling then b "sNaN" else b "NaN")
    ++ (if (diag =? 0)%N then [] else N_digits diag)
  | DecFinite s c e =>
    let ds := N_digits c in
    let n := Z.of_nat (List.length ds) in
    let leftdigits := e + n in
    let dotplace :=
      if (e <=? 0) && (-6 <? leftdigits) then leftdigits else 1 in
    let '(intpart, fracpart) :=
      if dotplace <=? 0 then
        (b "0", b "." ++ repeat "0"%byte (Z.to_nat (- dotplace)) ++ ds)
      else if n <=? dotplace then
        (ds ++ repeat "0"%byte (Z.to_nat (dotplace - n)), [])
      else
        (firstn (Z.to_nat dotplace) ds,
         b "." ++ skipn (Z.to_nat dotplace) ds) in
    let exp :=
      if leftdigits =? dotplace then []
      else b "E" ++ signed_digits (leftdigits - dotplace) in
    sign_prefix s ++ intpart ++ fracpart ++ exp
  end.

(** [Decimal(z)] for an integer. *)
Definition Decimal_of_int (z : Z) : Decimal :=
  DecFinite (z <? 0) (Z.to_N (Z.abs z)) 0.

(** The odd part of a positive number and the power of two removed. *)
Fixpoint pos_twos (p : positive) : Z * positive :=
  match p with
  | xO q => let '(k, r) := pos_twos q in (k + 1, r)
  | _ => (0, p)
  end.

(** [Decimal(f)] for a float ([Decimal.from_float]): the exact value
    [n / 2 ^ k] in lowest terms, written [n * 5 ^ k * 10 ^ (- k)]. *)
Definition Decimal_of_float (f : spec_float) : Decimal :=
  match f with
  | S754_zero s => DecFinite s 0 0
  | S754_infinity s => DecInfinity s
  | S754_nan => DecNaN false false 0
  | S754_finite s m e =>
    if 0 <=? e then DecFinite s (Z.to_N (Zpos m * 2 ^ e)) 0
    else
      let '(t, _) := pos_twos m in
      let t := Z.min t (- e) in
      let k := - e - t in
      DecFinite s (Z.to_N (Zpos m / 2 ^ t * 5 ^ k)) (- k)
  end.

(** Parsing a numeric string.  The model reads ASCII digits and letters
    and strips the host's white space. *)
Definition is_space (c : Z) : bool :=
  ((9 <=? c) && (c <=? 13)) || ((28 <=? c) && (c <=? 32))
  || (c =? 0x85) || (c =? 0xA0) || (c =? 0x1680) || (c =? 0x180E)
  || ((0x2000 <=? c) && (c <=? 0x200A)) || (c =? 0x2028) || (c =? 0x2029)
  || (c =? 0x202F) || (c =? 0x205F) || (c =? 0x3000).

Fixpoint lstrip (s : list Z) : list Z :=
  match s with
  | c :: s' => if is_space c then lstrip s' else s
  | [] => []
  end.

Definition strip (s : list Z) : list Z := rev (lstrip (rev (lstrip s))).

Definition is_digit (c : Z) : bool := (48 <=? c) && (c <=? 57).

Fixpoint span_digits (s : list Z) : list Z * list Z :=
  match s with
  | c :: s' =>
    if is_digit c then let '(ds, r) := span_digits s' in (c :: ds, r)
    else ([], s)
  | [] => ([], [])
  end.

(** [int(ds)] for a string of digits; the empty string counts as zero
    where the host supplies ['0'] for it. *)
Definition digits_value (ds : list Z) : N :=
  fold_left (fun acc c => (acc * 10 + Z.to_N (c - 48))%N) ds 0%N.

Definition lower (c : Z) : Z :=
  if (65 <=? c) && (c <=? 90) then c + 32 else c.

Definition text (s : string) : list Z := map Z_of_byte (b s).

Definition list_eqb {A : Type} (eqb : A -> A -> bool) : list A -> list A -> bool :=
  fix go (l1 l2 : list A) : bool :=
    match l1, l2 with
    | [], [] => true
    | x :: l1', y :: l2' => eqb x y && go l1' l2'
    | _, _ => false
    end.

Definition text_eqb (s t : list Z) : bool := list_eqb Z.eqb s t.

(** An optional sign at the head of a string: whether it is a minus, and
    what follows it. *)
Definition split_sign (s : list Z) : bool * list Z :=
  match s with
  | c :: r =>
    if c =? 45 then (true, r) else if c =? 43 then (false, r) else (false, s)
  | [] => (false, s)
  end.

(** The optional exponent group [(E[-+]?\d+)?]: the exponent and what
    follows it (the group matches nothing when no digit follows). *)
Definition parse_exponent (s : list Z) : Z * list Z :=
  match s with
  | c :: r =>
    if lower c =? 101 then
      let '(neg, r1) := split_sign r in
      let '(ds, r2) := span_digits r1 in
      match ds with
      | [] => (0, s)
      | _ => let v := Z.of_N (digits_value ds) in
             (if neg then - v else v, r2)
      end
    else (0, s)
  | [] => (0, s)
  end.

(** The number group: digits, an optional point and digits, an optional
    exponent, at least one digit before the exponent, nothing after. *)
Definition parse_number (s : list Z) : option (N * Z) :=
  let '(ip, r1) := span_digits s in
  let '(fp, r2) :=
    match r1 with
    | c :: r => if c =? 46 then span_digits r else ([], r1)
    | [] => ([], r1)
    end in
  let '(e, r3) := parse_exponent r2 in
  match ip ++ fp, r3 with
  | _ :: _, [] =>
    Some (digits_value (ip ++ fp), e - Z.of_nat (List.length fp))
  | _, _ => None
  end.

Definition parse_special (sign : bool) (s : list Z) : option Decimal :=
  let s := map lower s in
  if text_eqb s (text "inf") || text_eqb s (text "infinity")
  then Some (DecInfinity sign)
  else
    let '(signaling, r) :=
      match s with
      | 115 :: r => (true, r)
      | _ => (false, s)
      end in
    match r with
    | 110 :: 97 :: 110 :: r' =>
      let '(ds, r'') := span_digits r' in
      match r'' with
      | [] => Some (DecNaN sign signaling (digits_value ds))
      | _ => None
      end
    | _ => None
    end.

(** [Decimal(s)] for a string of ASCII characters. *)
Definition Decimal_of_ascii (s : list Z) : result Decimal :=
  let '(sign, r) := split_sign (strip s) in
  match parse_number r with
  | Some (c, e) => Ok (DecFinite sign c e)
  | None =>
    match parse_special sign r with
    | Some d => Ok d
    | None => Raise (InvalidOperation "Invalid literal for Decimal")
    end
  end.

(** [Decimal(s)] for a [unicode] string.  The host also reads the
    decimal digits and the white space of the other scripts; the model
    covers the ASCII strings and says so of the others. *)
Definition Decimal_of_text (s : list Z) : result Decimal :=
  if forallb (fun c => (0 <=? c) && (c <? 128)) s then Decimal_of_ascii s
  else Raise (Unmodelled "a Decimal literal with characters beyond ASCII").

(** ** Host library: floats and their [struct] formats

    A [float] is a binary64 number.  ['>f'] and ['>d'] are the IEEE
    interchange encodings of binary32 and binary64, big-endian. *)

Inductive float_format : Type := Fmt_f | Fmt_d.

Definition float_prec (f : float_format) : Z :=
  match f with Fmt_f => 24 | Fmt_d => 53 end.
Definition float_emax (f : float_format) : Z :=
  match f with Fmt_f => 128 | Fmt_d => 1024 end.
Definition float_expbits (f : float_format) : Z :=
  match f with Fmt_f => 8 | Fmt_d => 11 end.
Definition float_width (f : float_format) : nat :=
  match f with Fmt_f => 4 | Fmt_d => 8 end%nat.

(** Rounding to a format (to nearest, ties to even). *)
Definition float_round (f : float_format) (x : spec_float) : spec_float :=
  match x with
  | S754_finite s m e => binary_round (float_prec f) (float_emax f) s m e
  | _ => x
  end.

Definition float_is_finite (x : spec_float) : bool :=
  match x with
  | S754_zero _ | S754_finite _ _ _ => true
  | _ => false
  end.

(** The bit pattern of a number of the format. *)
Definition float_bits (f : float_format) (x : spec_float) : Z :=
  let mw := float_prec f - 1 in
  let ew := float_expbits f in
  let join (s : bool) (biased frac : Z) :=
    (if s then 2 ^ (mw + ew) else 0) + biased * 2 ^ mw + frac in
  match x with
  | S754_zero s => join s 0 0
  | S754_infinity s => join s (2 ^ ew - 1) 0
  | S754_nan => join false (2 ^ ew - 1) (2 ^ (mw - 1))
  | S754_finite s m e =>
    if 2 ^ mw <=? Zpos m
    then join s (e - emin (float_prec f) (float_emax f) + 1) (Zpos m - 2 ^ mw)
    else join s 0 (Zpos m)
  end.

Definition bits_float (f : float_format) (bits : Z) : spec_float :=
  let mw := float_prec f - 1 in
  let ew := float_expbits f in
  let s := (bits / 2 ^ (mw + ew)) mod 2 =? 1 in
  let biased := (bits / 2 ^ mw) mod 2 ^ ew in
  let frac := bits mod 2 ^ mw in
  if biased =? 0 then
    match frac with
    | Zpos m => S754_finite s m (emin (float_prec f) (float_emax f))
    | _ => S754_zero s
    end
  else if biased =? 2 ^ ew - 1 then
    if frac =? 0 then S754_infinity s else S754_nan
  else
    match frac + 2 ^ mw with
    | Zpos m => S754_finite s m (biased + emin (float_prec f) (float_emax f) - 1)
    | _ => S754_nan
    end.

(** [pack('>f', x)] rounds to binary32 and raises [OverflowError] when a
    finite number rounds to an infinity; [pack('>d', x)] is exact. *)
Definition pack_float (f : float_format) (x : spec_float) : result bytes :=
  let y := float_round f x in
  if float_is_finite x && negb (float_is_finite y)
  then Raise (OverflowError "float too large to pack with f format")
  else Ok (be_bytes (float_width f) (float_bits f y)).

Definition unpack_float (f : float_format) (s : bytes) : result spec_float :=
  if Nat.eqb (List.length s) (float_width f)
  then Ok (float_round Fmt_d (bits_float f (be_value s)))
  else Raise (StructError "unpack requires a string argument of the format's length").

(** The float literals of [encode_float], as binary64 numbers:
    [1.18e-38], [3.4e38], [2.23e-308] and [1.8e308] (which exceeds the
    largest finite float and so denotes infinity). *)
Definition float_1_18e_38 : spec_float := S754_finite false 4520861845554372 (-178).
Definition float_3_4e38 : spec_float := S754_finite false 8999725064576941 75.
Definition float_2_23e_308 : spec_float := S754_finite false 4513570248753027 (-1074).
Definition float_1_8e308 : spec_float := S754_infinity false.
Definition float_inf : spec_float := S754_infinity false.
Definition float_neg_inf : spec_float := S754_infinity true.

(** ** The marker table *)

Definition NOOP : byte := "N".
Definition EOS : byte := "E".
Definition NULL : byte := "Z".
Definition FALSE : byte := "F".
Definition TRUE : byte := "T".
Definition INT8 : byte := "B".
Definition INT16 : byte := "i".
Definition INT32 : byte := "I".
Definition INT64 : byte := "L".
Definition FLOAT : byte := "d".
Definition DOUBLE : byte := "D".
Definition STRING_S : byte := "s".
Definition STRING_L : byte := "S".
Definition HIDEF_S : byte := "h".
Definition HIDEF_L : byte := "H".
Definition ARRAY_S : byte := "a".
Definition OBJECT_S : byte := "o".
Definition ARRAY_L : byte := "A".
Definition OBJECT_L : byte := "O".

Definition mem (t : byte) (set : list byte) : bool :=
  existsb (Byte.eqb t) set.

Definition CONSTANTS : list byte := [NOOP; EOS; NULL; FALSE; TRUE].
Definition NUMBERS : list byte := [INT8; INT16; INT32; INT64; FLOAT; DOUBLE].
Definition STRINGS : list byte := [STRING_S; STRING_L; HIDEF_S; HIDEF_L].
Definition SHORT_OBJ : list byte := [STRING_S; HIDEF_S; ARRAY_S; OBJECT_S].
Definition LARGE_OBJ : list byte := [STRING_L; HIDEF_L; ARRAY_L; OBJECT_L].
Definition STREAMS : list byte := [ARRAY_S; OBJECT_S].
Definition OBJECT_KEYS : list byte := [STRING_S; STRING_L].
Definition FORBIDDEN : list byte := [NOOP; EOS].

(** ** Equality and truth of objects *)

Definition Decimal_eqb (x y : Decimal) : bool :=
  match x, y with
  | DecFinite s c e, DecFinite s' c' e' =>
    Bool.eqb s s' && (c =? c')%N && (e =? e')
  | DecInfinity s, DecInfinity s' => Bool.eqb s s'
  | DecNaN s g d, DecNaN s' g' d' => Bool.eqb s s' && Bool.eqb g g' && (d =? d')%N
  | _, _ => false
  end.

Definition float_same (x y : spec_float) : bool :=
  match x, y with
  | S754_zero s, S754_zero s' => Bool.eqb s s'
  | S754_infinity s, S754_infinity s' => Bool.eqb s s'
  | S754_nan, S754_nan => true
  | S754_finite s m e, S754_finite s' m' e' =>
    Bool.eqb s s' && (m =? m')%positive && (e =? e')
  | _, _ => false
  end.

Definition iter_kind_eqb (x y : iter_kind) : bool :=
  match x, y with
  | KXRange, KXRange | KGenerator, KGenerator
  | KDictKeys, KDictKeys | KDictValues, KDictValues => true
  | _, _ => false
  end.

Definition stream_kind_eqb (x y : stream_kind) : bool :=
  match x, y with
  | ArrayStream, ArrayStream | ObjectStream, ObjectStream => true
  | _, _ => false
  end.

(** Structural equality.  On [unicode] strings, the only keys the decoder
    stores in a [dict], it is the equality of the host. *)
Fixpoint pyobj_eqb (x y : pyobj) {struct x} : bool :=
  let pairs_eqb :=
    list_eqb (fun p q : pyobj * pyobj =>
                pyobj_eqb (fst p) (fst q) && pyobj_eqb (snd p) (snd q)) in
  match x, y with
  | PNoop, PNoop => true
  | PNone, PNone => true
  | PBool a, PBool a' => Bool.eqb a a'
  | PInt z, PInt z' => z =? z'
  | PFloat f, PFloat f' => float_same f f'
  | PDecimal d, PDecimal d' => Decimal_eqb d d'
  | PStr s, PStr s' => list_eqb Byte.eqb s s'
  | PUnicode s, PUnicode s' => list_eqb Z.eqb s s'
  | PTuple l, PTuple l' => list_eqb pyobj_eqb l l'
  | PList l, PList l' => list_eqb pyobj_eqb l l'
  | PSet l, PSet l' => list_eqb pyobj_eqb l l'
  | PFrozenset l, PFrozenset l' => list_eqb pyobj_eqb l l'
  | PDict d, PDict d' => pairs_eqb d d'
  | PIterator k l, PIterator k' l' => iter_kind_eqb k k' && list_eqb pyobj_eqb l l'
  | PDictItems d, PDictItems d' => pairs_eqb d d'
  | PStream k, PStream k' => stream_kind_eqb k k'
  | PInstance c v, PInstance c' v' => String.eqb c c' && pyobj_eqb v v'
  | PObject c, PObject c' => String.eqb c c'
  | _, _ => false
  end.

(** The truth value of an object in a condition ([if key:]). *)
Definition truthy (x : pyobj) : bool :=
  match x with
  | PNone => false
  | PBool a => a
  | PInt z => negb (z =? 0)
  | PFloat (S754_zero _) => false
  | PDecimal (DecFinite _ 0%N _) => false
  | PStr [] | PUnicode [] => false
  | PTuple [] | PList [] | PSet [] | PFrozenset [] | PDict [] => false
  | _ => true
  end.

Definition is_None (x : pyobj) : bool :=
  match x with PNone => true | _ => false end.

(** [d[key] = value] on a [dict]: an existing key keeps its place. *)
Fixpoint dict_setitem (d : list (pyobj * pyobj)) (key value : pyobj)
  : list (pyobj * pyobj) :=
  match d with
  | [] => [(key, value)]
  | (k, v) :: d' =>
    if pyobj_eqb k key then (k, value) :: d'
    else (k, v) :: dict_setitem d' key value
  end.

(** ** Draft8Decoder *)

(** One unit of the wire: [(tag, length, value)], where [length] is [None]
    or an integer and [value] is [None], a number or a byte string. *)
Definition tlv : Type := byte * option Z * pyobj.

Definition length_is (length : option Z) (n : Z) : bool :=
  match length with Some l => l =? n | None => false end.

(** The state of a generator after a resumption: it has produced an item
    and is suspended again, or it has returned. *)
Inductive gen_step : Type :=
| Yield (item : pyobj)
| StopIteration.

(** The functions a marker is bound to in [Draft8Decoder.dispatch]. *)
Inductive decoder_handler : Type :=
| H_noop | H_none | H_false | H_true | H_int | H_float
| H_string | H_hidef | H_array | H_object.

Definition decoder_dispatch (tag : byte) : option decoder_handler :=
  if Byte.eqb tag NOOP then Some H_noop
  else if Byte.eqb tag NULL then Some H_none
  else if Byte.eqb tag FALSE then Some H_false
  else if Byte.eqb tag TRUE then Some H_true
  else if mem tag [INT8; INT16; INT32; INT64] then Some H_int
  else if mem tag [FLOAT; DOUBLE] then Some H_float
  else if mem tag [STRING_S; STRING_L] then Some H_string
  else if mem tag [HIDEF_S; HIDEF_L] then Some H_hidef
  else if mem tag [ARRAY_S; ARRAY_L] then Some H_array
  else if mem tag [OBJECT_S; OBJECT_L] then Some H_object
  else None.

Definition decode_noop (tag : byte) (length : option Z) (value : pyobj) : result pyobj :=
  Ok PNoop.
Definition decode_none (tag : byte) (length : option Z) (value : pyobj) : result pyobj :=
  Ok PNone.
Definition decode_false (tag : byte) (length : option Z) (value : pyobj) : result pyobj :=
  Ok (PBool false).
Definition decode_true (tag : byte) (length : option Z) (value : pyobj) : result pyobj :=
  Ok (PBool true).
Definition decode_int (tag : byte) (length : option Z) (value : pyobj) : result pyobj :=
  Ok value.
Definition decode_float (tag : byte) (length : option Z) (value : pyobj) : result pyobj :=
  Ok value.

(** [value.decode('utf-8')] *)
Definition str_decode (value : pyobj) : result (list Z) :=
  match value with
  | PStr s => utf8_decode s
  | _ => Raise (AttributeError "object has no attribute 'decode'")
  end.

Definition decode_string (tag : byte) (length : option Z) (value : pyobj) : result pyobj :=
  s <- str_decode value ;; Ok (PUnicode s).

Definition decode_hidef (tag : byte) (length : option Z) (value : pyobj) : result pyobj :=
  s <- str_decode value ;;
  d <- Decimal_of_text s ;;
  Ok (PDecimal d).

(** [range(n)] as a number of iterations. *)
Definition range (n : option Z) : result Z :=
  match n with
  | Some k => Ok k
  | None => Raise (TypeError "range() integer end argument expected")
  end.

Section Draft8Decoder.

(** The decoder's option; its byte source is threaded through the
    functions below, each returning the source as it leaves it. *)
Variable allow_noop : bool.

(** The loop at the head of [next_tlv]. *)
Fixpoint read_tag (src : bytes) : result (byte * bytes) :=
  match src with
  | [] => Raise (EarlyEndOfStreamError "nothing to decode" None)
  | tag :: src' =>
    if Byte.eqb tag NOOP && negb allow_noop then read_tag src'
    else Ok (tag, src')
  end.

Definition next_tlv (src : bytes) : result (tlv * bytes) :=
  '(tag, src) <- read_tag src ;;
  if mem tag NUMBERS then
    if Byte.eqb tag INT8 then
      let '(s, src) := read 1 src in
      value <- ord s ;;
      let value := if 128 <? value then value - 256 else value in
      Ok ((tag, None, PInt value), src)
    else if Byte.eqb tag INT16 then
      let '(s, src) := read 2 src in
      value <- unpack Fmt_h s ;; Ok ((tag, None, PInt value), src)
    else if Byte.eqb tag INT32 then
      let '(s, src) := read 4 src in
      value <- unpack Fmt_i s ;; Ok ((tag, None, PInt value), src)
    else if Byte.eqb tag INT64 then
      let '(s, src) := read 8 src in
      value <- unpack Fmt_q s ;; Ok ((tag, None, PInt value), src)
    else if Byte.eqb tag FLOAT then
      let '(s, src) := read 4 src in
      value <- unpack_float Fmt_f s ;; Ok ((tag, None, PFloat value), src)
    else if Byte.eqb tag DOUBLE then
      let '(s, src) := read 8 src in
      value <- unpack_float Fmt_d s ;; Ok ((tag, None, PFloat value), src)
    else Raise (AssertionError "tag %r not in NUMBERS %r")
  else if mem tag SHORT_OBJ then
    let '(s, src) := read 1 src in
    length <- ord s ;;
    if mem tag STRINGS then
      if length <? 255 then
        let '(s, src) := read length src in
        Ok ((tag, Some length, PStr s), src)
      else Raise (AssertionError "invalid string length")
    else Ok ((tag, Some length, PNone), src)
  else if mem tag LARGE_OBJ then
    let '(s, src) := read 4 src in
    length <- unpack Fmt_I s ;;
    if mem tag STRINGS then
      let '(s, src) := read length src in
      Ok ((tag, Some length, PStr s), src)
    else Ok ((tag, Some length, PNone), src)
  else if mem tag CONSTANTS then Ok ((tag, None, PNone), src)
  else Raise (MarkerError "invalid marker 0x%02x (%r)" tag).

(** [list(item)]: a generator of the decoder is run to its end by
    [run]; the other iterables list their items, a [dict] its keys. *)
Definition py_list (run : stream_kind -> bytes -> result (pyobj * bytes))
    (item : pyobj) (src : bytes) : result (pyobj * bytes) :=
  match item with
  | PStream k => run k src
  | PTuple l | PList l | PSet l | PFrozenset l | PIterator _ l =>
    Ok (PList l, src)
  | PDict d => Ok (PList (map fst d), src)
  | PDictItems d => Ok (PList (map (fun kv => PTuple [fst kv; snd kv]) d), src)
  | PStr s => Ok (PList (map (fun c => PStr [c]) s), src)
  | PUnicode s => Ok (PList (map (fun c => PUnicode [c]) s), src)
  | _ => Raise (TypeError "object is not iterable")
  end.

(** [decode_array_stream] and [decode_object_stream] create the
    generator and read nothing. *)
Definition decode_array_stream (tag : byte) (length : option Z) (value : pyobj)
    (src : bytes) : result (pyobj * bytes) :=
  Ok (PStream ArrayStream, src).

Definition decode_object_stream (tag : byte) (length : option Z) (value : pyobj)
    (src : bytes) : result (pyobj * bytes) :=
  Ok (PStream ObjectStream, src).

Definition decode_array (loop : Z -> list pyobj -> bytes -> result (pyobj * bytes))
    (tag : byte) (length : option Z) (value : pyobj) (src : bytes)
  : result (pyobj * bytes) :=
  if Byte.eqb tag ARRAY_S && length_is length 255
  then decode_array_stream tag length value src
  else n <- range length ;; loop n [] src.

Definition decode_object
    (loop : Z -> pyobj -> list (pyobj * pyobj) -> bytes -> result (pyobj * bytes))
    (tag : byte) (length : option Z) (value : pyobj) (src : bytes)
  : result (pyobj * bytes) :=
  if Byte.eqb tag OBJECT_S && length_is length 255
  then decode_object_stream tag length value src
  else n <- range (option_map (fun l => l * 2) length) ;; loop n PNone [] src.

(** The decoder proper.  [call] is [self.dispatch[tag](self, tag, length,
    value)]; [decode_array_loop] and [decode_object_loop] are the [for]
    loops of the sized containers, with the iterations left, the pending
    key and the container built so far; [array_stream] and
    [object_stream] run the generator of that name from one suspension
    to the next; [list_stream] is [list(...)] of such a generator.
    Every call spends one unit of [fuel]. *)
Fixpoint call (fuel : nat) (tag : byte) (length : option Z) (value : pyobj)
    (src : bytes) {struct fuel} : result (pyobj * bytes) :=
  match fuel with
  | O => OutOfFuel
  | S fuel =>
    match decoder_dispatch tag with
    | None => Raise (KeyError tag)
    | Some H_noop => v <- decode_noop tag length value ;; Ok (v, src)
    | Some H_none => v <- decode_none tag length value ;; Ok (v, src)
    | Some H_false => v <- decode_false tag length value ;; Ok (v, src)
    | Some H_true => v <- decode_true tag length value ;; Ok (v, src)
    | Some H_int => v <- decode_int tag length value ;; Ok (v, src)
    | Some H_float => v <- decode_float tag length value ;; Ok (v, src)
    | Some H_string => v <- decode_string tag length value ;; Ok (v, src)
    | Some H_hidef => v <- decode_hidef tag length value ;; Ok (v, src)
    | Some H_array => decode_array (decode_array_loop fuel) tag length value src
    | Some H_object => decode_object (decode_object_loop fuel) tag length value src
    end
  end

with decode_array_loop (fuel : nat) (n : Z) (res : list pyobj) (src : bytes)
    {struct fuel} : result (pyobj * bytes) :=
  match fuel with
  | O => OutOfFuel
  | S fuel =>
    if n <=? 0 then Ok (PList res, src)
    else
      '(tag, length, value, src) <- next_tlv src ;;
      if mem tag FORBIDDEN
      then Raise (MarkerError "invalid marker occurs: %02X" tag)
      else
        '(item, src) <- call fuel tag length value src ;;
        '(item, src) <-
          (if mem tag STREAMS && length_is length 255
           then py_list (list_stream fuel PNone []) item src
           else Ok (item, src)) ;;
        decode_array_loop fuel (n - 1) (res ++ [item]) src
  end

with decode_object_loop (fuel : nat) (n : Z) (key : pyobj)
    (res : list (pyobj * pyobj)) (src : bytes)
    {struct fuel} : result (pyobj * bytes) :=
  match fuel with
  | O => OutOfFuel
  | S fuel =>
    if n <=? 0 then Ok (PDict res, src)
    else
      '(tag, length, value, src) <- next_tlv src ;;
      if mem tag FORBIDDEN
      then Raise (MarkerError "invalid marker found: %02X" tag)
      else if is_None key && negb (mem tag OBJECT_KEYS)
      then Raise (ValueError "key should be string, got %r")
      else
        '(value, src) <- call fuel tag length value src ;;
        if is_None key
        then decode_object_loop fuel (n - 1) value res src
        else
          '(value, src) <-
            (if mem tag STREAMS && length_is length 255
             then py_list (list_stream fuel PNone []) value src
             else Ok (value, src)) ;;
          decode_object_loop fuel (n - 1) PNone (dict_setitem res key value) src
  end

with array_stream (fuel : nat) (src : bytes)
    {struct fuel} : result (gen_step * bytes) :=
  match fuel with
  | O => OutOfFuel
  | S fuel =>
    '(tag, length, value, src) <- next_tlv src ;;
    if Byte.eqb tag EOS then Ok (StopIteration, src)
    else
      '(item, src) <- call fuel tag length value src ;;
      if mem tag STREAMS && length_is length 255
      then '(item, src) <- py_list (list_stream fuel PNone []) item src ;;
           Ok (Yield item, src)
      else Ok (Yield item, src)
  end

with object_stream (fuel : nat) (key : pyobj) (src : bytes)
    {struct fuel} : result (gen_step * pyobj * bytes) :=
  match fuel with
  | O => OutOfFuel
  | S fuel =>
    '(tag, length, value, src) <- next_tlv src ;;
    if Byte.eqb tag NOOP && is_None key
    then Ok (Yield (PTuple [PNoop; PNoop]), key, src)
    else if Byte.eqb tag NOOP && truthy key
    then object_stream fuel key src
    else if Byte.eqb tag EOS then
      if truthy key
      then Raise (EarlyEndOfStreamError "value missed for key %r" (Some key))
      else Ok (StopIteration, key, src)
    else if is_None key && negb (mem tag OBJECT_KEYS)
    then Raise (ValueError "key should be string")
    else
      '(value, src) <- call fuel tag length value src ;;
      if is_None key
      then object_stream fuel value src
      else if mem tag STREAMS
      then '(value, src) <- py_list (list_stream fuel PNone []) value src ;;
           Ok (Yield (PTuple [key; value]), PNone, src)
      else Ok (Yield (PTuple [key; value]), PNone, src)
  end

with list_stream (fuel : nat) (key : pyobj) (res : list pyobj)
    (k : stream_kind) (src : bytes)
    {struct fuel} : result (pyobj * bytes) :=
  match fuel with
  | O => OutOfFuel
  | S fuel =>
    match k with
    | ArrayStream =>
      '(step, src) <- array_stream fuel src ;;
      match step with
      | Yield item => list_stream fuel key (res ++ [item]) k src
      | StopIteration => Ok (PList res, src)
      end
    | ObjectStream =>
      '(step, key, src) <- object_stream fuel key src ;;
      match step with
      | Yield item => list_stream fuel key (res ++ [item]) k src
      | StopIteration => Ok (PList res, src)
      end
    end
  end.

Definition decode_next (fuel : nat) (src : bytes) : result (pyobj * bytes) :=
  '(tag, length, value, src) <- next_tlv src ;;
  call fuel tag length value src.

(** [list(g)] for the generator [g] a top-level [decode_next] returned,
    with the source as that call left it. *)
Definition materialize (fuel : nat) (item : pyobj) (src : bytes)
  : result (pyobj * bytes) :=
  py_list (list_stream fuel PNone []) item src.

End Draft8Decoder.

(** ** Draft8Encoder *)

(** The exact type of an object ([type(obj)]).  On the host an integer
    is an [int] while it fits a machine word and a [long] beyond. *)
Inductive pytype : Type :=
| NoopType | NoneType | BooleanType | IntType | LongType | FloatType
| StringType | UnicodeType | DecimalType
| TupleType | ListType | SetType | FrozensetType | DictType
| XRangeType | GeneratorType
| DictKeysIterator | DictValuesIterator | DictItemsIterator
| UserClass (name : string).

Definition type_of (obj : pyobj) : pytype :=
  match obj with
  | PNoop => NoopType
  | PNone => NoneType
  | PBool _ => BooleanType
  | PInt z => if (- 2 ^ 63 <=? z) && (z <=? 2 ^ 63 - 1) then IntType else LongType
  | PFloat _ => FloatType
  | PDecimal _ => DecimalType
  | PStr _ => StringType
  | PUnicode _ => UnicodeType
  | PTuple _ => TupleType
  | PList _ => ListType
  | PSet _ => SetType
  | PFrozenset _ => FrozensetType
  | PDict _ => DictType
  | PIterator KXRange _ => XRangeType
  | PIterator KGenerator _ => GeneratorType
  | PIterator KDictKeys _ => DictKeysIterator
  | PIterator KDictValues _ => DictValuesIterator
  | PDictItems _ => DictItemsIterator
  | PStream _ => GeneratorType
  | PInstance cls _ => UserClass cls
  | PObject cls => UserClass cls
  end.

(** The items of a [tuple] or of an instance of a subclass of [tuple]. *)
Fixpoint tuple_items (obj : pyobj) : option (list pyobj) :=
  match obj with
  | PTuple l => Some l
  | PInstance _ base => tuple_items base
  | _ => None
  end.

(** [fmt % obj] for a format [fmt] with the one conversion [%r]: a tuple
    is taken for the tuple of the arguments and must hold one; any other
    object is the argument.  The result is the object that is formatted. *)
Definition format_r (obj : pyobj) : result pyobj :=
  match tuple_items obj with
  | Some [x] => Ok x
  | Some [] => Raise (TypeError "not enough arguments for format string")
  | Some _ =>
    Raise (TypeError "not all arguments converted during string formatting")
  | None => Ok obj
  end.

(** [isinstance(obj, basestring)]: a string or an instance of a subclass
    of one. *)
Fixpoint is_basestring (obj : pyobj) : bool :=
  match obj with
  | PStr _ | PUnicode _ => true
  | PInstance _ base => is_basestring base
  | _ => false
  end.

(** The functions a type is bound to in [Draft8Encoder.dispatch]. *)
Inductive encoder_handler : Type :=
| E_noop | E_none | E_bool | E_int | E_float | E_str | E_decimal
| E_sequence | E_dict | E_generator | E_dictitems.

Definition encoder_dispatch (t : pytype) : option encoder_handler :=
  match t with
  | NoopType => Some E_noop
  | NoneType => Some E_none
  | BooleanType => Some E_bool
  | IntType | LongType => Some E_int
  | FloatType => Some E_float
  | StringType | UnicodeType => Some E_str
  | DecimalType => Some E_decimal
  | TupleType | ListType | SetType | FrozensetType => Some E_sequence
  | DictType => Some E_dict
  | XRangeType | GeneratorType | DictKeysIterator | DictValuesIterator =>
    Some E_generator
  | DictItemsIterator => Some E_dictitems
  | UserClass _ => None
  end.

(** [bytes().join(res)] for a generator [res] of encoded pieces: the
    pieces are produced in order and the first failure is the result. *)
Fixpoint join (pieces : list (result bytes)) : result bytes :=
  match pieces with
  | [] => Ok []
  | p :: ps => x <- p ;; xs <- join ps ;; Ok (x ++ xs)
  end.

Definition encode_noop (obj : pyobj) : result bytes := Ok [NOOP].

Definition encode_none (obj : pyobj) : result bytes := Ok [NULL].

Definition encode_bool (obj : bool) : result bytes :=
  Ok [nth (if obj then 1 else 0)%nat [FALSE; TRUE] FALSE].

Definition encode_decimal (obj : Decimal) : result bytes :=
  let obj := Decimal_str obj in
  let length := Z.of_nat (List.length obj) in
  if length <? 255 then
    size <- chr length ;; Ok (HIDEF_S :: size ++ obj)
  else
    size <- pack Fmt_i length ;; Ok (HIDEF_L :: size ++ obj).

Definition encode_int (obj : Z) : result bytes :=
  if (- 2 ^ 7 <=? obj) && (obj <=? 2 ^ 7 - 1) then
    c <- chr (obj mod 256) ;; Ok (INT8 :: c)
  else if (- 2 ^ 15 <=? obj) && (obj <=? 2 ^ 15 - 1) then
    s <- pack Fmt_h obj ;; Ok (INT16 :: s)
  else if (- 2 ^ 31 <=? obj) && (obj <=? 2 ^ 31 - 1) then
    s <- pack Fmt_i obj ;; Ok (INT32 :: s)
  else if (- 2 ^ 63 <=? obj) && (obj <=? 2 ^ 63 - 1) then
    s <- pack Fmt_q obj ;; Ok (INT64 :: s)
  else encode_decimal (Decimal_of_int obj).

Definition encode_float (obj : spec_float) : result bytes :=
  if SFleb float_1_18e_38 (SFabs obj) && SFleb (SFabs obj) float_3_4e38 then
    s <- pack_float Fmt_f obj ;; Ok (FLOAT :: s)
  else if SFleb float_2_23e_308 (SFabs obj) && SFltb (SFabs obj) float_1_8e308 then
    s <- pack_float Fmt_d obj ;; Ok (DOUBLE :: s)
  else if SFeqb obj float_inf || SFeqb obj float_neg_inf then
    Ok [NULL]
  else encode_decimal (Decimal_of_float obj).

Definition encode_str (obj : pyobj) : result bytes :=
  obj <- match obj with
         | PUnicode s => Ok (utf8_encode s)
         | PStr s => Ok s
         | _ => Raise (TypeError "object has no len()")
         end ;;
  let length := Z.of_nat (List.length obj) in
  if length <? 255 then
    size <- chr length ;; Ok (STRING_S :: size ++ obj)
  else
    size <- pack Fmt_i length ;; Ok (STRING_L :: INT32 :: size ++ obj).

(** The generator functions, as the list of pieces they yield;
    [encode_next] is the encoder they call on the items. *)
Section Generators.

Variable encode_next : pyobj -> result bytes.

Definition encode_sequence (obj : list pyobj) : list (result bytes) :=
  let length := Z.of_nat (List.length obj) in
  (if length <? 255 then
     size <- chr length ;; Ok (ARRAY_S :: size)
   else
     size <- pack Fmt_I length ;; Ok (ARRAY_L :: size))
  :: map encode_next obj.

Definition encode_dict (obj : list (pyobj * pyobj)) : list (result bytes) :=
  let length := Z.of_nat (List.length obj) in
  (if length <? 255 then
     size <- chr length ;; Ok (OBJECT_S :: size)
   else
     size <- pack Fmt_I length ;; Ok (OBJECT_L :: size))
  :: flat_map (fun kv => [encode_next (fst kv); encode_next (snd kv)]) obj.

Definition encode_generator (obj : list pyobj) : list (result bytes) :=
  (size <- chr 255 ;; Ok (ARRAY_S :: size))
  :: map encode_next obj ++ [Ok [EOS]].

Definition encode_dictitems (obj : list (pyobj * pyobj)) : list (result bytes) :=
  (size <- chr 255 ;; Ok (OBJECT_S :: size))
  :: flat_map (fun kv =>
                 if negb (is_basestring (fst kv))
                 then [arg <- format_r (fst kv) ;;
                       Raise (EncodeError "invalid object key %r" arg)]
                 else [encode_next (fst kv); encode_next (snd kv)]) obj
  ++ [Ok [EOS]].

End Generators.

Section Draft8Encoder.

(** The [default] argument of the constructor, [None] or a callable. *)
Variable default : option (pyobj -> result pyobj).

(** [default]: the message is built with ['unable to encode %r' % obj]
    before [EncodeError] is raised. *)
Definition Draft8Encoder_default (obj : pyobj) : result pyobj :=
  arg <- format_r obj ;; Raise (EncodeError "unable to encode %r" arg).

(** [self._default = default or self.default] *)
Definition _default (obj : pyobj) : result pyobj :=
  match default with
  | Some f => f obj
  | None => Draft8Encoder_default obj
  end.

(** [encode_next]: recursion on the object where a handler is found, and
    on [fuel] where the result of the default transform is dispatched
    again. *)
Fixpoint encode_next (fuel : nat) {struct fuel} : pyobj -> result bytes :=
  fix enc (obj : pyobj) {struct obj} : result bytes :=
    match encoder_dispatch (type_of obj) with
    | Some h =>
      match h, obj with
      | E_noop, _ => encode_noop obj
      | E_none, _ => encode_none obj
      | E_bool, PBool v => encode_bool v
      | E_int, PInt z => encode_int z
      | E_float, PFloat f => encode_float f
      | E_str, _ => encode_str obj
      | E_decimal, PDecimal d => encode_decimal d
      | E_sequence, PTuple l | E_sequence, PList l
      | E_sequence, PSet l | E_sequence, PFrozenset l =>
        join (encode_sequence enc l)
      | E_dict, PDict d => join (encode_dict enc d)
      | E_generator, PIterator _ l => join (encode_generator enc l)
      | E_generator, PStream _ =>
        Raise (Unmodelled "a generator bound to a decoder")
      | E_dictitems, PDictItems d => join (encode_dictitems enc d)
      | _, _ => Raise (TypeError "handler applied to an object of another type")
      end
    | None =>
      obj' <- _default obj ;;
      match fuel with
      | O => OutOfFuel
      | S fuel' => encode_next fuel' obj'
      end
    end.

End Draft8Encoder.

(** ** Notions used in the statements *)

(** The nineteen marker bytes of the format. *)
Definition MARKERS : list byte := CONSTANTS ++ NUMBERS ++ SHORT_OBJ ++ LARGE_OBJ.

(** [list(decoder.decode_next())]: a value is decoded and, as a caller
    does with a generator, listed. *)
Definition decode_and_list (allow_noop : bool) (fuel : nat) (src : bytes)
  : result (pyobj * bytes) :=
  '(v, src) <- decode_next allow_noop fuel src ;;
  materialize allow_noop fuel v src.

(** The width rule in the words of the specification: the smallest of
    Int8, Int16, Int32 and Int64 whose signed range contains the value. *)
Definition in_signed_range (w : nat) (z : Z) : bool :=
  (- 2 ^ (8 * Z.of_nat w - 1) <=? z) && (z <=? 2 ^ (8 * Z.of_nat w - 1) - 1).

Definition int_tags : list (byte * nat) :=
  [(INT8, 1); (INT16, 2); (INT32, 4); (INT64, 8)]%nat.

Definition smallest_int_tag (z : Z) : option (byte * nat) :=
  find (fun tw => in_signed_range (snd tw) z) int_tags.

(** The number of bytes [next_tlv] reads right after a tag: the payload
    of a numeric tag, or the length field of a short or long tag; none
    for the constants. *)
Definition field_width (t : byte) : Z :=
  if Byte.eqb t INT8 || mem t SHORT_OBJ then 1
  else if Byte.eqb t INT16 then 2
  else if mem t [INT32; FLOAT] || mem t LARGE_OBJ then 4
  else if mem t [INT64; DOUBLE] then 8
  else 0.

(** What the host raises on a field that is cut short: [ord] complains
    about a string that is not one character, [unpack] about its size. *)
Definition short_field_error (t : byte) : exn :=
  if field_width t =? 1 then TypeError "ord() expected a character"
  else StructError "unpack requires a string argument of the format's length".

Definition is_end_of_stream (e : exn) : bool :=
  match e with EarlyEndOfStreamError _ _ => true | _ => false end.



Definition is_dict (v : pyobj) : bool :=
  match v with PDict _ => true | _ => false end.

(** The unit opens an unsized container: a short Array or Object tag
    with the length byte 255. *)
Definition stream_unit (tag : byte) (length : option Z) : bool :=
  mem tag STREAMS && length_is length 255.

(** The generator a streaming tag stands for. *)
Definition stream_of (tag : byte) : stream_kind :=
  if Byte.eqb tag ARRAY_S then ArrayStream else ObjectStream.







(** The floats the codec carries exactly: the binary64 numbers sent as
    Float64, and those sent as Float32 whose mantissa fits binary32 (its
    29 low bits are zero). *)
Definition exact_float (f : spec_float) : bool :=
  match f with
  | S754_finite s m e =>
    bounded 53 1024 m e
    && (if SFleb float_1_18e_38 (SFabs f) && SFleb (SFabs f) float_3_4e38
        then Zpos m mod 2 ^ 29 =? 0
        else SFleb float_2_23e_308 (SFabs f))
  | _ => false
  end.

(** [m * 2 ^ k] for a positive number. *)
Fixpoint pos_shift (k : nat) (m : positive) : positive :=
  match k with
  | O => m
  | S k' => xO (pos_shift k' m)
  end.

Definition is_unicode (v : pyobj) : bool :=
  match v with PUnicode _ => true | _ => false end.

Definition is_code_point (c : Z) : bool := (0 <=? c) && (c <? 0x110000).

(** No key of the list equals a later one. *)
Fixpoint distinct_keys (keys : list pyobj) : bool :=
  match keys with
  | [] => true
  | k :: rest => negb (existsb (pyobj_eqb k) rest) && distinct_keys rest
  end.

(** The values the codec carries exactly: [None], the booleans, the
    integers of the signed 64-bit range other than -128, the exact floats,
    the decimals that are numbers (not NaN) with a string of less than
    [2^31] bytes, text that takes fewer than 255 bytes in UTF-8, lists
    of fewer than [2^32] such values and mappings of fewer than [2^32]
    entries from distinct such texts to such values. *)
Fixpoint exact_value (v : pyobj) : bool :=
  match v with
  | PNone | PBool _ => true
  | PInt z => (- 2 ^ 63 <=? z) && (z <=? 2 ^ 63 - 1) && negb (z =? -128)
  | PFloat f => exact_float f
  | PDecimal (DecNaN _ _ _) => false
  | PDecimal d => Z.of_nat (List.length (Decimal_str d)) <=? 2 ^ 31 - 1
  | PUnicode s =>
    forallb is_code_point s && (Z.of_nat (List.length (utf8_encode s)) <? 255)
  | PList l => (Z.of_nat (List.length l) <? 2 ^ 32) && forallb exact_value l
  | PDict d =>
    (Z.of_nat (List.length d) <? 2 ^ 32)
    && forallb (fun kv => is_unicode (fst kv) && exact_value (fst kv)
                          && exact_value (snd kv)) d
    && distinct_keys (map fst d)
  | _ => false
  end.

(** Fuel that suffices to decode the encoding of a value. *)
Fixpoint fuel_need (v : pyobj) : nat :=
  match v with
  | PList l => 2 + list_sum (map (fun x => S (fuel_need x)) l)
  | PDict d =>
    2 + list_sum (map (fun kv => 2 + fuel_need (fst kv) + fuel_need (snd kv)) d)
  | _ => 1
  end%nat.

(** The bytes [bs], whatever follows them, are read by the decoder as one
    unit that is a legal member of a sized container (a key, if [v] is
    text) and decode to [v], the source being left right after them. *)
Definition decodes_to (bs : bytes) (v : pyobj) : Prop :=
  forall (an : bool) (rest : bytes),
  exists tag length value src1,
    next_tlv an (bs ++ rest) = Ok ((tag, length, value), src1)
    /\ mem tag FORBIDDEN = false
    /\ stream_unit tag length = false
    /\ (is_unicode v = true -> mem tag OBJECT_KEYS = true)
    /\ forall fuel, (fuel_need v <= fuel)%nat ->
                    call an fuel tag length value src1 = Ok (v, rest).

(** The kinds of the non-streaming rules of the encoder. *)
Definition nonstreaming_kind (v : pyobj) : bool :=
  match encoder_dispatch (type_of v) with
  | Some E_generator | Some E_dictitems | None => false
  | Some _ => true
  end.

(** Induction on objects, with the induction hypothesis for the members
    of the containers. *)
Section pyobj_nested_induction.

Variable P : pyobj -> Prop.

Hypothesis case_noop : P PNoop.
Hypothesis case_none : P PNone.
Hypothesis case_bool : forall v, P (PBool v).
Hypothesis case_int : forall z, P (PInt z).
Hypothesis case_float : forall f, P (PFloat f).
Hypothesis case_decimal : forall d, P (PDecimal d).
Hypothesis case_str : forall s, P (PStr s).
Hypothesis case_unicode : forall s, P (PUnicode s).
Hypothesis case_tuple : forall l, Forall P l -> P (PTuple l).
Hypothesis case_list : forall l, Forall P l -> P (PList l).
Hypothesis case_set : forall l, Forall P l -> P (PSet l).
Hypothesis case_frozenset : forall l, Forall P l -> P (PFrozenset l).
Hypothesis case_dict :
  forall d, Forall (fun kv => P (fst kv) /\ P (snd kv)) d -> P (PDict d).
Hypothesis case_iterator : forall k l, Forall P l -> P (PIterator k l).
Hypothesis case_dictitems :
  forall d, Forall (fun kv => P (fst kv) /\ P (snd kv)) d -> P (PDictItems d).
Hypothesis case_stream : forall k, P (PStream k).
Hypothesis case_instance : forall cls base, P base -> P (PInstance cls base).
Hypothesis case_object : forall cls, P (PObject cls).

Fixpoint pyobj_nested_ind (v : pyobj) : P v :=
  let all :=
    fix all (l : list pyobj) : Forall P l :=
      match l with
      | [] => Forall_nil P
      | x :: r => Forall_cons x (pyobj_nested_ind x) (all r)
      end in
  let all2 :=
    fix all2 (d : list (pyobj * pyobj))
      : Forall (fun kv => P (fst kv) /\ P (snd kv)) d :=
      match d with
      | [] => Forall_nil _
      | kv :: r =>
        Forall_cons kv
          (conj (pyobj_nested_ind (fst kv)) (pyobj_nested_ind (snd kv)))
          (all2 r)
      end in
  match v with
  | PNoop => case_noop
  | PNone => case_none
  | PBool x => case_bool x
  | PInt z => case_int z
  | PFloat f => case_float f
  | PDecimal d => case_decimal d
  | PStr s => case_str s
  | PUnicode s => case_unicode s
  | PTuple l => case_tuple l (all l)
  | PList l => case_list l (all l)
  | PSet l => case_set l (all l)
  | PFrozenset l => case_frozenset l (all l)
  | PDict d => case_dict d (all2 d)
  | PIterator k l => case_iterator k l (all l)
  | PDictItems d => case_dictitems d (all2 d)
  | PStream k => case_stream k
  | PInstance cls base => case_instance cls base (pyobj_nested_ind base)
  | PObject cls => case_object cls
  end.

End pyobj_nested_induction.

(** The items of a [dict] built by setting the items of [d], in order, in
    a [dict] that holds [res]. *)
Definition insert_all (res d : list (pyobj * pyobj)) : list (pyobj * pyobj) :=
  fold_left (fun acc kv => dict_setitem acc (fst kv) (snd kv)) d res.

(** A sample value:
    [{u'k': [-129, None, True, 1.5, 1e300, Decimal('1.23E+5')]}]. *)
Definition sample_value : pyobj :=
  PDict [(PUnicode [107],
          PList [PInt (-129); PNone; PBool true;
                 PFloat (S754_finite false 6755399441055744 (-52));
                 PFloat (S754_finite false 6724873095247260 944);
                 PDecimal (DecFinite false 123 3)])].

(** ** Notions used for the decimal strings *)

(** The code points of a byte string of ASCII characters. *)
Definition codes (s : bytes) : list Z := map Z_of_byte s.

Definition digit (c : Z) : Prop := 48 <= c <= 57.

(** The text stops the scan of digits: it is empty or starts with a
    character that is not a digit. *)
Definition stops (r : list Z) : Prop :=
  match r with
  | [] => True
  | c :: _ => is_digit c = false
  end.

(** The layouts of a number string: digits, an optional point followed
    by digits, an optional exponent. *)
Definition frac_text (frac : option (list Z)) : list Z :=
  match frac with Some fp => 46 :: fp | None => [] end.

Definition frac_digits (frac : option (list Z)) : list Z :=
  match frac with Some fp => fp | None => [] end.

Definition exp_text (expo : option Z) : list Z :=
  match expo with
  | Some z => codes (b "E" ++ signed_digits z)
  | None => []
  end.

Definition exp_value (expo : option Z) : Z :=
  match expo with Some z => z | None => 0 end.

(** White space *)
Definition nonspace (c : Z) : Prop := is_space c = false.

(** The characters a number string is made of. *)
Definition number_char (c : Z) : Prop := 43 <= c <= 69.

(** ** Notions used for the further properties *)

(** [rest] is what is left of the source [src] once some bytes at its
    head are read. *)
Definition suffix (rest src : bytes) : Prop := exists pre, src = pre ++ rest.

(** ... once at least one byte is read. *)
Definition proper_suffix (rest src : bytes) : Prop :=
  exists x pre, src = x :: pre ++ rest.

(** The values the decoder builds: the atoms of the format ([Noop] only
    for a decoder that keeps it, integers of 64 bits), lists and pairs
    of such values, and mappings of distinct texts to such values. *)
Fixpoint decoded (an : bool) (v : pyobj) : bool :=
  match v with
  | PNoop => an
  | PNone | PBool _ | PFloat _ | PDecimal _ | PUnicode _ => true
  | PInt z => (- 2 ^ 63 <=? z) && (z <=? 2 ^ 63 - 1)
  | PList l | PTuple l => forallb (decoded an) l
  | PDict d =>
    forallb (fun kv => is_unicode (fst kv) && decoded an (snd kv)) d
    && distinct_keys (map fst d)
  | _ => false
  end.

(** The tag and the payload of a unit as [next_tlv] returns them: no
    [Noop] unless the decoder keeps it, a 64-bit integer with the integer
    tags, a float with the float tags. *)
Definition unit_payload (an : bool) (tag : byte) (value : pyobj) : bool :=
  (negb (Byte.eqb tag NOOP) || an)
  && match decoder_dispatch tag, value with
     | Some H_int, PInt z => (- 2 ^ 63 <=? z) && (z <=? 2 ^ 63 - 1)
     | Some H_int, _ => false
     | Some H_float, PFloat _ => true
     | Some H_float, _ => false
     | _, _ => true
     end.

(** The slot of the pending key holds [None] or a text. *)
Definition key_slot (key : pyobj) : bool := is_None key || is_unicode key.

(** [[decoder.next() for _ in range(n)]]: the decoder as the iterator
    of the values of its source. *)
Fixpoint next_values (allow_noop : bool) (fuel : nat) (n : nat) (src : bytes)
  : result (list pyobj * bytes) :=
  match n with
  | O => Ok ([], src)
  | S n' =>
    '(v, src) <- decode_next allow_noop fuel src ;;
    '(vs, src) <- next_values allow_noop fuel n' src ;;
    Ok (v :: vs, src)
  end.




(** * Properties *)

(** ** Bytes and big-endian numbers *)

Lemma Z_of_byte_range (x : byte) : 0 <= Z_of_byte x < 256.
Proof.
  unfold Z_of_byte. pose proof (Byte.to_N_bounded x). lia.
Qed.

Lemma byte_of_Z_of_byte (x : byte) : byte_of_Z (Z_of_byte x) = x.
Proof.
  unfold byte_of_Z. pose proof (Z_of_byte_range x) as R.
  rewrite Z.mod_small by exact R.
  unfold Z_of_byte. rewrite N2Z.id, Byte.of_to_N. reflexivity.
Qed.

Lemma Z_of_byte_of_Z (z : Z) : Z_of_byte (byte_of_Z z) = z mod 256.
Proof.
  unfold byte_of_Z.
  pose proof (Z.mod_pos_bound z 256 ltac:(lia)) as R.
  destruct (Byte.of_N (Z.to_N (z mod 256))) as [x|] eqn:E.
  - apply Byte.to_of_N in E. unfold Z_of_byte. rewrite E. lia.
  - apply Byte.of_N_None_iff in E. lia.
Qed.

Lemma Z_of_byte_of_Z_small (z : Z) : 0 <= z < 256 -> Z_of_byte (byte_of_Z z) = z.
Proof.
  intros R. rewrite Z_of_byte_of_Z. apply Z.mod_small, R.
Qed.

Lemma byte_of_Z_mod (z : Z) : byte_of_Z (z mod 256) = byte_of_Z z.
Proof.
  unfold byte_of_Z. rewrite Z.mod_mod by lia. reflexivity.
Qed.

Lemma Z_of_byte_inj (x y : byte) : Z_of_byte x = Z_of_byte y -> x = y.
Proof.
  intros E. rewrite <- (byte_of_Z_of_byte x), <- (byte_of_Z_of_byte y), E.
  reflexivity.
Qed.

Lemma be_bytes_length (w : nat) (z : Z) : List.length (be_bytes w z) = w.
Proof.
  induction w as [|w IH]; simpl; [reflexivity | now rewrite IH].
Qed.

Lemma be_fold_acc (l : bytes) (acc : Z) :
  fold_left (fun a x => a * 256 + Z_of_byte x) l acc
  = acc * 256 ^ Z.of_nat (List.length l) + be_value l.
Proof.
  unfold be_value. revert acc.
  induction l as [|x l IH]; intros acc.
  - simpl. lia.
  - cbn [fold_left List.length]. rewrite IH, (IH (0 * 256 + _)).
    rewrite Nat2Z.inj_succ, Z.pow_succ_r by lia. ring.
Qed.

Lemma be_value_cons (x : byte) (l : bytes) :
  be_value (x :: l) = Z_of_byte x * 256 ^ Z.of_nat (List.length l) + be_value l.
Proof.
  unfold be_value at 1. cbn [fold_left]. rewrite be_fold_acc. ring.
Qed.

Lemma be_value_range (l : bytes) :
  0 <= be_value l < 256 ^ Z.of_nat (List.length l).
Proof.
  induction l as [|x l IH].
  - cbn. lia.
  - rewrite be_value_cons. cbn [List.length].
    rewrite Nat2Z.inj_succ, Z.pow_succ_r by lia.
    pose proof (Z_of_byte_range x). nia.
Qed.

(** The bytes of a number denote it modulo [256 ^ w]. *)
Lemma be_value_be_bytes (w : nat) (z : Z) :
  be_value (be_bytes w z) = z mod 256 ^ Z.of_nat w.
Proof.
  induction w as [|w IH].
  - cbn. now rewrite Z.mod_1_r.
  - cbn [be_bytes]. rewrite be_value_cons, be_bytes_length, IH, Z_of_byte_of_Z.
    rewrite Nat2Z.inj_succ, Z.pow_succ_r by lia.
    rewrite (Z.mul_comm 256), Z.rem_mul_r by lia. ring.
Qed.

(** ** The marker table *)

Lemma mem_app (t : byte) (s1 s2 : list byte) :
  mem t (s1 ++ s2) = mem t s1 || mem t s2.
Proof. apply existsb_app. Qed.

Lemma not_marker (t : byte) :
  mem t MARKERS = false ->
  Byte.eqb t NOOP = false /\ mem t NUMBERS = false /\ mem t SHORT_OBJ = false
  /\ mem t LARGE_OBJ = false /\ mem t CONSTANTS = false.
Proof.
  unfold MARKERS. rewrite !mem_app. intros H.
  apply orb_false_elim in H as [C H].
  apply orb_false_elim in H as [N H].
  apply orb_false_elim in H as [S L].
  repeat split; try assumption.
  unfold CONSTANTS, mem in C. cbn [existsb] in C.
  now destruct (Byte.eqb t NOOP).
Qed.

(** ** The TLV reader *)

Lemma read_tag_nonnoop (an : bool) (t : byte) (src : bytes) :
  Byte.eqb t NOOP = false -> read_tag an (t :: src) = Ok (t, src).
Proof. intros E. cbn [read_tag]. now rewrite E. Qed.

(** The Int8 unit on any payload byte: the statement [if value > 128]
    of [next_tlv] leaves the ordinals up to 128 as they are. *)
Lemma next_tlv_int8 (an : bool) (x : byte) (src : bytes) :
  next_tlv an (INT8 :: x :: src)
  = Ok ((INT8, None,
         PInt (if 128 <? Z_of_byte x then Z_of_byte x - 256 else Z_of_byte x)),
        src).
Proof.
  unfold next_tlv. rewrite read_tag_nonnoop by reflexivity.
  cbn. destruct src; reflexivity.
Qed.

(** C3 (the decoder at the payload byte [0x80]): the Int8 unit [B 0x80]
    decodes to [128]; the two's-complement reading of that byte is [-128]. *)
Theorem C3_int8_0x80_decodes_to_128 (an : bool) (fuel : nat) (src : bytes) :
  decode_next an (S fuel) (INT8 :: x80 :: src) = Ok (PInt 128, src)
  /\ to_signed 1 (Z_of_byte x80) = -128.
Proof.
  split; [|reflexivity].
  unfold decode_next. rewrite next_tlv_int8. reflexivity.
Qed.

(** Every other payload byte is read as two's complement. *)
Lemma int8_decodes_signed_except_0x80 (an : bool) (fuel : nat) (x : byte) (src : bytes) :
  x <> x80 ->
  decode_next an (S fuel) (INT8 :: x :: src)
  = Ok (PInt (to_signed 1 (Z_of_byte x)), src).
Proof.
  intros N. unfold decode_next. rewrite next_tlv_int8.
  cbn. do 3 f_equal. unfold to_signed. cbn.
  assert (Z_of_byte x <> 128).
  { intros E. apply N, Z_of_byte_inj. rewrite E. reflexivity. }
  destruct (128 <? Z_of_byte x) eqn:E1, (Z_of_byte x <? 128) eqn:E2; lia.
Qed.

(** C8: decoding an empty source fails with the end-of-stream error
    "nothing to decode", and decoding a source that starts with a byte
    outside the marker table fails with the marker error carrying that
    byte; [0x00] is such a byte. *)
Theorem C8_empty_source_and_unknown_marker (an : bool) (fuel : nat) :
  decode_next an fuel [] = Raise (EarlyEndOfStreamError "nothing to decode" None)
  /\ (forall (t : byte) (src : bytes),
         mem t MARKERS = false ->
         decode_next an fuel (t :: src)
         = Raise (MarkerError "invalid marker 0x%02x (%r)" t))
  /\ mem x00 MARKERS = false.
Proof.
  split; [reflexivity|]. split; [|reflexivity].
  intros t src H. apply not_marker in H.
  destruct H as (E0 & E1 & E2 & E3 & E4).
  unfold decode_next, next_tlv.
  rewrite read_tag_nonnoop by exact E0.
  cbn [bind]. now rewrite E1, E2, E3, E4.
Qed.

Lemma C8_witness :
  mem x00 MARKERS = false
  /\ decode_next false 1 [x00; x01]
     = Raise (MarkerError "invalid marker 0x%02x (%r)" x00).
Proof.
  split; [reflexivity|].
  apply (proj1 (proj2 (C8_empty_source_and_unknown_marker false 1))).
  reflexivity.
Defined.

(** ** Integers *)

Lemma chr_byte (z : Z) : 0 <= z < 256 -> chr z = Ok [byte_of_Z z].
Proof.
  intros R. unfold chr.
  destruct (Z.leb_spec 0 z), (Z.ltb_spec z 256); try lia. reflexivity.
Qed.

Lemma encode_int_smallest (z : Z) :
  encode_int z = match smallest_int_tag z with
                 | Some (tag, w) => Ok (tag :: be_bytes w z)
                 | None => encode_decimal (Decimal_of_int z)
                 end.
Proof.
  unfold encode_int, smallest_int_tag, int_tags, in_signed_range, pack,
    fmt_min, fmt_max.
  cbn [find snd fmt_width fmt_signed].
  change (8 * Z.of_nat 1 - 1) with 7. change (8 * Z.of_nat 2 - 1) with 15.
  change (8 * Z.of_nat 4 - 1) with 31. change (8 * Z.of_nat 8 - 1) with 63.
  destruct ((- 2 ^ 7 <=? z) && (z <=? 2 ^ 7 - 1)).
  - rewrite chr_byte by (apply Z.mod_pos_bound; lia).
    cbn. rewrite Z.div_1_r. now rewrite byte_of_Z_mod.
  - destruct ((- 2 ^ 15 <=? z) && (z <=? 2 ^ 15 - 1)); [reflexivity|].
    destruct ((- 2 ^ 31 <=? z) && (z <=? 2 ^ 31 - 1)); [reflexivity|].
    destruct ((- 2 ^ 63 <=? z) && (z <=? 2 ^ 63 - 1)); reflexivity.
Qed.

(** Two's complement: the bytes of a number in the signed range of the
    width read back as that number. *)
Lemma to_signed_be_bytes (w : nat) (z : Z) :
  (0 < w)%nat ->
  - 2 ^ (8 * Z.of_nat w - 1) <= z <= 2 ^ (8 * Z.of_nat w - 1) - 1 ->
  to_signed w (be_value (be_bytes w z)) = z.
Proof.
  intros W R. rewrite be_value_be_bytes. unfold to_signed.
  replace (256 ^ Z.of_nat w) with (2 ^ (8 * Z.of_nat w))
    by (rewrite Z.pow_mul_r by lia; reflexivity).
  assert (E : 2 ^ (8 * Z.of_nat w) = 2 * 2 ^ (8 * Z.of_nat w - 1)).
  { rewrite <- Z.pow_succ_r by lia. f_equal. lia. }
  set (h := 2 ^ (8 * Z.of_nat w - 1)) in *. rewrite E.
  assert (0 < h) by (apply Z.pow_pos_nonneg; lia).
  destruct (Z.ltb_spec (z mod (2 * h)) h) as [L|L].
  - destruct (Z_lt_dec z 0).
    + rewrite <- (Z.mod_add z 1 (2 * h)) in L by lia.
      rewrite Z.mod_small in L by lia. lia.
    + apply Z.mod_small. lia.
  - destruct (Z_lt_dec z 0).
    + rewrite <- (Z.mod_add z 1 (2 * h)) by lia.
      rewrite Z.mod_small by lia. lia.
    + rewrite Z.mod_small in L by lia. lia.
Qed.

Lemma smallest_int_tag_Some (z : Z) (tag : byte) (w : nat) :
  smallest_int_tag z = Some (tag, w) ->
  In (tag, w) int_tags /\ in_signed_range w z = true.
Proof.
  intros H. apply find_some in H. exact H.
Qed.

Lemma smallest_int_tag_None (z : Z) :
  smallest_int_tag z = None <-> z < - 2 ^ 63 \/ 2 ^ 63 - 1 < z.
Proof.
  unfold smallest_int_tag, int_tags, in_signed_range. cbn [find snd].
  change (8 * Z.of_nat 1 - 1) with 7. change (8 * Z.of_nat 2 - 1) with 15.
  change (8 * Z.of_nat 4 - 1) with 31. change (8 * Z.of_nat 8 - 1) with 63.
  change (2 ^ 7) with 128. change (2 ^ 15) with 32768.
  change (2 ^ 31) with 2147483648. change (2 ^ 63) with 9223372036854775808.
  repeat match goal with
         | |- context [?a <=? ?c] => destruct (Z.leb_spec a c)
         end; cbn; split; intros; try discriminate; try lia; reflexivity.
Qed.

(** The digits of a number are never the empty string. *)
Lemma N_digits_nonempty (n : N) : N_digits n <> [].
Proof.
  unfold N_digits. destruct n as [|p]; [discriminate|].
  cbn [N.to_uint]. pose proof (DecimalPos.Unsigned.to_uint_nonnil p) as H.
  destruct (Pos.to_uint p); [contradiction | discriminate ..].
Qed.

(** The string of a decimal with exponent zero: its digits. *)
Lemma Decimal_str_integer (s : bool) (c : N) :
  Decimal_str (DecFinite s c 0) = sign_prefix s ++ N_digits c.
Proof.
  unfold Decimal_str.
  pose proof (N_digits_nonempty c) as NE.
  set (ds := N_digits c) in *.
  assert (L : 1 <= Z.of_nat (List.length ds)).
  { destruct ds; [contradiction | cbn [List.length]; lia]. }
  set (n := Z.of_nat (List.length ds)) in *.
  rewrite Z.add_0_l.
  replace ((0 <=? 0) && (-6 <? n)) with true
    by (symmetry; apply andb_true_intro; split; [reflexivity | apply Z.ltb_lt; lia]).
  replace (n <=? 0) with false by (symmetry; apply Z.leb_gt; lia).
  rewrite Z.leb_refl, Z.eqb_refl, Z.sub_diag.
  cbn [Z.to_nat repeat]. now rewrite !app_nil_r.
Qed.

(** C4: [encode_int] uses the smallest of Int8, Int16, Int32 and Int64
    whose signed range contains the value, the payload being the value in
    two's complement, big-endian; 127 gives Int8 [0x7F], 128 gives Int16
    [0x00 0x80], -129 gives Int16, [2^31] gives Int64; an integer outside
    the signed 64-bit range is encoded as a high-precision number: the
    short tag [h] and a length byte, or the long tag [H] and a four-byte
    length, then the sign and the decimal digits of the integer. *)
Theorem C4_integer_width_selection :
  (forall z : Z,
      encode_int z = match smallest_int_tag z with
                     | Some (tag, w) => Ok (tag :: be_bytes w z)
                     | None => encode_decimal (Decimal_of_int z)
                     end)
  /\ (forall (z : Z) (tag : byte) (w : nat),
         smallest_int_tag z = Some (tag, w) ->
         to_signed w (be_value (be_bytes w z)) = z)
  /\ encode_int 127 = Ok [INT8; x7f]
  /\ encode_int 128 = Ok [INT16; x00; x80]
  /\ encode_int (-129) = Ok [INT16; xff; x7f]
  /\ encode_int (2 ^ 31) = Ok [INT64; x00; x00; x00; x00; x80; x00; x00; x00]
  /\ (forall z : Z,
         z < - 2 ^ 63 \/ 2 ^ 63 - 1 < z ->
         let str := sign_prefix (z <? 0) ++ N_digits (Z.to_N (Z.abs z)) in
         let len := Z.of_nat (List.length str) in
         smallest_int_tag z = None
         /\ encode_int z
            = if len <? 255 then Ok (HIDEF_S :: byte_of_Z len :: str)
              else if len <=? 2 ^ 31 - 1
                   then Ok (HIDEF_L :: be_bytes 4 len ++ str)
                   else Raise (StructError "argument out of range")).
Proof.
  split; [exact encode_int_smallest|].
  split.
  { intros z tag w H. apply smallest_int_tag_Some in H as [I R].
    unfold in_signed_range in R. apply andb_prop in R as [R1 R2].
    apply Z.leb_le in R1, R2.
    apply to_signed_be_bytes; [|lia].
    cbn [In int_tags] in I.
    destruct I as [I|[I|[I|[I|[]]]]]; inversion I; lia. }
  repeat (split; [reflexivity|]).
  intros z H. cbv zeta.
  apply smallest_int_tag_None in H. split; [exact H|].
  rewrite encode_int_smallest, H. unfold encode_decimal, Decimal_of_int.
  rewrite Decimal_str_integer.
  set (str := sign_prefix (z <? 0) ++ N_digits (Z.to_N (Z.abs z))).
  set (len := Z.of_nat (List.length str)).
  assert (P : 0 <= len) by apply Nat2Z.is_nonneg.
  destruct (Z.ltb_spec len 255).
  - now rewrite chr_byte by lia.
  - unfold pack. change (fmt_min Fmt_i) with (- 2 ^ 31).
    change (fmt_max Fmt_i) with (2 ^ 31 - 1).
    destruct (Z.leb_spec (- 2 ^ 31) len); [|lia].
    destruct (Z.leb_spec len (2 ^ 31 - 1)); reflexivity.
Qed.

Lemma C4_witness :
  smallest_int_tag (-129) = Some (INT16, 2%nat)
  /\ to_signed 2 (be_value (be_bytes 2 (-129))) = -129
  /\ encode_int (2 ^ 64)
     = Ok (HIDEF_S :: x14 :: b "18446744073709551616")
  /\ encode_int (- 2 ^ 63 - 1)
     = Ok (HIDEF_S :: x14 :: b "-9223372036854775809").
Proof.
  split; [reflexivity|]. split; [|split].
  - apply (proj1 (proj2 C4_integer_width_selection) (-129) INT16 2%nat).
    reflexivity.
  - refine (eq_trans
              (proj2 (proj2 (proj2 (proj2 (proj2 (proj2 (proj2
                 C4_integer_width_selection))))) (2 ^ 64) _)) _);
      [right; reflexivity | reflexivity].
  - refine (eq_trans
              (proj2 (proj2 (proj2 (proj2 (proj2 (proj2 (proj2
                 C4_integer_width_selection))))) (- 2 ^ 63 - 1) _)) _);
      [left; reflexivity | reflexivity].
Defined.

(** ** Text *)

(** Text of fewer than 255 bytes: the short tag, one length byte, the
    bytes. *)
Lemma encode_str_short (s : list Z) :
  Z.of_nat (List.length (utf8_encode s)) < 255 ->
  encode_str (PUnicode s)
  = Ok (STRING_S :: byte_of_Z (Z.of_nat (List.length (utf8_encode s)))
                 :: utf8_encode s).
Proof.
  intros L. unfold encode_str. cbn [bind].
  destruct (Z.ltb_spec (Z.of_nat (List.length (utf8_encode s))) 255); [|lia].
  rewrite chr_byte by lia. reflexivity.
Qed.

(** Text of 255 bytes or more: the long tag, then the Int32 marker, then
    the four length bytes, then the bytes. *)
Lemma encode_str_long (s : list Z) :
  255 <= Z.of_nat (List.length (utf8_encode s)) <= 2 ^ 31 - 1 ->
  encode_str (PUnicode s)
  = Ok (STRING_L :: INT32
          :: be_bytes 4 (Z.of_nat (List.length (utf8_encode s)))
          ++ utf8_encode s).
Proof.
  intros L. unfold encode_str. cbn [bind].
  destruct (Z.ltb_spec (Z.of_nat (List.length (utf8_encode s))) 255); [lia|].
  unfold pack.
  change (fmt_min Fmt_i) with (- 2 ^ 31). change (fmt_max Fmt_i) with (2 ^ 31 - 1).
  destruct (Z.leb_spec (- 2 ^ 31) (Z.of_nat (List.length (utf8_encode s))));
    [|lia].
  destruct (Z.leb_spec (Z.of_nat (List.length (utf8_encode s))) (2 ^ 31 - 1));
    [|lia].
  reflexivity.
Qed.

(** C2 (the encoder at a text of 255 bytes): the long tag is followed by
    the Int32 marker byte and only then by the four length bytes; the
    module's own reader takes that marker for the first length byte and
    does not read the text back. *)
Theorem C2_long_text_has_extra_marker (an : bool) (fuel : nat) :
  encode_next None fuel (PUnicode (repeat 97 255))
  = Ok (STRING_L :: INT32 :: [x00; x00; x00; xff] ++ repeat "a"%byte 255)
  /\ decode_next an (S fuel)
       (STRING_L :: INT32 :: [x00; x00; x00; xff] ++ repeat "a"%byte 255)
     = Raise utf8_error.
Proof.
  split.
  - destruct fuel; vm_compute; reflexivity.
  - vm_compute. reflexivity.
Qed.

(** ** Dispatch on the exact type *)

Lemma encode_next_unfold (default : option (pyobj -> result pyobj))
    (fuel : nat) (obj : pyobj) :
  encode_next default fuel obj
  = match encoder_dispatch (type_of obj) with
    | Some h =>
      match h, obj with
      | E_noop, _ => encode_noop obj
      | E_none, _ => encode_none obj
      | E_bool, PBool v => encode_bool v
      | E_int, PInt z => encode_int z
      | E_float, PFloat f => encode_float f
      | E_str, _ => encode_str obj
      | E_decimal, PDecimal d => encode_decimal d
      | E_sequence, PTuple l | E_sequence, PList l
      | E_sequence, PSet l | E_sequence, PFrozenset l =>
        join (encode_sequence (encode_next default fuel) l)
      | E_dict, PDict d => join (encode_dict (encode_next default fuel) d)
      | E_generator, PIterator _ l =>
        join (encode_generator (encode_next default fuel) l)
      | E_generator, PStream _ =>
        Raise (Unmodelled "a generator bound to a decoder")
      | E_dictitems, PDictItems d =>
        join (encode_dictitems (encode_next default fuel) d)
      | _, _ => Raise (TypeError "handler applied to an object of another type")
      end
    | None =>
      obj' <- _default default obj ;;
      match fuel with
      | O => OutOfFuel
      | S fuel' => encode_next default fuel' obj'
      end
    end.
Proof.
  destruct fuel; destruct obj; reflexivity.
Qed.

(** The encoder looks up the exact type of the object.  An object whose
    type has no entry (any instance of a user class, subclasses of the
    supported types included) reaches no handler and, with no default
    transform, ends in [default], which formats its message with the
    object and raises [EncodeError]; a [bool] is encoded by the Bool
    handler as the one byte [F] or [T], never as an integer. *)
Lemma exact_type_dispatch (fuel : nat) :
  (forall obj : pyobj,
      encoder_dispatch (type_of obj) = None ->
      encode_next None fuel obj
      = (arg <- format_r obj ;; Raise (EncodeError "unable to encode %r" arg)))
  /\ (forall obj : pyobj,
         encoder_dispatch (type_of obj) = None -> tuple_items obj = None ->
         encode_next None fuel obj
         = Raise (EncodeError "unable to encode %r" obj))
  /\ (forall (cls : string) (base : pyobj),
         encoder_dispatch (type_of (PInstance cls base)) = None)
  /\ (forall (default : option (pyobj -> result pyobj)) (v : bool),
         encoder_dispatch (type_of (PBool v)) = Some E_bool
         /\ encode_next default fuel (PBool v) = Ok [if v then TRUE else FALSE]
         /\ encode_next default fuel (PBool v)
            <> encode_next default fuel (PInt (if v then 1 else 0))).
Proof.
  assert (D : forall obj : pyobj,
             encoder_dispatch (type_of obj) = None ->
             encode_next None fuel obj
             = (arg <- format_r obj ;;
                Raise (EncodeError "unable to encode %r" arg))).
  { intros obj H. rewrite encode_next_unfold, H.
    unfold _default, Draft8Encoder_default.
    destruct (format_r obj); reflexivity. }
  split; [exact D|]. split; [|split].
  - intros obj H T. rewrite D by exact H. unfold format_r. now rewrite T.
  - reflexivity.
  - intros default v. split; [reflexivity|].
    rewrite !encode_next_unfold. destruct v; cbn; split;
      try reflexivity; discriminate.
Qed.

(** C10 on an instance of a subclass of [tuple] with two items, such as
    a named tuple [Point(1, 2)]: its type has no entry and no default
    transform is set, but the message of [default] is formatted with the
    object itself, which is taken for the tuple of the arguments of the
    format, and [TypeError] is raised before [EncodeError] is built. *)
Theorem C10_tuple_subclass_raises_TypeError (fuel : nat) :
  encoder_dispatch (type_of (PInstance "Point" (PTuple [PInt 1; PInt 2])))
  = None
  /\ encode_next None fuel (PInstance "Point" (PTuple [PInt 1; PInt 2]))
     = Raise (TypeError
                "not all arguments converted during string formatting").
Proof.
  split; [reflexivity|].
  now rewrite (proj1 (exact_type_dispatch fuel)).
Qed.

(** ** The object stream *)

(** End of stream while a key with a true truth value is pending. *)
Lemma object_stream_eos_pending (an : bool) (fuel : nat) (key : pyobj) (src : bytes) :
  truthy key = true ->
  object_stream an (S fuel) key (EOS :: src)
  = Raise (EarlyEndOfStreamError "value missed for key %r" (Some key)).
Proof.
  intros T. cbn. now rewrite T.
Qed.

(** End of stream while the slot is empty, or holds a key whose truth
    value is false, as the empty string has. *)
Lemma object_stream_eos_falsy (an : bool) (fuel : nat) (key : pyobj) (src : bytes) :
  truthy key = false ->
  object_stream an (S fuel) key (EOS :: src) = Ok (StopIteration, key, src).
Proof.
  intros T. cbn. now rewrite T.
Qed.

(** C6 (the object stream at the pending key [u'']): in
    [o 0xFF, s 0x00, E] the empty string is read as a key and EOS follows
    with no value; the stream ends normally, as it does for
    [o 0xFF, E], where a non-empty pending key raises the end-of-stream
    error. *)
Theorem C6_empty_key_pending_at_eos (an : bool) (fuel : nat) :
  decode_and_list an (4 + fuel) [OBJECT_S; xff; STRING_S; x00; EOS]
  = Ok (PList [], [])
  /\ object_stream an (S fuel) (PUnicode []) [EOS]
     = Ok (StopIteration, PUnicode [], [])
  /\ decode_and_list an (4 + fuel) [OBJECT_S; xff; EOS] = Ok (PList [], [])
  /\ decode_and_list an (4 + fuel) [OBJECT_S; xff; STRING_S; x01; "k"%byte; EOS]
     = Raise (EarlyEndOfStreamError "value missed for key %r"
                (Some (PUnicode [107]))).
Proof.
  repeat split; vm_compute; reflexivity.
Qed.

(** A value whose tag is not a streaming tag is yielded, with the
    pending key, as its ordinary decode result. *)
Lemma object_stream_plain_value (an : bool) (fuel : nat) (key : pyobj)
    (src : bytes) (tag : byte) (length : option Z) (value : pyobj)
    (src1 : bytes) (v : pyobj) (src2 : bytes) :
  is_None key = false ->
  next_tlv an src = Ok ((tag, length, value), src1) ->
  Byte.eqb tag NOOP = false -> Byte.eqb tag EOS = false ->
  mem tag STREAMS = false ->
  call an fuel tag length value src1 = Ok (v, src2) ->
  object_stream an (S fuel) key src
  = Ok (Yield (PTuple [key; v]), PNone, src2).
Proof.
  intros K N T1 T2 S C. cbn [object_stream].
  rewrite N. cbn [bind]. rewrite T1, T2, K. cbn [andb].
  rewrite C. cbn [bind]. now rewrite S.
Qed.

(** C7 (the object stream at a sized short Object value): the value unit
    [o 0x01, s 0x01 'k', B 0x01] decodes on its own to the mapping
    [{'k': 1}], and as the value of key ['a'] in an object stream it is
    yielded as the list of its keys. *)
Theorem C7_sized_object_value_in_object_stream (an : bool) (fuel : nat) :
  decode_next an (5 + fuel)
    [OBJECT_S; x01; STRING_S; x01; "k"%byte; INT8; x01]
  = Ok (PDict [(PUnicode [107], PInt 1)], [])
  /\ decode_and_list an (8 + fuel)
       ([OBJECT_S; xff; STRING_S; x01; "a"%byte]
        ++ [OBJECT_S; x01; STRING_S; x01; "k"%byte; INT8; x01] ++ [EOS])
     = Ok (PList [PTuple [PUnicode [97]; PList [PUnicode [107]]]], []).
Proof.
  split; vm_compute; reflexivity.
Qed.

(** ** Sources that end early *)

Lemma read_all (n : Z) (src : bytes) :
  Z.of_nat (List.length src) <= n -> read n src = (src, []).
Proof.
  revert n. induction src as [|x src IH]; intros n L; [reflexivity|].
  cbn [read List.length] in *.
  destruct (Z.leb_spec n 0); [lia|].
  rewrite IH by lia. reflexivity.
Qed.

Lemma read_app (s rest : bytes) :
  read (Z.of_nat (List.length s)) (s ++ rest) = (s, rest).
Proof.
  induction s as [|x s IH].
  - cbn. destruct rest; reflexivity.
  - cbn [List.length app read].
    destruct (Z.leb_spec (Z.of_nat (S (List.length s))) 0); [lia|].
    replace (Z.of_nat (S (List.length s)) - 1)
      with (Z.of_nat (List.length s)) by lia.
    now rewrite IH.
Qed.

Lemma mem_In (t : byte) (l : list byte) : mem t l = true -> In t l.
Proof.
  unfold mem. intros H. apply existsb_exists in H as (x & I & E).
  apply Byte.byte_dec_bl in E. now subst.
Qed.

(** The tags that are followed by a field. *)
Lemma field_width_tags (t : byte) :
  0 < field_width t ->
  In t [INT8; STRING_S; HIDEF_S; ARRAY_S; OBJECT_S; INT16; INT32; FLOAT;
        STRING_L; HIDEF_L; ARRAY_L; OBJECT_L; INT64; DOUBLE].
Proof.
  destruct t; vm_compute; intros H; try discriminate H; tauto.
Qed.

(** Evaluation of the tests of [next_tlv] on a known tag. *)
Ltac eval_tag_tests :=
  repeat match goal with
         | |- context [mem ?t ?s] =>
           let v := eval vm_compute in (mem t s) in
           change (mem t s) with v
         | |- context [Byte.eqb ?t ?u] =>
           let v := eval vm_compute in (Byte.eqb t u) in
           change (Byte.eqb t u) with v
         end;
  cbv iota; cbn [andb orb negb].

Lemma unpack_short (f : int_format) (s : bytes) :
  (List.length s < fmt_width f)%nat ->
  unpack f s
  = Raise (StructError "unpack requires a string argument of the format's length").
Proof.
  intros L. unfold unpack.
  destruct (Nat.eqb_spec (List.length s) (fmt_width f)); [lia | reflexivity].
Qed.

Lemma unpack_float_short (f : float_format) (s : bytes) :
  (List.length s < float_width f)%nat ->
  unpack_float f s
  = Raise (StructError "unpack requires a string argument of the format's length").
Proof.
  intros L. unfold unpack_float.
  destruct (Nat.eqb_spec (List.length s) (float_width f)); [lia | reflexivity].
Qed.

Lemma next_tlv_short_field (an : bool) (t : byte) (src : bytes) :
  0 < field_width t ->
  Z.of_nat (List.length src) < field_width t ->
  next_tlv an (t :: src) = Raise (short_field_error t).
Proof.
  intros W L. apply field_width_tags in W.
  cbn [In] in W.
  repeat (destruct W as [<-|W]); try contradiction;
    unfold next_tlv; rewrite read_tag_nonnoop by reflexivity;
    cbn [bind]; eval_tag_tests;
    match type of L with
    | _ < ?w => let v := eval vm_compute in w in change w with v in L
    end;
    rewrite read_all by lia;
    first [ rewrite unpack_short by (cbn; lia); reflexivity
          | rewrite unpack_float_short by (cbn; lia); reflexivity
          | destruct src; [reflexivity | cbn [List.length] in L; lia] ].
Qed.

Lemma read_one (x : byte) (src : bytes) : read 1 (x :: src) = ([x], src).
Proof. cbn. destruct src; reflexivity. Qed.

(** A short text or decimal unit whose payload is cut short. *)
Lemma next_tlv_short_text_cut (an : bool) (t n : byte) (payload : bytes) :
  In t [STRING_S; HIDEF_S] ->
  Z_of_byte n < 255 ->
  Z.of_nat (List.length payload) < Z_of_byte n ->
  next_tlv an (t :: n :: payload)
  = Ok ((t, Some (Z_of_byte n), PStr payload), []).
Proof.
  intros I N L. cbn [In] in I.
  destruct I as [<-|[<-|[]]];
    unfold next_tlv; rewrite read_tag_nonnoop by reflexivity;
    cbn [bind]; eval_tag_tests;
    rewrite read_one; cbn [ord bind];
    (destruct (Z.ltb_spec (Z_of_byte n) 255); [|lia]);
    now rewrite read_all by lia.
Qed.

(** A long text or decimal unit whose payload is cut short. *)
Lemma next_tlv_long_text_cut (an : bool) (t : byte) (n : Z) (payload : bytes) :
  In t [STRING_L; HIDEF_L] ->
  0 <= n < 2 ^ 32 ->
  Z.of_nat (List.length payload) < n ->
  next_tlv an (t :: be_bytes 4 n ++ payload)
  = Ok ((t, Some n, PStr payload), []).
Proof.
  intros I N L. cbn [In] in I.
  destruct I as [<-|[<-|[]]];
    unfold next_tlv; rewrite read_tag_nonnoop by reflexivity;
    cbn [bind]; eval_tag_tests;
    change 4 with (Z.of_nat (List.length (be_bytes 4 n))) at 1;
    rewrite read_app;
    unfold unpack; rewrite be_bytes_length; cbn [fmt_width Nat.eqb fmt_signed bind];
    rewrite be_value_be_bytes;
    change (256 ^ Z.of_nat 4) with (2 ^ 32);
    rewrite Z.mod_small by lia;
    now rewrite read_all by lia.
Qed.

(** C9, as the code has it: with no tag byte left decoding fails with the
    end-of-stream error; when the source ends inside the payload of a
    numeric tag or inside a short or long length field, decoding fails
    with the error of the host function that reads the field ([ord] or
    [unpack]), which is not the end-of-stream error, and returns no value;
    when it ends inside the declared payload of a text or decimal unit,
    the unit carries the bytes that remain. *)
Theorem C9_sources_that_end_early (an : bool) (fuel : nat) :
  decode_next an fuel [] = Raise (EarlyEndOfStreamError "nothing to decode" None)
  /\ (forall (t : byte) (src : bytes),
         0 < field_width t ->
         Z.of_nat (List.length src) < field_width t ->
         decode_next an fuel (t :: src) = Raise (short_field_error t)
         /\ is_end_of_stream (short_field_error t) = false)
  /\ (forall (t n : byte) (payload : bytes),
         In t [STRING_S; HIDEF_S] ->
         Z_of_byte n < 255 ->
         Z.of_nat (List.length payload) < Z_of_byte n ->
         next_tlv an (t :: n :: payload)
         = Ok ((t, Some (Z_of_byte n), PStr payload), []))
  /\ (forall (t : byte) (n : Z) (payload : bytes),
         In t [STRING_L; HIDEF_L] ->
         0 <= n < 2 ^ 32 ->
         Z.of_nat (List.length payload) < n ->
         next_tlv an (t :: be_bytes 4 n ++ payload)
         = Ok ((t, Some n, PStr payload), [])).
Proof.
  split; [reflexivity|]. split; [|split].
  - intros t src W L. split.
    + unfold decode_next. now rewrite next_tlv_short_field.
    + unfold short_field_error. now destruct (field_width t =? 1).
  - apply next_tlv_short_text_cut.
  - apply next_tlv_long_text_cut.
Qed.

Lemma C9_witness :
  decode_next false 1 [INT32; x00; x01]
  = Raise (StructError "unpack requires a string argument of the format's length")
  /\ next_tlv false [HIDEF_S; x03; "1"%byte]
     = Ok ((HIDEF_S, Some 3, PStr ["1"%byte]), [])
  /\ next_tlv false (STRING_L :: be_bytes 4 300 ++ ["a"%byte])
     = Ok ((STRING_L, Some 300, PStr ["a"%byte]), []).
Proof.
  pose proof (C9_sources_that_end_early false 1) as (_ & H1 & H2 & H3).
  split; [|split].
  - apply (H1 INT32 [x00; x01]); reflexivity.
  - apply (H2 HIDEF_S x03 ["1"%byte]); [cbn; tauto | reflexivity | reflexivity].
  - apply (H3 STRING_L 300 ["a"%byte]); [cbn; tauto | lia | reflexivity].
Defined.

(** C9 as stated fails: a text unit that declares five bytes and has two
    decodes to the two-character text, and an Int16 unit with one payload
    byte fails with the error of [unpack], not the end-of-stream error. *)
Lemma C9_counterexample :
  decode_next false 1 [STRING_S; x05; "a"%byte; "b"%byte]
  = Ok (PUnicode [97; 98], [])
  /\ decode_next false 1 [INT16; x00]
     = Raise (StructError "unpack requires a string argument of the format's length").
Proof.
  split; reflexivity.
Qed.


(** ** Generators do not escape into containers *)

Ltac bind_inv H :=
  match type of H with
  | bind ?r _ = Ok _ =>
    let E := fresh "E" in
    destruct r as [?|?|] eqn:E; cbn [bind] in H; [|discriminate H ..]
  end.






Lemma stream_unit_cases (tag : byte) (length : option Z) :
  stream_unit tag length = true ->
  length_is length 255 = true /\ (tag = ARRAY_S \/ tag = OBJECT_S).
Proof.
  unfold stream_unit. intros H. apply andb_prop in H as [M L].
  split; [exact L|]. apply mem_In in M. cbn in M.
  destruct M as [M|[M|[]]]; subst; auto.
Qed.













(** ** The UTF-8 codec *)

Ltac decide_test :=
  match goal with
  | |- context [?a <? ?c] =>
    first [ replace (a <? c) with true by (symmetry; apply Z.ltb_lt; lia)
          | replace (a <? c) with false by (symmetry; apply Z.ltb_ge; lia) ]
  | |- context [?a <=? ?c] =>
    first [ replace (a <=? c) with true by (symmetry; apply Z.leb_le; lia)
          | replace (a <=? c) with false by (symmetry; apply Z.leb_gt; lia) ]
  | |- context [?a =? ?c] =>
    first [ replace (a =? c) with true by (symmetry; apply Z.eqb_eq; lia)
          | replace (a =? c) with false by (symmetry; apply Z.eqb_neq; lia) ]
  end.

Ltac decide_tests := repeat decide_test; cbn [andb orb negb].

Lemma utf8_decode_char (c : Z) (tail : bytes) :
  code_point c ->
  utf8_decode (utf8_encode_char c ++ tail)
  = (cs <- utf8_decode tail ;; Ok (c :: cs)).
Proof.
  unfold code_point, utf8_encode_char. intros R.
  destruct (Z.ltb_spec c 0x80); [|destruct (Z.ltb_spec c 0x800);
                                  [|destruct (Z.ltb_spec c 0x10000)]].
  - cbn [app utf8_decode]. rewrite Z_of_byte_of_Z_small by lia.
    destruct (Z.ltb_spec c 128); [reflexivity | lia].
  - cbn [app utf8_decode].
    pose proof (Z.div_mod c 64 ltac:(lia)).
    pose proof (Z.mod_pos_bound c 64 ltac:(lia)).
    rewrite !Z_of_byte_of_Z_small by lia.
    unfold is_continuation. cbn zeta.
    decide_tests.
    replace ((192 + c / 64 - 192) * 64 + (128 + c mod 64 - 128)) with c by lia.
    reflexivity.
  - cbn [app utf8_decode].
    pose proof (Z.div_mod c 64 ltac:(lia)).
    pose proof (Z.mod_pos_bound c 64 ltac:(lia)).
    pose proof (Z.div_mod (c / 64) 64 ltac:(lia)).
    pose proof (Z.mod_pos_bound (c / 64) 64 ltac:(lia)).
    assert (c / 4096 = c / 64 / 64) by (rewrite Z.div_div by lia; reflexivity).
    rewrite !Z_of_byte_of_Z_small by lia.
    unfold is_continuation. cbn zeta.
    decide_tests;
    repeat match goal with
           | |- context [?a =? ?c] => destruct (Z.eqb_spec a c); decide_tests
           end;
    replace ((224 + c / 4096 - 224) * 4096 + (128 + (c / 64) mod 64 - 128) * 64
             + (128 + c mod 64 - 128)) with c by lia;
    reflexivity.
  - cbn [app utf8_decode].
    pose proof (Z.div_mod c 64 ltac:(lia)).
    pose proof (Z.mod_pos_bound c 64 ltac:(lia)).
    pose proof (Z.div_mod (c / 64) 64 ltac:(lia)).
    pose proof (Z.mod_pos_bound (c / 64) 64 ltac:(lia)).
    pose proof (Z.div_mod (c / 4096) 64 ltac:(lia)).
    pose proof (Z.mod_pos_bound (c / 4096) 64 ltac:(lia)).
    assert (c / 4096 = c / 64 / 64) by (rewrite Z.div_div by lia; reflexivity).
    assert (c / 262144 = c / 4096 / 64) by (rewrite Z.div_div by lia; reflexivity).
    rewrite !Z_of_byte_of_Z_small by lia.
    unfold is_continuation. cbn zeta.
    decide_tests;
    repeat match goal with
           | |- context [?a =? ?c] => destruct (Z.eqb_spec a c); decide_tests
           end;
    replace ((240 + c / 262144 - 240) * 262144
             + (128 + (c / 4096) mod 64 - 128) * 4096
             + (128 + (c / 64) mod 64 - 128) * 64
             + (128 + c mod 64 - 128)) with c by lia;
    reflexivity.
Qed.

(** Decoding the UTF-8 bytes of a string gives the string back. *)
Lemma utf8_decode_encode (s : list Z) :
  Forall code_point s -> utf8_decode (utf8_encode s) = Ok s.
Proof.
  induction 1 as [|c s C _ IH]; [reflexivity|].
  unfold utf8_encode in *. cbn [flat_map].
  rewrite utf8_decode_char by exact C. now rewrite IH.
Qed.


(** ** Decimals: the string of a number parses to the number *)



Lemma is_digit_iff (c : Z) : is_digit c = true <-> digit c.
Proof.
  unfold is_digit, digit. rewrite andb_true_iff, Z.leb_le, Z.leb_le. tauto.
Qed.

Lemma uint_bytes_digits (u : Decimal.uint) : Forall digit (codes (uint_bytes u)).
Proof.
  induction u; cbn [uint_bytes codes map]; constructor;
    (assumption || (unfold digit; cbn; lia)).
Qed.

Lemma N_digits_digits (n : N) : Forall digit (codes (N_digits n)).
Proof. apply uint_bytes_digits. Qed.

Lemma codes_nonempty (s : bytes) : s <> [] -> codes s <> [].
Proof. destruct s; [contradiction | discriminate]. Qed.

Lemma digits_value_acc (u : Decimal.uint) (acc : positive) :
  fold_left (fun a c => (a * 10 + Z.to_N (c - 48))%N)
            (codes (uint_bytes u)) (N.pos acc)
  = N.pos (Pos.of_uint_acc u acc).
Proof.
  revert acc.
  induction u; intros acc; cbn [uint_bytes codes map fold_left Pos.of_uint_acc];
    [reflexivity | fold (codes (uint_bytes u)) ..];
    match goal with
    | |- context [Z.to_N ?z] =>
      let v := eval vm_compute in (Z.to_N z) in change (Z.to_N z) with v
    end;
    match goal with
    | |- fold_left _ _ ?a = N.pos (Pos.of_uint_acc _ ?p) =>
      replace a with (N.pos p) by lia
    end;
    apply IHu.
Qed.

Lemma digits_value_uint (u : Decimal.uint) :
  digits_value (codes (uint_bytes u)) = N.of_uint u.
Proof.
  unfold digits_value, N.of_uint.
  induction u; cbn [uint_bytes codes map fold_left Pos.of_uint];
    [reflexivity | fold (codes (uint_bytes u)) ..];
    match goal with
    | |- context [Z.to_N ?z] =>
      let v := eval vm_compute in (Z.to_N z) in change (Z.to_N z) with v
    end;
    first [ exact IHu | apply (digits_value_acc u) ].
Qed.

(** The digits of a number read back as the number. *)
Lemma digits_value_N_digits (n : N) : digits_value (codes (N_digits n)) = n.
Proof.
  unfold N_digits. rewrite digits_value_uint.
  apply DecimalN.Unsigned.of_to.
Qed.

Lemma digits_value_zero (l : list Z) : digits_value (48 :: l) = digits_value l.
Proof. reflexivity. Qed.

Lemma digits_value_zeros (k : nat) (l : list Z) :
  digits_value (repeat 48 k ++ l) = digits_value l.
Proof.
  induction k as [|k IH]; [reflexivity|].
  cbn [repeat app]. now rewrite digits_value_zero.
Qed.


Lemma span_digits_app (ds r : list Z) :
  Forall digit ds -> stops r -> span_digits (ds ++ r) = (ds, r).
Proof.
  intros D S. induction D as [|c ds C _ IH].
  - destruct r as [|c r]; [reflexivity|]. cbn in *. now rewrite S.
  - cbn [app span_digits]. apply is_digit_iff in C. now rewrite C, IH.
Qed.

Lemma split_sign_digit (c : Z) (r : list Z) :
  digit c -> split_sign (c :: r) = (false, c :: r).
Proof.
  unfold digit, split_sign. intros D. decide_tests. reflexivity.
Qed.

(** The exponent suffix, as [Decimal.__str__] writes it. *)
Lemma parse_exponent_signed (z : Z) :
  parse_exponent (codes (b "E" ++ signed_digits z)) = (z, []).
Proof.
  unfold signed_digits.
  pose proof (N_digits_digits (Z.to_N (Z.abs z))) as D.
  pose proof (codes_nonempty _ (N_digits_nonempty (Z.to_N (Z.abs z)))) as NE.
  pose proof (digits_value_N_digits (Z.to_N (Z.abs z))) as V.
  unfold codes in *. rewrite !map_app.
  set (ds := map Z_of_byte (N_digits (Z.to_N (Z.abs z)))) in *.
  change (map Z_of_byte (b "E")) with [69].
  destruct (Z.ltb_spec z 0);
    change (map Z_of_byte (b "-")) with [45];
    change (map Z_of_byte (b "+")) with [43];
    cbn [app parse_exponent split_sign];
    change (lower 69 =? 101) with true; change (45 =? 45) with true;
    change (43 =? 45) with false; change (43 =? 43) with true; cbv iota;
    rewrite <- (app_nil_r ds) at 1;
    rewrite span_digits_app by (exact D || exact I);
    (destruct ds as [|d ds']; [contradiction|]);
    rewrite V; f_equal; lia.
Qed.

Lemma parse_exponent_nil : parse_exponent [] = (0, []).
Proof. reflexivity. Qed.





Lemma parse_number_layout (ip : list Z) (frac : option (list Z))
    (expo : option Z) :
  Forall digit ip -> Forall digit (frac_digits frac) -> ip <> [] ->
  parse_number (ip ++ frac_text frac ++ exp_text expo)
  = Some (digits_value (ip ++ frac_digits frac),
          exp_value expo - Z.of_nat (List.length (frac_digits frac))).
Proof.
  intros DI DF NE. unfold parse_number.
  assert (SE : stops (exp_text expo)) by (destruct expo; reflexivity).
  assert (PE : parse_exponent (exp_text expo) = (exp_value expo, [])).
  { destruct expo; [apply parse_exponent_signed | reflexivity]. }
  rewrite span_digits_app;
    [| exact DI | destruct frac; [reflexivity | exact SE] ].
  destruct frac as [fp|]; cbn [frac_text frac_digits app] in *.
  - change (46 =? 46) with true. cbv iota.
    rewrite span_digits_app by assumption. rewrite PE.
    destruct ip as [|c ip]; [contradiction | reflexivity].
  - replace (match exp_text expo with
             | [] => ([], exp_text expo)
             | c :: r => if c =? 46 then span_digits r else ([], exp_text expo)
             end) with (@nil Z, exp_text expo)
      by (destruct expo; reflexivity).
    rewrite PE. destruct ip as [|c ip]; [contradiction | reflexivity].
Qed.


Lemma lstrip_nonspace (s : list Z) : Forall nonspace s -> lstrip s = s.
Proof.
  intros [|c s' C _]; [reflexivity|]. cbn [lstrip]. now rewrite C.
Qed.

Lemma strip_nonspace (s : list Z) : Forall nonspace s -> strip s = s.
Proof.
  intros F. unfold strip. rewrite (lstrip_nonspace s F).
  rewrite lstrip_nonspace by (apply Forall_rev, F).
  apply rev_involutive.
Qed.


Lemma number_char_nonspace (c : Z) : number_char c -> nonspace c.
Proof.
  unfold number_char, nonspace, is_space. intros R. decide_tests. reflexivity.
Qed.

Lemma digit_number_char (c : Z) : digit c -> number_char c.
Proof. unfold digit, number_char. lia. Qed.

Lemma exp_text_chars (expo : option Z) : Forall number_char (exp_text expo).
Proof.
  destruct expo as [z|]; [|constructor].
  unfold exp_text, signed_digits, codes. rewrite !map_app.
  apply Forall_app; split; [|apply Forall_app; split].
  - constructor; [unfold number_char; cbn; lia | constructor].
  - destruct (z <? 0); (constructor; [unfold number_char; cbn; lia | constructor]).
  - eapply Forall_impl; [apply digit_number_char | apply N_digits_digits].
Qed.

Lemma layout_chars (sign : bool) (ip : list Z) (frac : option (list Z))
    (expo : option Z) :
  Forall digit ip -> Forall digit (frac_digits frac) ->
  Forall nonspace
    (codes (sign_prefix sign) ++ ip ++ frac_text frac ++ exp_text expo).
Proof.
  intros DI DF.
  eapply Forall_impl; [apply number_char_nonspace|].
  apply Forall_app; split;
    [|apply Forall_app; split; [|apply Forall_app; split]].
  - destruct sign; [|constructor].
    constructor; [unfold number_char; cbn; lia | constructor].
  - eapply Forall_impl; [apply digit_number_char | exact DI].
  - destruct frac as [fp|]; [|constructor]. constructor.
    + unfold number_char. lia.
    + eapply Forall_impl; [apply digit_number_char | exact DF].
  - apply exp_text_chars.
Qed.

(** Parsing a string in one of the layouts. *)
Lemma Decimal_of_text_layout (sign : bool) (ip : list Z)
    (frac : option (list Z)) (expo : option Z) :
  Forall digit ip -> Forall digit (frac_digits frac) -> ip <> [] ->
  Decimal_of_ascii
    (codes (sign_prefix sign) ++ ip ++ frac_text frac ++ exp_text expo)
  = Ok (DecFinite sign (digits_value (ip ++ frac_digits frac))
          (exp_value expo - Z.of_nat (List.length (frac_digits frac)))).
Proof.
  intros DI DF NE. unfold Decimal_of_ascii.
  rewrite strip_nonspace by now apply layout_chars.
  destruct sign; cbn [sign_prefix].
  - change (codes (b "-")) with [45]. cbn [app split_sign].
    change (45 =? 45) with true. cbv iota.
    now rewrite parse_number_layout.
  - destruct ip as [|c ip]; [contradiction|].
    cbn [codes map app]. rewrite split_sign_digit by (now inversion DI).
    change (c :: ip ++ frac_text frac ++ exp_text expo)
      with ((c :: ip) ++ frac_text frac ++ exp_text expo).
    now rewrite parse_number_layout.
Qed.

Lemma firstn_nonempty {A : Type} (k : nat) (l : list A) :
  (0 < k)%nat -> l <> [] -> firstn k l <> [].
Proof.
  intros K L. destruct k; [lia|]. destruct l; [contradiction | discriminate].
Qed.

Lemma Forall_firstn {A : Type} (P : A -> Prop) (k : nat) (l : list A) :
  Forall P l -> Forall P (firstn k l).
Proof.
  intros F. revert k. induction F; intros [|k]; cbn; constructor; auto.
Qed.

Lemma Forall_skipn {A : Type} (P : A -> Prop) (k : nat) (l : list A) :
  Forall P l -> Forall P (skipn k l).
Proof.
  intros F. revert k. induction F; intros [|k]; cbn; auto.
Qed.

Lemma Forall_zeros (k : nat) : Forall digit (repeat 48 k).
Proof.
  induction k; cbn; constructor; [unfold digit; lia | assumption].
Qed.

(** The string of a finite decimal is in one of the layouts, and the
    layout denotes the decimal. *)
Lemma Decimal_str_layout (s : bool) (c : N) (e : Z) :
  exists (ip : list Z) (frac : option (list Z)) (expo : option Z),
    codes (Decimal_str (DecFinite s c e))
    = codes (sign_prefix s) ++ ip ++ frac_text frac ++ exp_text expo
    /\ Forall digit ip /\ Forall digit (frac_digits frac) /\ ip <> []
    /\ digits_value (ip ++ frac_digits frac) = c
    /\ exp_value expo - Z.of_nat (List.length (frac_digits frac)) = e.
Proof.
  unfold Decimal_str.
  pose proof (N_digits_digits c) as D.
  pose proof (codes_nonempty _ (N_digits_nonempty c)) as NE.
  pose proof (digits_value_N_digits c) as V.
  assert (L : List.length (N_digits c) = List.length (codes (N_digits c)))
    by (unfold codes; now rewrite length_map).
  rewrite L. clear L.
  assert (N1 : 1 <= Z.of_nat (List.length (codes (N_digits c)))).
  { destruct (codes (N_digits c)); [contradiction | cbn [List.length]; lia]. }
  set (n := Z.of_nat (List.length (codes (N_digits c)))) in *.
  assert (Sci : e + n <> 1 ->
    exists ip frac expo,
      codes
        (let '(intpart, fracpart) :=
           if 1 <=? 0 then
             (b "0", b "." ++ repeat "0"%byte (Z.to_nat (- (1))) ++ N_digits c)
           else if n <=? 1 then
             (N_digits c ++ repeat "0"%byte (Z.to_nat (1 - n)), [])
           else
             (firstn (Z.to_nat 1) (N_digits c),
              b "." ++ skipn (Z.to_nat 1) (N_digits c)) in
         sign_prefix s ++ intpart ++ fracpart
         ++ (if e + n =? 1 then [] else b "E" ++ signed_digits (e + n - 1)))
      = codes (sign_prefix s) ++ ip ++ frac_text frac ++ exp_text expo
      /\ Forall digit ip /\ Forall digit (frac_digits frac) /\ ip <> []
      /\ digits_value (ip ++ frac_digits frac) = c
      /\ exp_value expo - Z.of_nat (List.length (frac_digits frac)) = e).
  { intros E1. destruct (Z.eqb_spec (e + n) 1); [lia|].
    change (1 <=? 0) with false. cbv iota.
    destruct (Z.leb_spec n 1) as [Q|Q];
      unfold codes in *;
      rewrite ?map_app, ?map_repeat, <- ?firstn_map, <- ?skipn_map;
      set (dz := map Z_of_byte (N_digits c)) in *.
    - replace (Z.to_nat (1 - n)) with 0%nat by lia.
      cbn [repeat map]. rewrite app_nil_r.
      exists dz, None, (Some (e + n - 1)).
      split; [reflexivity|]. split; [exact D|]. split; [constructor|].
      split; [exact NE|]. cbn [frac_digits exp_value List.length].
      rewrite app_nil_r. split; [exact V | lia].
    - exists (firstn (Z.to_nat 1) dz), (Some (skipn (Z.to_nat 1) dz)),
        (Some (e + n - 1)).
      split; [reflexivity|]. split; [now apply Forall_firstn|].
      split; [now apply Forall_skipn|].
      split; [apply firstn_nonempty; [lia | exact NE]|].
      cbn [frac_digits exp_value]. rewrite firstn_skipn, length_skipn.
      split; [exact V | lia]. }
  destruct (Z.leb_spec e 0) as [E0|E0];
    [destruct (Z.ltb_spec (-6) (e + n)) as [E6|E6]|]; cbn [andb];
    [| apply Sci; lia | apply Sci; lia].
  (* plain notation *)
  rewrite Z.eqb_refl.
  destruct (Z.leb_spec (e + n) 0) as [P|P];
    [|destruct (Z.leb_spec n (e + n)) as [Q|Q]];
    unfold codes in *;
    rewrite ?map_app, ?map_repeat, <- ?firstn_map, <- ?skipn_map;
    set (dz := map Z_of_byte (N_digits c)) in *.
  - exists [48], (Some (repeat 48 (Z.to_nat (- (e + n))) ++ dz)), None.
    split; [reflexivity|].
    split; [repeat constructor; unfold digit; lia|].
    split; [apply Forall_app; split; [apply Forall_zeros | exact D]|].
    split; [discriminate|].
    cbn [frac_digits exp_value app].
    rewrite digits_value_zero, digits_value_zeros, length_app, repeat_length.
    split; [exact V | lia].
  - assert (e = 0) by lia. subst e.
    replace (Z.to_nat (0 + n - n)) with 0%nat by lia.
    cbn [repeat map]. rewrite app_nil_r.
    exists dz, None, None.
    split; [reflexivity|]. split; [exact D|]. split; [constructor|].
    split; [exact NE|]. cbn [frac_digits exp_value List.length].
    rewrite app_nil_r. split; [exact V | lia].
  - exists (firstn (Z.to_nat (e + n)) dz),
      (Some (skipn (Z.to_nat (e + n)) dz)), None.
    split; [reflexivity|]. split; [now apply Forall_firstn|].
    split; [now apply Forall_skipn|].
    split; [apply firstn_nonempty; [lia | exact NE]|].
    cbn [frac_digits exp_value]. rewrite firstn_skipn, length_skipn.
    split; [exact V | lia].
Qed.

(** The string of a finite decimal parses to the decimal. *)
Lemma Decimal_str_parses_finite (s : bool) (c : N) (e : Z) :
  Decimal_of_ascii (codes (Decimal_str (DecFinite s c e)))
  = Ok (DecFinite s c e).
Proof.
  destruct (Decimal_str_layout s c e)
    as (ip & frac & expo & T & DI & DF & NE & V & X).
  rewrite T, Decimal_of_text_layout by assumption.
  now rewrite V, X.
Qed.

(** The string of a number is made of ASCII characters. *)
Lemma Decimal_str_ascii (d : Decimal) :
  (forall sign signaling diag, d <> DecNaN sign signaling diag) ->
  Forall (fun c => 0 <= c < 128) (codes (Decimal_str d)).
Proof.
  intros N. destruct d as [s c e | [|] | s g p].
  - destruct (Decimal_str_layout s c e)
      as (ip & frac & expo & T & DI & DF & _).
    rewrite T.
    assert (NC : forall l, Forall number_char l ->
                           Forall (fun c => 0 <= c < 128) l).
    { intros l. apply Forall_impl. unfold number_char. lia. }
    assert (DC : forall l, Forall digit l -> Forall number_char l).
    { intros l. apply Forall_impl, digit_number_char. }
    apply NC.
    apply Forall_app; split;
      [|apply Forall_app; split; [|apply Forall_app; split]].
    + destruct s; [|constructor].
      constructor; [unfold number_char; cbn; lia | constructor].
    + now apply DC.
    + destruct frac as [fp|]; [|constructor].
      constructor; [unfold number_char; lia | now apply DC].
    + apply exp_text_chars.
  - vm_compute. repeat constructor; intros; discriminate.
  - vm_compute. repeat constructor; intros; discriminate.
  - now destruct (N s g p).
Qed.

(** The decimals that are numbers: all but the NaNs. *)
Lemma Decimal_str_parses (d : Decimal) :
  (forall sign signaling diag, d <> DecNaN sign signaling diag) ->
  Decimal_of_text (codes (Decimal_str d)) = Ok d.
Proof.
  intros N. unfold Decimal_of_text.
  assert (A : forallb (fun c => (0 <=? c) && (c <? 128))
                (codes (Decimal_str d)) = true).
  { apply forallb_forall. intros c I.
    pose proof (Decimal_str_ascii d N) as F. rewrite Forall_forall in F.
    specialize (F c I).
    apply andb_true_intro; split; [apply Z.leb_le | apply Z.ltb_lt]; lia. }
  rewrite A. destruct d as [s c e | [|] | s g p].
  - apply Decimal_str_parses_finite.
  - reflexivity.
  - reflexivity.
  - now destruct (N s g p).
Qed.

Lemma utf8_decode_ascii (s : bytes) :
  Forall (fun c => 0 <= c < 128) (codes s) -> utf8_decode s = Ok (codes s).
Proof.
  induction s as [|x s IH]; intros F; [reflexivity|].
  cbn [codes map] in F. inversion F as [|c l Hx Hs]; subst.
  cbn [utf8_decode codes map].
  destruct (Z.ltb_spec (Z_of_byte x) 128); [|lia].
  fold (codes s). now rewrite IH.
Qed.

(** ** Floats: the bytes of a number unpack to the number *)

Lemma digits2_pos_bounds (m : positive) :
  2 ^ (Zpos (digits2_pos m) - 1) <= Zpos m < 2 ^ Zpos (digits2_pos m).
Proof.
  induction m as [m IH|m IH|].
  - cbn [digits2_pos]. rewrite Pos2Z.inj_succ.
    replace (Z.succ (Zpos (digits2_pos m)) - 1)
      with (Z.succ (Zpos (digits2_pos m) - 1)) by lia.
    rewrite !Z.pow_succ_r by lia. lia.
  - cbn [digits2_pos]. rewrite Pos2Z.inj_succ.
    replace (Z.succ (Zpos (digits2_pos m)) - 1)
      with (Z.succ (Zpos (digits2_pos m) - 1)) by lia.
    rewrite !Z.pow_succ_r by lia. lia.
  - cbn. lia.
Qed.

(** A number in canonical form is left as it is by the rounding to its
    own format. *)
Lemma binary_round_aux_canonical (prec emax : Z) (s : bool) (m : positive) (e : Z) :
  bounded prec emax m e = true ->
  binary_round_aux prec emax s (Zpos m) e loc_Exact = S754_finite s m e.
Proof.
  unfold bounded, canonical_mantissa. intros B.
  apply andb_prop in B as [C E]. apply Z.eqb_eq in C.
  unfold binary_round_aux, shr_fexp. cbn [Zdigits2 shr_record_of_loc].
  rewrite C, Z.sub_diag. cbn [shr shr_m loc_of_shr_record round_nearest_even].
  cbn [Zdigits2 shr_record_of_loc]. rewrite C, Z.sub_diag.
  cbn [shr shr_m]. now rewrite E.
Qed.

Lemma binary_round_canonical (prec emax : Z) (s : bool) (m : positive) (e : Z) :
  bounded prec emax m e = true ->
  binary_round prec emax s m e = S754_finite s m e.
Proof.
  intros B. unfold binary_round, shl_align.
  pose proof B as B'. unfold bounded, canonical_mantissa in B'.
  apply andb_prop in B' as [C _]. apply Z.eqb_eq in C.
  rewrite C, Z.sub_diag. now apply binary_round_aux_canonical.
Qed.

(** What [bounded] says of a binary64 number. *)
Lemma bounded64 (m : positive) (e : Z) :
  bounded 53 1024 m e = true ->
  Zpos m < 2 ^ 53 /\ -1074 <= e <= 971
  /\ (-1074 < e -> 2 ^ 52 <= Zpos m).
Proof.
  unfold bounded, canonical_mantissa, fexp, emin. intros B.
  apply andb_prop in B as [C E]. apply Z.eqb_eq in C. apply Z.leb_le in E.
  pose proof (digits2_pos_bounds m) as [D1 D2].
  set (d := Zpos (digits2_pos m)) in *.
  assert (d <= 53 /\ -1074 <= e /\ (-1074 < e -> d = 53)) as (Hd & He & Hn)
    by lia.
  split; [|split; [lia|]].
  - eapply Z.lt_le_trans; [exact D2|]. apply Z.pow_le_mono_r; lia.
  - intros N. rewrite (Hn N) in D1. exact D1.
Qed.

(** Comparison with a positive constant. *)
Lemma SFleb_finite (m1 : positive) (e1 : Z) (m2 : positive) (e2 : Z) :
  SFleb (S754_finite false m1 e1) (S754_finite false m2 e2) = true ->
  e1 < e2 \/ (e1 = e2 /\ Zpos m1 <= Zpos m2).
Proof.
  unfold SFleb, SFcompare.
  change (PosDef.Pos.compare_cont Eq m1 m2) with (Pos.compare m1 m2).
  destruct (Z.compare_spec e1 e2) as [E|E|E].
  - destruct (Pos.compare_spec m1 m2) as [M|M|M]; intros H;
      try discriminate H; right; split; trivial; lia.
  - intros _. now left.
  - discriminate.
Qed.

(** The bit pattern of a normal number of a format reads back as the
    number, and fits the width of the format. *)
Lemma bits_float_bits (f : float_format) (s : bool) (m : positive) (e : Z) :
  2 ^ (float_prec f - 1) <= Zpos m < 2 ^ float_prec f ->
  1 <= e - emin (float_prec f) (float_emax f) + 1 <= 2 ^ float_expbits f - 2 ->
  bits_float f (float_bits f (S754_finite s m e)) = S754_finite s m e
  /\ 0 <= float_bits f (S754_finite s m e) < 256 ^ Z.of_nat (float_width f).
Proof.
  intros M E. unfold float_bits, bits_float.
  destruct (Z.leb_spec (2 ^ (float_prec f - 1)) (Zpos m)) as [_|]; [|lia].
  set (biased := e - emin (float_prec f) (float_emax f) + 1) in *.
  set (frac := Zpos m - 2 ^ (float_prec f - 1)).
  set (sb := if s then 2 ^ (float_prec f - 1 + float_expbits f) else 0).
  assert (F : 0 <= frac < 2 ^ (float_prec f - 1)).
  { unfold frac. split; [lia|].
    replace (2 ^ float_prec f) with (2 * 2 ^ (float_prec f - 1)) in M; [lia|].
    rewrite <- Z.pow_succ_r by (destruct f; cbn; lia). f_equal. lia. }
  assert (R : Zpos m = frac + 2 ^ (float_prec f - 1)) by (unfold frac; lia).
  assert (X : e = biased + emin (float_prec f) (float_emax f) - 1)
    by (unfold biased; lia).
  clearbody biased frac. 
  assert (S : (((sb + biased * 2 ^ (float_prec f - 1) + frac)
                / 2 ^ (float_prec f - 1 + float_expbits f)) mod 2 =? 1) = s
              /\ ((sb + biased * 2 ^ (float_prec f - 1) + frac)
                  / 2 ^ (float_prec f - 1)) mod 2 ^ float_expbits f = biased
              /\ (sb + biased * 2 ^ (float_prec f - 1) + frac)
                 mod 2 ^ (float_prec f - 1) = frac
              /\ 0 <= sb + biased * 2 ^ (float_prec f - 1) + frac
                 < 256 ^ Z.of_nat (float_width f)).
  { unfold sb. clear sb R X M. revert E F.
    destruct f, s;
      unfold float_prec, float_expbits, float_width;
      repeat match goal with
             | |- context [2 ^ ?x] =>
               let v := eval vm_compute in (2 ^ x) in change (2 ^ x) with v
             | |- context [256 ^ ?x] =>
               let v := eval vm_compute in (256 ^ x) in change (256 ^ x) with v
             end;
      intros E F;
      (split; [apply Z.eqb_eq || apply Z.eqb_neq|split; [|split]]);
      Z.div_mod_to_equations; lia. }
  destruct S as (S1 & S2 & S3 & S4).
  split; [|exact S4].
  rewrite S1, S2, S3.
  destruct (Z.eqb_spec biased 0); [lia|].
  destruct (Z.eqb_spec biased (2 ^ float_expbits f - 1)); [lia|].
  rewrite <- R, <- X. reflexivity.
Qed.

Lemma digits2_pos_exact (m : positive) (d : Z) :
  2 ^ (d - 1) <= Zpos m < 2 ^ d -> 0 < d -> Zpos (digits2_pos m) = d.
Proof.
  intros [L U] D. pose proof (digits2_pos_bounds m) as [L' U'].
  assert (Zpos (digits2_pos m) - 1 < d).
  { apply (Z.pow_lt_mono_r_iff 2); lia. }
  assert (d - 1 < Zpos (digits2_pos m)).
  { apply (Z.pow_lt_mono_r_iff 2); lia. }
  lia.
Qed.

(** Numbers whose low [k] bits are zero. *)

Lemma low_bits_zero (k : nat) (m : positive) :
  Zpos m mod 2 ^ Z.of_nat k = 0 -> exists m', m = pos_shift k m'.
Proof.
  revert m. induction k as [|k IH]; intros m H.
  - now exists m.
  - rewrite Nat2Z.inj_succ, Z.pow_succ_r in H by lia.
    assert (Q : 0 < 2 ^ Z.of_nat k) by (apply Z.pow_pos_nonneg; lia).
    rewrite Z.rem_mul_r in H by lia.
    destruct m as [p|p|].
    + exfalso. rewrite Pos2Z.inj_xI in H.
      replace ((2 * Zpos p + 1) mod 2) with 1 in H.
      * pose proof (Z.mod_pos_bound ((2 * Zpos p + 1) / 2) (2 ^ Z.of_nat k) Q).
        lia.
      * symmetry. rewrite Z.add_comm, Z.mul_comm, Z.mod_add by lia. reflexivity.
    + rewrite Pos2Z.inj_xO in H.
      replace ((2 * Zpos p) mod 2) with 0 in H
        by (symmetry; rewrite Z.mul_comm; apply Z.mod_mul; lia).
      replace (2 * Zpos p / 2) with (Zpos p) in H
        by (symmetry; rewrite Z.mul_comm; apply Z.div_mul; lia).
      destruct (IH p) as (m' & ->); [lia|].
      now exists m'.
    + exfalso. change (1 mod 2) with 1 in H.
      pose proof (Z.mod_pos_bound (1 / 2) (2 ^ Z.of_nat k) Q). lia.
Qed.

(** Rounding to binary32 a binary64 number whose 29 low mantissa bits are
    zero, and widening the result back. *)
Lemma float_round_narrow (s : bool) (m' : positive) (e : Z) :
  Zpos (digits2_pos m') = 24 ->
  -178 <= e <= 75 ->
  float_round Fmt_f (S754_finite s (pos_shift 29 m') e)
  = S754_finite s m' (e + 29).
Proof.
  intros D E.
  assert (D53 : Zpos (digits2_pos (pos_shift 29 m')) = 53).
  { cbn [pos_shift digits2_pos]. rewrite !Pos2Z.inj_succ. lia. }
  unfold float_round, float_prec, float_emax, binary_round, shl_align.
  rewrite D53. unfold fexp, emin.
  replace (Z.max (53 + e - 24) (3 - 128 - 24) - e) with 29 by lia.
  cbv iota. unfold binary_round_aux, shr_fexp.
  cbn [Zdigits2 shr_record_of_loc]. rewrite D53. unfold fexp, emin.
  replace (Z.max (53 + e - 24) (3 - 128 - 24) - e) with 29 by lia.
  cbn [shr pos_shift iter_pos shr_1 shr_m shr_r shr_s orb loc_of_shr_record
       round_nearest_even].
  cbn [Zdigits2 shr_record_of_loc]. rewrite D.
  replace (Z.max (24 + (e + 29) - 24) (3 - 128 - 24) - (e + 29)) with 0 by lia.
  cbn [shr shr_m].
  destruct (Z.leb_spec (e + 29) (128 - 24)); [reflexivity | lia].
Qed.

Lemma float_round_widen (s : bool) (m' : positive) (e' : Z) :
  Zpos (digits2_pos m') = 24 ->
  -149 <= e' <= 104 ->
  float_round Fmt_d (S754_finite s m' e')
  = S754_finite s (pos_shift 29 m') (e' - 29).
Proof.
  intros D E.
  assert (D53 : Zpos (digits2_pos (pos_shift 29 m')) = 53).
  { cbn [pos_shift digits2_pos]. rewrite !Pos2Z.inj_succ. lia. }
  unfold float_round, float_prec, float_emax, binary_round, shl_align.
  rewrite D. unfold fexp at 1 2, emin.
  replace (Z.max (24 + e' - 53) (3 - 1024 - 53) - e') with (-29) by lia.
  replace (Z.max (24 + e' - 53) (3 - 1024 - 53)) with (e' - 29) by lia.
  cbv iota.
  change (Pos.iter xO m' 29) with (pos_shift 29 m').
  apply binary_round_aux_canonical.
  unfold bounded, canonical_mantissa. rewrite D53. unfold fexp, emin.
  apply andb_true_intro. split; [apply Z.eqb_eq | apply Z.leb_le]; lia.
Qed.

(** An exact float is sent as Float32 or Float64, and the payload
    unpacks to it. *)
Lemma encode_float_exact (f : spec_float) :
  exact_float f = true ->
  exists (fmt : float_format) (tag : byte) (bs : bytes),
    In (fmt, tag) [(Fmt_f, FLOAT); (Fmt_d, DOUBLE)]
    /\ encode_float f = Ok (tag :: bs)
    /\ List.length bs = float_width fmt
    /\ unpack_float fmt bs = Ok f.
Proof.
  destruct f as [| | |s m e]; try discriminate.
  unfold exact_float. intros H. apply andb_prop in H as [B H].
  pose proof (bounded64 m e B) as (M53 & E & Nrm).
  unfold encode_float. cbn [SFabs] in *.
  destruct (SFleb float_1_18e_38 (S754_finite false m e)
            && SFleb (S754_finite false m e) float_3_4e38) eqn:T.
  - (* Float32 *)
    apply andb_prop in T as [T1 T2].
    apply SFleb_finite in T1, T2. apply Z.eqb_eq in H.
    destruct (low_bits_zero 29 m H) as (m' & ->).
    assert (M52 : 2 ^ 52 <= Zpos (pos_shift 29 m')) by (apply Nrm; lia).
    assert (D53 : Zpos (digits2_pos (pos_shift 29 m')) = 53)
      by (apply digits2_pos_exact; lia).
    assert (D : Zpos (digits2_pos m') = 24).
    { cbn [pos_shift digits2_pos] in D53. rewrite !Pos2Z.inj_succ in D53. lia. }
    pose proof (digits2_pos_bounds m') as Bm. rewrite D in Bm.
    destruct (bits_float_bits Fmt_f s m' (e + 29)) as [BF BR];
      [exact Bm | cbn; lia |].
    exists Fmt_f, FLOAT,
      (be_bytes 4 (float_bits Fmt_f (S754_finite s m' (e + 29)))).
    split; [cbn; tauto|]. split; [|split].
    + unfold pack_float. rewrite float_round_narrow by (assumption || lia).
      reflexivity.
    + apply be_bytes_length.
    + unfold unpack_float. rewrite be_bytes_length, be_value_be_bytes.
      cbn [float_width Nat.eqb]. change (Z.of_nat 4) with (Z.of_nat (float_width Fmt_f)).
      rewrite Z.mod_small by exact BR. rewrite BF.
      rewrite float_round_widen by (assumption || lia).
      do 2 f_equal. lia.
  - (* Float64 *)
    rewrite H. apply SFleb_finite in H.
    assert (M52 : 2 ^ 52 <= Zpos m).
    { destruct H as [H|[_ H]]; [apply Nrm; lia|].
      eapply Z.le_trans; [|exact H]. cbn. lia. }
    destruct (bits_float_bits Fmt_d s m e) as [BF BR];
      [cbn [float_prec]; lia | cbn; lia |].
    exists Fmt_d, DOUBLE, (be_bytes 8 (float_bits Fmt_d (S754_finite s m e))).
    split; [cbn; tauto|]. split; [|split].
    + change (SFltb (S754_finite false m e) float_1_8e308) with true.
      cbn [andb]. unfold pack_float, float_round.
      change (float_prec Fmt_d) with 53. change (float_emax Fmt_d) with 1024.
      rewrite binary_round_canonical by exact B. reflexivity.
    + apply be_bytes_length.
    + unfold unpack_float. rewrite be_bytes_length, be_value_be_bytes.
      cbn [float_width Nat.eqb]. change (Z.of_nat 8) with (Z.of_nat (float_width Fmt_d)).
      rewrite Z.mod_small by exact BR. rewrite BF.
      unfold float_round.
      change (float_prec Fmt_d) with 53. change (float_emax Fmt_d) with 1024.
      now rewrite binary_round_canonical by exact B.
Qed.

(** ** Round trips *)

(** A known tag at the head of the source. *)
Ltac read_unit :=
  unfold next_tlv; rewrite read_tag_nonnoop by reflexivity;
  cbn [bind]; eval_tag_tests.

Lemma decodes_to_none : decodes_to [NULL] PNone.
Proof.
  intros an rest. exists NULL, None, PNone, rest.
  split; [reflexivity|]. repeat (split; [reflexivity || discriminate|]).
  intros [|fuel] F; [cbn in F; lia | reflexivity].
Qed.

Lemma decodes_to_bool (v : bool) :
  decodes_to [if v then TRUE else FALSE] (PBool v).
Proof.
  intros an rest. exists (if v then TRUE else FALSE), None, PNone, rest.
  destruct v; (split; [reflexivity|]);
    repeat (split; [reflexivity || discriminate|]);
    (intros [|fuel] F; [cbn in F; lia | reflexivity]).
Qed.

Lemma decodes_to_int8 (z : Z) :
  -128 < z <= 127 -> decodes_to [INT8; byte_of_Z (z mod 256)] (PInt z).
Proof.
  intros R an rest.
  exists INT8, None, (PInt z), rest.
  split.
  - cbn [app]. rewrite next_tlv_int8. rewrite Z_of_byte_of_Z, Z.mod_mod by lia.
    do 4 f_equal.
    destruct (Z_lt_dec z 0).
    + rewrite <- (Z.mod_add z 1 256) by lia.
      rewrite Z.mod_small by lia.
      destruct (Z.ltb_spec 128 (z + 1 * 256)); lia.
    + rewrite Z.mod_small by lia.
      destruct (Z.ltb_spec 128 z); lia.
  - repeat (split; [reflexivity || discriminate|]).
    intros [|fuel] F; [cbn in F; lia | reflexivity].
Qed.

Lemma decodes_to_wide_int (f : int_format) (tag : byte) (z : Z) :
  In (f, tag) [(Fmt_h, INT16); (Fmt_i, INT32); (Fmt_q, INT64)] ->
  fmt_min f <= z <= fmt_max f ->
  decodes_to (tag :: be_bytes (fmt_width f) z) (PInt z).
Proof.
  intros I R an rest.
  exists tag, None, (PInt z), rest.
  assert (U : unpack f (be_bytes (fmt_width f) z) = Ok z).
  { unfold unpack. rewrite be_bytes_length, Nat.eqb_refl.
    cbn [In] in I.
    destruct I as [I|[I|[I|[]]]]; inversion I; subst; cbn [fmt_signed];
      f_equal; apply to_signed_be_bytes; cbn; try lia;
      unfold fmt_min, fmt_max in R; cbn in R; lia. }
  cbn [In] in I.
  destruct I as [I|[I|[I|[]]]]; inversion I; subst; clear I;
    (split;
     [ cbn [app]; read_unit;
       match goal with
       | |- context [read ?n ?s] =>
         change n with (Z.of_nat (List.length (be_bytes (Z.to_nat n) z)))
       end;
       rewrite read_app; cbn [Z.to_nat Pos.to_nat Pos.iter_op Nat.add];
       first [ change (be_bytes 2 z) with (be_bytes (fmt_width Fmt_h) z)
             | change (be_bytes 4 z) with (be_bytes (fmt_width Fmt_i) z)
             | change (be_bytes 8 z) with (be_bytes (fmt_width Fmt_q) z) ];
       rewrite U; reflexivity
     | repeat (split; [reflexivity || discriminate|]);
       intros [|fuel] F; [cbn in F; lia | reflexivity] ]).
Qed.

Lemma decodes_to_int (z : Z) (bs : bytes) :
  exact_value (PInt z) = true ->
  encode_int z = Ok bs ->
  decodes_to bs (PInt z).
Proof.
  cbn [exact_value]. intros V E.
  apply andb_prop in V as [V N]. apply andb_prop in V as [V1 V2].
  apply Z.leb_le in V1, V2. apply negb_true_iff, Z.eqb_neq in N.
  rewrite encode_int_smallest in E.
  destruct (smallest_int_tag z) as [[tag w]|] eqn:S.
  - inversion E; subst; clear E.
    apply smallest_int_tag_Some in S as [I R].
    unfold in_signed_range in R. apply andb_prop in R as [R1 R2].
    apply Z.leb_le in R1, R2.
    cbn [In int_tags] in I.
    destruct I as [I|[I|[I|[I|[]]]]]; inversion I; subst; clear I.
    + cbn [be_bytes]. cbn in R1, R2.
      change (256 ^ Z.of_nat 0) with 1. rewrite Z.div_1_r, <- byte_of_Z_mod.
      apply decodes_to_int8. lia.
    + apply (decodes_to_wide_int Fmt_h); [cbn; tauto|].
      unfold fmt_min, fmt_max. cbn in *. lia.
    + apply (decodes_to_wide_int Fmt_i); [cbn; tauto|].
      unfold fmt_min, fmt_max. cbn in *. lia.
    + apply (decodes_to_wide_int Fmt_q); [cbn; tauto|].
      unfold fmt_min, fmt_max. cbn in *. lia.
  - apply smallest_int_tag_None in S. lia.
Qed.

Lemma forallb_code_points (s : list Z) :
  forallb is_code_point s = true -> Forall code_point s.
Proof.
  intros H. apply Forall_forall. intros c I.
  rewrite forallb_forall in H. specialize (H c I).
  unfold is_code_point in H. apply andb_prop in H as [H1 H2].
  apply Z.leb_le in H1. apply Z.ltb_lt in H2. split; assumption.
Qed.

Lemma decodes_to_unicode (s : list Z) (bs : bytes) :
  exact_value (PUnicode s) = true ->
  encode_str (PUnicode s) = Ok bs ->
  decodes_to bs (PUnicode s).
Proof.
  cbn [exact_value]. intros V E.
  apply andb_prop in V as [C L]. apply Z.ltb_lt in L.
  apply forallb_code_points in C.
  rewrite encode_str_short in E by exact L. inversion E; subst; clear E.
  intros an rest.
  exists STRING_S, (Some (Z.of_nat (List.length (utf8_encode s)))),
    (PStr (utf8_encode s)), rest.
  split.
  - cbn [app]. read_unit. rewrite read_one. cbn [ord bind].
    rewrite Z_of_byte_of_Z_small by lia.
    destruct (Z.ltb_spec (Z.of_nat (List.length (utf8_encode s))) 255); [|lia].
    now rewrite read_app.
  - repeat (split; [reflexivity || discriminate|]).
    intros [|fuel] F; [cbn in F; lia|].
    cbn [call]. change (decoder_dispatch STRING_S) with (Some H_string).
    cbv iota. unfold decode_string, str_decode.
    rewrite utf8_decode_encode by exact C. reflexivity.
Qed.

Lemma decodes_to_float (f : spec_float) (bs : bytes) :
  exact_float f = true ->
  encode_float f = Ok bs ->
  decodes_to bs (PFloat f).
Proof.
  intros X E.
  destruct (encode_float_exact f X) as (fmt & tag & bs' & I & E' & L & U).
  rewrite E' in E. inversion E; subst; clear E.
  intros an rest. exists tag, None, (PFloat f), rest.
  cbn [In] in I.
  destruct I as [I|[I|[]]]; inversion I; subst; clear I;
    (split;
     [ cbn [app]; read_unit;
       match goal with
       | |- context [read ?n ?s] =>
         replace n with (Z.of_nat (List.length bs')) by (rewrite L; reflexivity)
       end;
       rewrite read_app, U; reflexivity
     | repeat (split; [reflexivity || discriminate|]);
       intros [|fuel] F; [cbn in F; lia | reflexivity] ]).
Qed.

Lemma encode_decimal_ok (d : Decimal) :
  Z.of_nat (List.length (Decimal_str d)) <= 2 ^ 31 - 1 ->
  exists bs, encode_decimal d = Ok bs.
Proof.
  intros L. unfold encode_decimal.
  destruct (Z.ltb_spec (Z.of_nat (List.length (Decimal_str d))) 255).
  - rewrite chr_byte by lia. eexists. reflexivity.
  - unfold pack. change (fmt_min Fmt_i) with (- 2 ^ 31).
    change (fmt_max Fmt_i) with (2 ^ 31 - 1).
    destruct (Z.leb_spec (- 2 ^ 31) (Z.of_nat (List.length (Decimal_str d))));
      [|lia].
    destruct (Z.leb_spec (Z.of_nat (List.length (Decimal_str d))) (2 ^ 31 - 1));
      [|lia].
    eexists. reflexivity.
Qed.

Lemma decodes_to_decimal (d : Decimal) (bs : bytes) :
  exact_value (PDecimal d) = true ->
  encode_decimal d = Ok bs ->
  decodes_to bs (PDecimal d).
Proof.
  intros V E.
  assert (N : forall sign signaling diag, d <> DecNaN sign signaling diag).
  { intros s g p ->. discriminate V. }
  assert (L : Z.of_nat (List.length (Decimal_str d)) <= 2 ^ 31 - 1).
  { destruct d; [apply Z.leb_le, V .. | discriminate V]. }
  pose proof (Decimal_str_parses d N) as P.
  pose proof (utf8_decode_ascii _ (Decimal_str_ascii d N)) as A.
  assert (C : forall an fuel tag length rest,
             (1 <= fuel)%nat -> decoder_dispatch tag = Some H_hidef ->
             call an fuel tag length (PStr (Decimal_str d)) rest
             = Ok (PDecimal d, rest)).
  { intros an [|fuel] tag length rest F T; [lia|].
    cbn [call]. rewrite T. unfold decode_hidef, str_decode.
    rewrite A. cbn [bind]. now rewrite P. }
  unfold encode_decimal in E.
  set (str := Decimal_str d) in *. set (n := Z.of_nat (List.length str)) in *.
  intros an rest.
  destruct (Z.ltb_spec n 255) as [S|S].
  - rewrite chr_byte in E by lia. inversion E; subst; clear E.
    exists HIDEF_S, (Some n), (PStr str), rest.
    split.
    + cbn [app]. read_unit. rewrite read_one. cbn [ord bind].
      rewrite Z_of_byte_of_Z_small by lia.
      destruct (Z.ltb_spec n 255); [|lia].
      unfold n. now rewrite read_app.
    + repeat (split; [reflexivity || discriminate|]).
      intros fuel F. apply C; [exact F | reflexivity].
  - unfold pack in E. change (fmt_min Fmt_i) with (- 2 ^ 31) in E.
    change (fmt_max Fmt_i) with (2 ^ 31 - 1) in E.
    destruct (Z.leb_spec (- 2 ^ 31) n); [|lia].
    destruct (Z.leb_spec n (2 ^ 31 - 1)); [|lia].
    cbn [andb bind] in E. change (fmt_width Fmt_i) with 4%nat in E.
    assert (Hbs : bs = HIDEF_L :: be_bytes 4 n ++ str) by congruence.
    subst bs. clear E.
    exists HIDEF_L, (Some n), (PStr str), rest.
    split.
    + cbn [app]. read_unit. rewrite <- app_assoc.
      change 4 with (Z.of_nat (List.length (be_bytes 4 n))) at 1.
      rewrite read_app. unfold unpack. rewrite be_bytes_length.
      cbn [fmt_width Nat.eqb fmt_signed bind].
      rewrite be_value_be_bytes. change (256 ^ Z.of_nat 4) with (2 ^ 32).
      rewrite Z.mod_small by lia.
      unfold n. now rewrite read_app.
    + repeat (split; [reflexivity || discriminate|]).
      intros fuel F. apply C; [exact F | reflexivity].
Qed.

(** *** Containers *)

Lemma join_map_ok (enc : pyobj -> result bytes) (l : list pyobj)
    (bss : list bytes) :
  Forall2 (fun x bs => enc x = Ok bs) l bss ->
  join (map enc l) = Ok (List.concat bss).
Proof.
  induction 1 as [|x bs l bss E _ IH]; [reflexivity|].
  cbn [map join List.concat]. rewrite E, IH. reflexivity.
Qed.

Lemma join_pairs_ok (enc : pyobj -> result bytes) (d : list (pyobj * pyobj))
    (ps : list (bytes * bytes)) :
  Forall2 (fun kv p => enc (fst kv) = Ok (fst p) /\ enc (snd kv) = Ok (snd p))
          d ps ->
  join (flat_map (fun kv => [enc (fst kv); enc (snd kv)]) d)
  = Ok (List.concat (map (fun p => fst p ++ snd p) ps)).
Proof.
  induction 1 as [|kv p d ps [E1 E2] _ IH]; [reflexivity|].
  cbn [flat_map app join map List.concat]. rewrite E1, E2, IH. cbn [bind].
  now rewrite app_assoc.
Qed.

(** The header of a sized container and how it is read back. *)
Lemma container_header (tag_s tag_l : byte) (n : Z) :
  In (tag_s, tag_l) [(ARRAY_S, ARRAY_L); (OBJECT_S, OBJECT_L)] ->
  0 <= n < 2 ^ 32 ->
  exists (tag : byte) (hd : bytes),
    (if n <? 255 then size <- chr n ;; Ok (tag_s :: size)
     else size <- pack Fmt_I n ;; Ok (tag_l :: size)) = Ok hd
    /\ (tag = tag_s \/ tag = tag_l)
    /\ (Byte.eqb tag tag_s && length_is (Some n) 255) = false
    /\ stream_unit tag (Some n) = false
    /\ forall (an : bool) (src : bytes),
         next_tlv an (hd ++ src) = Ok ((tag, Some n, PNone), src).
Proof.
  intros I R.
  destruct (Z.ltb_spec n 255) as [L|L].
  - exists tag_s, [tag_s; byte_of_Z n].
    rewrite chr_byte by lia. split; [reflexivity|]. split; [now left|].
    assert (N : length_is (Some n) 255 = false)
      by (cbn; apply Z.eqb_neq; lia).
    split; [now rewrite N, andb_false_r|].
    split; [unfold stream_unit; now rewrite N, andb_false_r|].
    intros an src. cbn [In] in I.
    destruct I as [I|[I|[]]]; inversion I; subst; clear I;
      cbn [app]; read_unit; rewrite read_one; cbn [ord bind];
      now rewrite Z_of_byte_of_Z_small by lia.
  - exists tag_l, (tag_l :: be_bytes 4 n).
    unfold pack. change (fmt_min Fmt_I) with 0.
    change (fmt_max Fmt_I) with (2 ^ 32 - 1).
    destruct (Z.leb_spec 0 n); [|lia].
    destruct (Z.leb_spec n (2 ^ 32 - 1)); [|lia].
    split; [reflexivity|]. split; [now right|].
    cbn [In] in I.
    destruct I as [I|[I|[]]]; inversion I; subst; clear I;
      (split; [reflexivity|]); (split; [reflexivity|]);
      intros an src; cbn [app]; read_unit;
      change 4 with (Z.of_nat (List.length (be_bytes 4 n))) at 1;
      rewrite read_app; unfold unpack; rewrite be_bytes_length;
      cbn [fmt_width Nat.eqb fmt_signed bind];
      rewrite be_value_be_bytes; change (256 ^ Z.of_nat 4) with (2 ^ 32);
      now rewrite Z.mod_small by lia.
Qed.

Lemma list_sum_cons (a : nat) (l : list nat) :
  list_sum (a :: l) = (a + list_sum l)%nat.
Proof. reflexivity. Qed.

(** The loop of [decode_array] on the encodings of the items. *)
Lemma decode_array_loop_items (an : bool) (items : list pyobj)
    (bss : list bytes) :
  Forall2 (fun x bs => decodes_to bs x) items bss ->
  forall (fuel : nat) (res : list pyobj) (rest : bytes),
    (1 + list_sum (map (fun x => S (fuel_need x)) items) <= fuel)%nat ->
    decode_array_loop an fuel (Z.of_nat (List.length items)) res
      (List.concat bss ++ rest)
    = Ok (PList (res ++ items), rest).
Proof.
  induction 1 as [|x bs items bss D _ IH]; intros fuel res rest F.
  - destruct fuel as [|fuel]; [cbn in F; lia|].
    cbn. now rewrite app_nil_r.
  - destruct fuel as [|fuel]; [cbn in F; lia|].
    cbn [map] in F. rewrite list_sum_cons in F.
    cbn [decode_array_loop List.length].
    destruct (Z.leb_spec (Z.of_nat (S (List.length items))) 0); [lia|].
    cbn [List.concat]. rewrite <- app_assoc.
    destruct (D an (List.concat bss ++ rest))
      as (tag & length & value & src1 & N & FB & SU & _ & C).
    rewrite N. cbn [bind]. rewrite FB.
    rewrite C by lia. cbn [bind].
    fold (stream_unit tag length). rewrite SU. cbn [bind].
    replace (Z.of_nat (S (List.length items)) - 1)
      with (Z.of_nat (List.length items)) by lia.
    rewrite IH by lia. now rewrite <- app_assoc.
Qed.

Lemma is_unicode_not_None (k : pyobj) : is_unicode k = true -> is_None k = false.
Proof. destruct k; (reflexivity || discriminate). Qed.

(** The loop of [decode_object] on the encodings of the keys and values. *)
Lemma decode_object_loop_items (an : bool) (d : list (pyobj * pyobj))
    (ps : list (bytes * bytes)) :
  Forall2 (fun kv p => is_unicode (fst kv) = true
                       /\ decodes_to (fst p) (fst kv)
                       /\ decodes_to (snd p) (snd kv)) d ps ->
  forall (fuel : nat) (res : list (pyobj * pyobj)) (rest : bytes),
    (1 + list_sum (map (fun kv => 2 + fuel_need (fst kv) + fuel_need (snd kv)) d)
     <= fuel)%nat ->
    decode_object_loop an fuel (Z.of_nat (List.length d) * 2) PNone res
      (List.concat (map (fun p => fst p ++ snd p) ps) ++ rest)
    = Ok (PDict (insert_all res d), rest).
Proof.
  induction 1 as [|[k v] [kb vb] d ps (U & Dk & Dv) _ IH];
    intros fuel res rest F.
  - destruct fuel as [|fuel]; [cbn in F; lia|]. reflexivity.
  - cbn [fst snd] in *.
    destruct fuel as [|[|fuel]]; [cbn in F; lia | cbn in F; lia |].
    cbn [map] in F. rewrite list_sum_cons in F. cbn [fst snd] in F.
    cbn [decode_object_loop List.length].
    destruct (Z.leb_spec (Z.of_nat (S (List.length d)) * 2) 0); [lia|].
    cbn [map List.concat fst snd]. rewrite <- !app_assoc.
    destruct (Dk an (vb ++ List.concat (map (fun p => fst p ++ snd p) ps) ++ rest))
      as (tag & length & value & src1 & N & FB & SU & OK & C).
    rewrite N. cbn [bind]. rewrite FB.
    cbn [is_None andb]. rewrite (OK U). cbn [negb].
    rewrite C by lia. cbn [bind].
    destruct (Z.leb_spec (Z.of_nat (S (List.length d)) * 2 - 1) 0); [lia|].
    destruct (Dv an (List.concat (map (fun p => fst p ++ snd p) ps) ++ rest))
      as (tag' & length' & value' & src1' & N' & FB' & SU' & _ & C').
    rewrite N'. cbn [bind]. rewrite FB'.
    rewrite (is_unicode_not_None k U). cbn [andb].
    rewrite C' by lia. cbn [bind].
    fold (stream_unit tag' length'). rewrite SU'. cbn [bind].
    replace (Z.of_nat (S (List.length d)) * 2 - 1 - 1)
      with (Z.of_nat (List.length d) * 2) by lia.
    rewrite IH by lia. reflexivity.
Qed.

Lemma distinct_keys_before (l r : list pyobj) (k : pyobj) :
  distinct_keys (l ++ k :: r) = true ->
  forall k', In k' l -> pyobj_eqb k' k = false.
Proof.
  induction l as [|x l IH]; intros D k' I; [destruct I|].
  cbn [app distinct_keys] in D. apply andb_prop in D as [D1 D2].
  destruct I as [<-|I]; [|now apply IH].
  apply negb_true_iff in D1. rewrite existsb_app in D1.
  apply orb_false_elim in D1 as [_ D1]. cbn [existsb] in D1.
  now apply orb_false_elim in D1 as [D1 _].
Qed.

Lemma dict_setitem_fresh (res : list (pyobj * pyobj)) (k v : pyobj) :
  (forall k', In k' (map fst res) -> pyobj_eqb k' k = false) ->
  dict_setitem res k v = res ++ [(k, v)].
Proof.
  induction res as [|[k' v'] res IH]; intros H; [reflexivity|].
  cbn [dict_setitem app]. rewrite (H k') by (cbn; now left).
  rewrite IH; [reflexivity|]. intros k'' I. apply H. cbn. now right.
Qed.

(** Setting items with distinct keys, none of them in the [dict] yet,
    appends them in order. *)
Lemma insert_all_distinct (d res : list (pyobj * pyobj)) :
  distinct_keys (map fst res ++ map fst d) = true ->
  insert_all res d = res ++ d.
Proof.
  revert res. induction d as [|[k v] d IH]; intros res D.
  - cbn. now rewrite app_nil_r.
  - unfold insert_all in *. cbn [fold_left fst snd map] in *.
    rewrite dict_setitem_fresh
      by (eapply distinct_keys_before; exact D).
    rewrite IH.
    + now rewrite <- app_assoc.
    + rewrite map_app, <- app_assoc. exact D.
Qed.

Lemma collect_items (enc : pyobj -> result bytes) (l : list pyobj) :
  Forall (fun x => exact_value x = true ->
                   exists bs, enc x = Ok bs /\ decodes_to bs x) l ->
  forallb exact_value l = true ->
  exists bss, Forall2 (fun x bs => enc x = Ok bs) l bss
              /\ Forall2 (fun x bs => decodes_to bs x) l bss.
Proof.
  induction 1 as [|x l Hx _ IH]; intros V.
  - exists []. split; constructor.
  - cbn [forallb] in V. apply andb_prop in V as [Vx Vl].
    destruct (Hx Vx) as (bs & E & D). destruct (IH Vl) as (bss & Es & Ds).
    exists (bs :: bss). split; constructor; assumption.
Qed.

Lemma collect_pairs (enc : pyobj -> result bytes) (d : list (pyobj * pyobj)) :
  Forall (fun kv =>
            (exact_value (fst kv) = true ->
             exists bs, enc (fst kv) = Ok bs /\ decodes_to bs (fst kv))
            /\ (exact_value (snd kv) = true ->
                exists bs, enc (snd kv) = Ok bs /\ decodes_to bs (snd kv))) d ->
  forallb (fun kv => is_unicode (fst kv) && exact_value (fst kv)
                     && exact_value (snd kv)) d = true ->
  exists ps,
    Forall2 (fun kv p => enc (fst kv) = Ok (fst p) /\ enc (snd kv) = Ok (snd p))
            d ps
    /\ Forall2 (fun kv p => is_unicode (fst kv) = true
                            /\ decodes_to (fst p) (fst kv)
                            /\ decodes_to (snd p) (snd kv)) d ps.
Proof.
  induction 1 as [|kv d [Hk Hv] _ IH]; intros V.
  - exists []. split; constructor.
  - cbn [forallb] in V. apply andb_prop in V as [Vx Vd].
    apply andb_prop in Vx as [Vx Vv]. apply andb_prop in Vx as [U Vk].
    destruct (Hk Vk) as (kb & Ek & Dk). destruct (Hv Vv) as (vb & Ev & Dv).
    destruct (IH Vd) as (ps & Es & Ds).
    exists ((kb, vb) :: ps). split; constructor; auto.
Qed.

Lemma decodes_to_list (l : list pyobj) (tag : byte) (hd : bytes)
    (bss : list bytes) :
  (tag = ARRAY_S \/ tag = ARRAY_L) ->
  (Byte.eqb tag ARRAY_S && length_is (Some (Z.of_nat (List.length l))) 255)
  = false ->
  stream_unit tag (Some (Z.of_nat (List.length l))) = false ->
  (forall an src,
      next_tlv an (hd ++ src)
      = Ok ((tag, Some (Z.of_nat (List.length l)), PNone), src)) ->
  Forall2 (fun x bs => decodes_to bs x) l bss ->
  decodes_to (hd ++ List.concat bss) (PList l).
Proof.
  intros T NS SU N D an rest.
  exists tag, (Some (Z.of_nat (List.length l))), PNone,
    (List.concat bss ++ rest).
  split; [rewrite <- app_assoc; apply N|].
  split; [destruct T as [-> | ->]; reflexivity|].
  split; [exact SU|]. split; [discriminate|].
  intros [|fuel] F; [cbn in F; lia|].
  cbn [call].
  replace (decoder_dispatch tag) with (Some H_array)
    by (destruct T as [-> | ->]; reflexivity).
  cbv iota. unfold decode_array. rewrite NS. cbn [range bind].
  cbn [fuel_need] in F.
  rewrite (decode_array_loop_items an l bss D) by lia. reflexivity.
Qed.

Lemma decodes_to_dict (d : list (pyobj * pyobj)) (tag : byte) (hd : bytes)
    (ps : list (bytes * bytes)) :
  (tag = OBJECT_S \/ tag = OBJECT_L) ->
  (Byte.eqb tag OBJECT_S && length_is (Some (Z.of_nat (List.length d))) 255)
  = false ->
  stream_unit tag (Some (Z.of_nat (List.length d))) = false ->
  (forall an src,
      next_tlv an (hd ++ src)
      = Ok ((tag, Some (Z.of_nat (List.length d)), PNone), src)) ->
  distinct_keys (map fst d) = true ->
  Forall2 (fun kv p => is_unicode (fst kv) = true
                       /\ decodes_to (fst p) (fst kv)
                       /\ decodes_to (snd p) (snd kv)) d ps ->
  decodes_to (hd ++ List.concat (map (fun p => fst p ++ snd p) ps)) (PDict d).
Proof.
  intros T NS SU N K D an rest.
  exists tag, (Some (Z.of_nat (List.length d))), PNone,
    (List.concat (map (fun p => fst p ++ snd p) ps) ++ rest).
  split; [rewrite <- app_assoc; apply N|].
  split; [destruct T as [-> | ->]; reflexivity|].
  split; [exact SU|]. split; [discriminate|].
  intros [|fuel] F; [cbn in F; lia|].
  cbn [call].
  replace (decoder_dispatch tag) with (Some H_object)
    by (destruct T as [-> | ->]; reflexivity).
  cbv iota. unfold decode_object. rewrite NS. cbn [option_map range bind].
  cbn [fuel_need] in F.
  rewrite (decode_object_loop_items an d ps D) by lia.
  now rewrite (insert_all_distinct d []).
Qed.

(** Every exact value is encoded, and its encoding decodes to it. *)
Lemma exact_value_round_trip (default : option (pyobj -> result pyobj))
    (fuel_e : nat) (v : pyobj) :
  exact_value v = true ->
  exists bs, encode_next default fuel_e v = Ok bs /\ decodes_to bs v.
Proof.
  induction v as [ | | x | z | f | d0 | | s | | l IH | | | d IH | | | | | ]
    using pyobj_nested_ind;
    intros V; try discriminate V; rewrite encode_next_unfold.
  - exists [NULL]. split; [reflexivity | apply decodes_to_none].
  - exists [if x then TRUE else FALSE].
    split; [destruct x; reflexivity | apply decodes_to_bool].
  - assert (R : - 2 ^ 63 <= z <= 2 ^ 63 - 1).
    { cbn [exact_value] in V. apply andb_prop in V as [V _].
      apply andb_prop in V as [V1 V2]. apply Z.leb_le in V1, V2. lia. }
    cbn [type_of].
    destruct (Z.leb_spec (- 2 ^ 63) z); [|lia].
    destruct (Z.leb_spec z (2 ^ 63 - 1)); [|lia].
    cbn [andb encoder_dispatch].
    destruct (encode_int z) as [bs| |] eqn:E.
    + exists bs. split; [reflexivity | now apply decodes_to_int].
    + rewrite encode_int_smallest in E.
      destruct (smallest_int_tag z) as [[tag w]|] eqn:S; [discriminate E|].
      apply smallest_int_tag_None in S. lia.
    + rewrite encode_int_smallest in E.
      destruct (smallest_int_tag z) as [[tag w]|] eqn:S; [discriminate E|].
      apply smallest_int_tag_None in S. lia.
  - cbn [type_of encoder_dispatch].
    destruct (encode_float_exact f V) as (fmt & tag & bs & _ & E & _).
    exists (tag :: bs). split; [exact E | now apply decodes_to_float].
  - cbn [type_of encoder_dispatch].
    assert (L : Z.of_nat (List.length (Decimal_str d0)) <= 2 ^ 31 - 1)
      by (destruct d0; [apply Z.leb_le, V .. | discriminate V]).
    destruct (encode_decimal_ok d0 L) as (bs & E).
    exists bs. split; [exact E | now apply decodes_to_decimal].
  - cbn [type_of encoder_dispatch].
    assert (L : Z.of_nat (List.length (utf8_encode s)) < 255).
    { cbn [exact_value] in V. apply andb_prop in V as [_ L].
      now apply Z.ltb_lt in L. }
    exists (STRING_S :: byte_of_Z (Z.of_nat (List.length (utf8_encode s)))
                     :: utf8_encode s).
    split; [now apply encode_str_short|].
    apply decodes_to_unicode; [exact V | now apply encode_str_short].
  - cbn [exact_value] in V. apply andb_prop in V as [L V].
    apply Z.ltb_lt in L.
    destruct (collect_items _ l IH V) as (bss & Es & Ds).
    destruct (container_header ARRAY_S ARRAY_L (Z.of_nat (List.length l)))
      as (tag & hd & H & T & NS & SU & N); [cbn; tauto | lia |].
    exists (hd ++ List.concat bss). split.
    + cbn [type_of encoder_dispatch]. unfold encode_sequence.
      cbn [join]. rewrite H. cbn [bind].
      now rewrite (join_map_ok _ l bss Es).
    + now apply (decodes_to_list l tag).
  - cbn [exact_value] in V. apply andb_prop in V as [V K].
    apply andb_prop in V as [L V]. apply Z.ltb_lt in L.
    destruct (collect_pairs _ d IH V) as (ps & Es & Ds).
    destruct (container_header OBJECT_S OBJECT_L (Z.of_nat (List.length d)))
      as (tag & hd & H & T & NS & SU & N); [cbn; tauto | lia |].
    exists (hd ++ List.concat (map (fun p => fst p ++ snd p) ps)). split.
    + cbn [type_of encoder_dispatch]. unfold encode_dict.
      cbn [join]. rewrite H. cbn [bind].
      now rewrite (join_pairs_ok _ d ps Es).
    + now apply (decodes_to_dict d tag).
Qed.

(** C1, as the code has it: every exact value (see [exact_value]: built
    from [None], booleans, 64-bit integers other than -128, floats sent
    without loss, decimals that are numbers, short text, lists, and
    mappings with distinct short text keys) is encoded, and decoding the
    bytes gives the value back, whatever the decoder's Noop option and
    whatever follows the bytes in the source. *)
Theorem C1_exact_values_round_trip (default : option (pyobj -> result pyobj))
    (fuel_e : nat) (v : pyobj) :
  exact_value v = true ->
  exists bs,
    encode_next default fuel_e v = Ok bs
    /\ forall (an : bool) (fuel : nat) (rest : bytes),
         (fuel_need v <= fuel)%nat ->
         decode_next an fuel (bs ++ rest) = Ok (v, rest).
Proof.
  intros V.
  destruct (exact_value_round_trip default fuel_e v V) as (bs & E & D).
  exists bs. split; [exact E|].
  intros an fuel rest F.
  destruct (D an rest) as (tag & length & value & src1 & N & _ & _ & _ & C).
  unfold decode_next. rewrite N. cbn [bind]. now apply C.
Qed.

Lemma C1_witness :
  exact_value sample_value = true
  /\ exists bs,
      encode_next None 0 sample_value = Ok bs
      /\ forall (an : bool) (fuel : nat) (rest : bytes),
           (fuel_need sample_value <= fuel)%nat ->
           decode_next an fuel (bs ++ rest) = Ok (sample_value, rest).
Proof.
  split; [reflexivity|].
  apply (C1_exact_values_round_trip None 0). reflexivity.
Defined.

(** C1 as stated fails: a float is of a kind with a non-streaming rule,
    and positive infinity is encoded as the Null tag, which decodes to
    [None]. *)
Lemma C1_counterexample :
  nonstreaming_kind (PFloat float_inf) = true
  /\ encode_next None 0 (PFloat float_inf) = Ok [NULL]
  /\ (forall (an : bool) (fuel : nat),
         decode_next an (S fuel) [NULL] = Ok (PNone, []))
  /\ PNone <> PFloat float_inf.
Proof.
  repeat split; try reflexivity. discriminate.
Qed.

(** ** Examples of the specification *)

(** [a 0xFF, B 0x01, B 0x02, E] is a lazy sequence that lists as
    [[1, 2]]. *)
Example array_stream_1_2 (an : bool) :
  decode_next an 5 [ARRAY_S; xff; INT8; x01; INT8; x02; EOS]
  = Ok (PStream ArrayStream, [INT8; x01; INT8; x02; EOS])
  /\ decode_and_list an 5 [ARRAY_S; xff; INT8; x01; INT8; x02; EOS]
     = Ok (PList [PInt 1; PInt 2], []).
Proof. split; reflexivity. Qed.

(** A sized Object whose first unit is an Int is refused. *)
Example sized_object_int_key (an : bool) :
  decode_next an 5 [OBJECT_S; x01; INT8; x01; INT8; x02]
  = Raise (ValueError "key should be string, got %r").
Proof. reflexivity. Qed.

(** A decoder that does not keep Noop reads through any run of Noop
    bytes; one that keeps them returns the first. *)
Example noops_then_null (k : nat) (src : bytes) :
  decode_next false 1 (repeat NOOP k ++ NULL :: src) = Ok (PNone, src)
  /\ decode_next true 1 (NOOP :: src) = Ok (PNoop, src).
Proof.
  split; [|reflexivity].
  unfold decode_next, next_tlv.
  assert (R : read_tag false (repeat NOOP k ++ NULL :: src) = Ok (NULL, src)).
  { induction k as [|k IH]; [reflexivity | exact IH]. }
  now rewrite R.
Qed.

(** Noop and EOS are refused inside a sized Array. *)
Example forbidden_in_sized_array :
  decode_next true 5 [ARRAY_S; x01; NOOP]
  = Raise (MarkerError "invalid marker occurs: %02X" NOOP)
  /\ decode_next false 5 [ARRAY_S; x01; EOS]
     = Raise (MarkerError "invalid marker occurs: %02X" EOS).
Proof. split; reflexivity. Qed.

(** A later duplicate key overwrites the earlier value. *)
Example duplicate_key_overwrites :
  decode_next false 6
    [OBJECT_S; x02; STRING_S; x01; "k"%byte; INT8; x01;
     STRING_S; x01; "k"%byte; INT8; x02]
  = Ok (PDict [(PUnicode [107], PInt 2)], []).
Proof. reflexivity. Qed.

(** ** The decoder reads forward *)

Lemma suffix_refl (s : bytes) : suffix s s.
Proof. now exists []. Qed.

Lemma suffix_trans (a m c : bytes) : suffix a m -> suffix m c -> suffix a c.
Proof.
  intros [p ->] [q ->]. exists (q ++ p). now rewrite app_assoc.
Qed.

Lemma proper_suffix_suffix (a c : bytes) : proper_suffix a c -> suffix a c.
Proof. intros (x & p & ->). now exists (x :: p). Qed.

Lemma proper_then_suffix (a m c : bytes) :
  suffix a m -> proper_suffix m c -> proper_suffix a c.
Proof.
  intros [p ->] (x & q & ->). exists x, (q ++ p). now rewrite app_assoc.
Qed.

Lemma suffix_length (a c : bytes) :
  suffix a c -> (List.length a <= List.length c)%nat.
Proof. intros [p ->]. rewrite length_app. lia. Qed.

Lemma proper_suffix_length (a c : bytes) :
  proper_suffix a c -> (List.length a < List.length c)%nat.
Proof. intros (x & p & ->). cbn. rewrite length_app. lia. Qed.

Lemma read_suffix (n : Z) (src s rest : bytes) :
  read n src = (s, rest) -> suffix rest src.
Proof.
  revert n s rest. induction src as [|x src IH]; intros n s rest H.
  - cbn in H. inversion H. apply suffix_refl.
  - cbn [read] in H. destruct (n <=? 0).
    + inversion H. apply suffix_refl.
    + destruct (read (n - 1) src) as [s' r] eqn:E. inversion H; subst.
      destruct (IH _ _ _ E) as [p ->]. now exists (x :: p).
Qed.

Lemma read_tag_reads (an : bool) (src : bytes) (t : byte) (src' : bytes) :
  read_tag an src = Ok (t, src') -> proper_suffix src' src.
Proof.
  induction src as [|x src IH]; cbn [read_tag]; intros H; [discriminate H|].
  destruct (Byte.eqb x NOOP && negb an).
  - destruct (IH H) as (y & p & ->). now exists x, (y :: p).
  - inversion H; subst. eexists _, []. reflexivity.
Qed.

(** A unit takes at least its tag from the source. *)
Lemma next_tlv_reads (an : bool) (src : bytes) (t : tlv) (src' : bytes) :
  next_tlv an src = Ok (t, src') -> proper_suffix src' src.
Proof.
  unfold next_tlv. intros H. bind_inv H. destruct a as [tag s].
  apply read_tag_reads in E.
  repeat match type of H with
         | (if ?c then _ else _) = _ => destruct c
         | (let '(_, _) := read ?n ?r in _) = _ =>
           let R := fresh "R" in
           destruct (read n r) eqn:R; apply read_suffix in R
         | bind ?r _ = Ok _ => bind_inv H
         end; inversion H; subst;
    eauto using proper_then_suffix, suffix_trans.
Qed.

(** Inversion of a successful run of the decoder's code. *)
Ltac run_inv :=
  repeat match goal with
         | H : bind ?r _ = Ok _ |- _ =>
           let E := fresh "E" in
           destruct r as [?|?|] eqn:E; cbn [bind] in H; [|discriminate H ..]
         | H : (let '(_, _) := ?p in _) = Ok _ |- _ => destruct p
         | H : (if ?c then _ else _) = Ok _ |- _ =>
           let T := fresh "T" in destruct c eqn:T
         | H : Raise _ = Ok _ |- _ => discriminate H
         | H : OutOfFuel = Ok _ |- _ => discriminate H
         | H : match ?s with Yield _ => _ | StopIteration => _ end = Ok _ |- _ =>
           destruct s
         | H : Ok _ = Ok _ |- _ => inversion H; subst; clear H
         end.

Ltac chain :=
  first [ apply suffix_refl
        | eassumption
        | apply proper_suffix_suffix; eassumption
        | eapply suffix_trans;
          [ first [eassumption | apply proper_suffix_suffix; eassumption]
          | chain ] ].

Ltac chain_proper :=
  first [ eassumption
        | eapply proper_then_suffix; [|eassumption]; chain ].

Lemma py_list_reads (run : stream_kind -> bytes -> result (pyobj * bytes))
    (item : pyobj) (src : bytes) (v : pyobj) (src' : bytes) :
  (forall k s w s', run k s = Ok (w, s') -> suffix s' s) ->
  py_list run item src = Ok (v, src') -> suffix src' src.
Proof.
  intros R H. destruct item; cbn in H; try discriminate H;
    try (inversion H; subst; apply suffix_refl).
  eapply R; eassumption.
Qed.

Lemma decoder_reads_forward (an : bool) (fuel : nat) :
  (forall tag length value src v src',
      call an fuel tag length value src = Ok (v, src') -> suffix src' src)
  /\ (forall n res src v src',
         decode_array_loop an fuel n res src = Ok (v, src') -> suffix src' src)
  /\ (forall n key res src v src',
         decode_object_loop an fuel n key res src = Ok (v, src') ->
         suffix src' src)
  /\ (forall src step src',
         array_stream an fuel src = Ok (step, src') -> proper_suffix src' src)
  /\ (forall key src step key' src',
         object_stream an fuel key src = Ok (step, key', src') ->
         proper_suffix src' src)
  /\ (forall k key res src v src',
         list_stream an fuel key res k src = Ok (v, src') -> suffix src' src).
Proof.
  induction fuel as [|fuel (IHc & IHa & IHo & IHas & IHos & IHl)].
  - repeat split; intros; discriminate.
  - assert (IHp : forall item src v src',
               py_list (list_stream an fuel PNone []) item src = Ok (v, src') ->
               suffix src' src).
    { intros item src v src' H. eapply py_list_reads; [|exact H].
      intros k s w s' L. eapply IHl; exact L. }
    refine (conj _ (conj _ (conj _ (conj _ (conj _ _))))).
    + intros tag length value src v src' H. cbn [call] in H.
      unfold decode_noop, decode_none, decode_false, decode_true, decode_int,
        decode_float, decode_string, decode_hidef, decode_array, decode_object,
        decode_array_stream, decode_object_stream in H.
      destruct (decoder_dispatch tag) as [[]|]; run_inv;
        try apply suffix_refl; eauto.
    + intros n res src v src' H. cbn [decode_array_loop] in H. run_inv;
        repeat match goal with
               | H : next_tlv _ _ = Ok _ |- _ => apply next_tlv_reads in H
               | H : call _ _ _ _ _ _ = Ok _ |- _ => apply IHc in H
               | H : py_list _ _ _ = Ok _ |- _ => apply IHp in H
               | H : decode_array_loop _ _ _ _ _ = Ok _ |- _ => apply IHa in H
               end; chain.
    + intros n key res src v src' H. cbn [decode_object_loop] in H. run_inv;
        repeat match goal with
               | H : next_tlv _ _ = Ok _ |- _ => apply next_tlv_reads in H
               | H : call _ _ _ _ _ _ = Ok _ |- _ => apply IHc in H
               | H : py_list _ _ _ = Ok _ |- _ => apply IHp in H
               | H : decode_object_loop _ _ _ _ _ _ = Ok _ |- _ => apply IHo in H
               end; chain.
    + intros src step src' H. cbn [array_stream] in H. run_inv;
        repeat match goal with
               | H : next_tlv _ _ = Ok _ |- _ => apply next_tlv_reads in H
               | H : call _ _ _ _ _ _ = Ok _ |- _ => apply IHc in H
               | H : py_list _ _ _ = Ok _ |- _ => apply IHp in H
               end; chain_proper.
    + intros key src step key' src' H. cbn [object_stream] in H. run_inv;
        repeat match goal with
               | H : next_tlv _ _ = Ok _ |- _ => apply next_tlv_reads in H
               | H : call _ _ _ _ _ _ = Ok _ |- _ => apply IHc in H
               | H : py_list _ _ _ = Ok _ |- _ => apply IHp in H
               | H : object_stream _ _ _ _ = Ok _ |- _ => apply IHos in H
               end; chain_proper.
    + intros k key res src v src' H. cbn [list_stream] in H.
      destruct k; run_inv;
        repeat match goal with
               | H : array_stream _ _ _ = Ok _ |- _ => apply IHas in H
               | H : object_stream _ _ _ _ = Ok _ |- _ => apply IHos in H
               | H : list_stream _ _ _ _ _ _ = Ok _ |- _ => apply IHl in H
               end; chain.
Qed.

Lemma decode_next_reads (an : bool) (fuel : nat) (src : bytes) (v : pyobj)
    (rest : bytes) :
  decode_next an fuel src = Ok (v, rest) -> proper_suffix rest src.
Proof.
  destruct (decoder_reads_forward an fuel) as (Rc & _).
  intros H. unfold decode_next in H. run_inv.
  match goal with
  | Hn : next_tlv _ _ = Ok _, Hc : call _ _ _ _ _ _ = Ok _ |- _ =>
    apply next_tlv_reads in Hn; apply Rc in Hc
  end.
  chain_proper.
Qed.

(** ** The decoder terminates *)

Lemma bind_total {A B : Type} (r : result A) (k : A -> result B) :
  r <> OutOfFuel -> (forall a, r = Ok a -> k a <> OutOfFuel) ->
  bind r k <> OutOfFuel.
Proof.
  intros R K. destruct r as [a|e|]; cbn [bind];
    [now apply K | discriminate | contradiction].
Qed.

(** The code of a function that has fuel left runs to a result or an
    error if the calls it makes do; these are left as goals. *)
Ltac total :=
  repeat match goal with
         | |- Ok _ <> OutOfFuel => discriminate
         | |- Raise _ <> OutOfFuel => discriminate
         | |- (if ?c then _ else _) <> OutOfFuel => destruct c
         | |- (let '(_, _) := ?p in _) <> OutOfFuel => destruct p
         | |- match ?s with Yield _ => _ | StopIteration => _ end <> OutOfFuel =>
           destruct s
         | |- bind ?r _ <> OutOfFuel =>
           let E := fresh "E" in apply bind_total; [|intros ? E]
         end.

Lemma utf8_decode_total (s : bytes) : utf8_decode s <> OutOfFuel.
Proof.
  assert (G : forall (n : nat) (s : bytes),
             (List.length s <= n)%nat -> utf8_decode s <> OutOfFuel).
  { clear s. induction n as [|n IH]; intros [|b0 s] L; cbn [List.length] in L;
      try discriminate; try lia.
    cbn [utf8_decode].
    repeat match goal with
           | |- (if ?c then _ else _) <> OutOfFuel => destruct c
           | |- match ?l with [] => _ | _ :: _ => _ end <> OutOfFuel =>
             destruct l; cbn [List.length] in L
           end;
      total; apply IH; lia. }
  exact (G _ s (le_n _)).
Qed.

Lemma Decimal_of_text_total (s : list Z) : Decimal_of_text s <> OutOfFuel.
Proof.
  unfold Decimal_of_text, Decimal_of_ascii.
  destruct (forallb _ s); [|discriminate].
  destruct (split_sign (strip s)) as [sign r].
  destruct (parse_number r) as [[c e]|]; [discriminate|].
  destruct (parse_special sign r); discriminate.
Qed.

Lemma read_tag_total (an : bool) (src : bytes) : read_tag an src <> OutOfFuel.
Proof.
  induction src as [|x src IH]; cbn [read_tag]; [discriminate|].
  destruct (Byte.eqb x NOOP && negb an); [exact IH | discriminate].
Qed.

Lemma next_tlv_total (an : bool) (src : bytes) : next_tlv an src <> OutOfFuel.
Proof.
  unfold next_tlv.
  total; first [ apply read_tag_total
               | unfold ord, unpack, unpack_float;
                 repeat match goal with
                        | |- context [match ?l with [] => _ | _ :: _ => _ end] =>
                          destruct l
                        | |- context [if ?c then _ else _] => destruct c
                        end; discriminate ].
Qed.

Lemma py_list_total (run : stream_kind -> bytes -> result (pyobj * bytes))
    (item : pyobj) (src : bytes) :
  (forall k, run k src <> OutOfFuel) -> py_list run item src <> OutOfFuel.
Proof.
  intros R. destruct item; cbn [py_list]; try discriminate. apply R.
Qed.

(** Fuel in proportion to the bytes of the source is enough: a unit
    takes a byte at least, and no function calls itself or another on
    the same source more than twice in a row. *)
Lemma decoder_terminates (an : bool) (fuel : nat) :
  (forall tag length value src,
      (2 * List.length src + 2 <= fuel)%nat ->
      call an fuel tag length value src <> OutOfFuel)
  /\ (forall n res src,
         (2 * List.length src + 1 <= fuel)%nat ->
         decode_array_loop an fuel n res src <> OutOfFuel)
  /\ (forall n key res src,
         (2 * List.length src + 1 <= fuel)%nat ->
         decode_object_loop an fuel n key res src <> OutOfFuel)
  /\ (forall src,
         (2 * List.length src + 1 <= fuel)%nat ->
         array_stream an fuel src <> OutOfFuel)
  /\ (forall key src,
         (2 * List.length src + 1 <= fuel)%nat ->
         object_stream an fuel key src <> OutOfFuel)
  /\ (forall k key res src,
         (2 * List.length src + 2 <= fuel)%nat ->
         list_stream an fuel key res k src <> OutOfFuel).
Proof.
  induction fuel as [|fuel (IHc & IHa & IHo & IHas & IHos & IHl)].
  - repeat split; intros; lia.
  - destruct (decoder_reads_forward an fuel) as (Rc & Ra & Ro & Ras & Ros & Rl).
    assert (Rp : forall item src v src',
               py_list (list_stream an fuel PNone []) item src = Ok (v, src') ->
               suffix src' src).
    { intros item src v src' H. eapply py_list_reads; [|exact H].
      intros k s w s' L. eapply Rl; exact L. }
    refine (conj _ (conj _ (conj _ (conj _ (conj _ _)))));
      intros;
      cbn [call decode_array_loop decode_object_loop array_stream
             object_stream list_stream];
      unfold decode_noop, decode_none, decode_false, decode_true, decode_int,
        decode_float, decode_string, decode_hidef, decode_array, decode_object,
        decode_array_stream, decode_object_stream, str_decode, range, option_map;
      repeat match goal with
             | |- context [match decoder_dispatch ?t with _ => _ end] =>
               destruct (decoder_dispatch t) as [[]|]
             | |- context [match ?k with ArrayStream => _ | ObjectStream => _ end] =>
               destruct k
             | |- context [match ?v with PNoop => _ | _ => _ end] => destruct v
             | |- context [match ?o with Some _ => _ | None => _ end] => destruct o
             end;
      total;
      try first [ apply next_tlv_total | apply utf8_decode_total
                | apply Decimal_of_text_total ].
    all: repeat match goal with
         | H : next_tlv _ _ = Ok _ |- _ =>
           apply next_tlv_reads, proper_suffix_length in H
         | H : call _ _ _ _ _ _ = Ok _ |- _ => apply Rc, suffix_length in H
         | H : py_list _ _ _ = Ok _ |- _ => apply Rp, suffix_length in H
         | H : array_stream _ _ _ = Ok _ |- _ =>
           apply Ras, proper_suffix_length in H
         | H : object_stream _ _ _ _ = Ok _ |- _ =>
           apply Ros, proper_suffix_length in H
         | H : (if ?c then _ else _) = Ok _ |- _ => destruct c
         | H : Ok _ = Ok _ |- _ => inversion H; subst; clear H
         end.
    all: try (first [ apply IHc | apply IHa | apply IHo | apply IHas
                    | apply IHos | apply IHl ]; lia).
    all: try (apply py_list_total; intros; apply IHl; lia).
Qed.

(** ** The result does not depend on the fuel *)

Lemma bind_mono {A B : Type} (r r' : result A) (k k' : A -> result B) :
  (r <> OutOfFuel -> r' = r) ->
  (forall a, r = Ok a -> k a <> OutOfFuel -> k' a = k a) ->
  bind r k <> OutOfFuel -> bind r' k' = bind r k.
Proof.
  intros R K H. destruct r as [a|e|]; cbn [bind] in *.
  - rewrite R by discriminate. cbn [bind]. now apply K.
  - now rewrite R by discriminate.
  - contradiction.
Qed.

Lemma py_list_mono (run run' : stream_kind -> bytes -> result (pyobj * bytes))
    (item : pyobj) (src : bytes) :
  (forall k, run k src <> OutOfFuel -> run' k src = run k src) ->
  py_list run item src <> OutOfFuel ->
  py_list run' item src = py_list run item src.
Proof.
  intros R. destruct item; cbn [py_list]; try reflexivity. apply R.
Qed.

(** The two sides run the same code; they differ in the fuel of the
    calls, which are left as goals. *)
Ltac mono :=
  repeat first
         [ solve [intros _; reflexivity]
         | match goal with
           | |- (if ?c then _ else _) <> OutOfFuel -> _ => destruct c
           | |- (let '(_, _) := ?p in _) <> OutOfFuel -> _ => destruct p
           | |- match ?s with Yield _ => _ | StopIteration => _ end
                <> OutOfFuel -> _ => destruct s
           | |- bind ?r _ <> OutOfFuel -> bind _ _ = bind ?r _ =>
             let E := fresh "E" in
             apply bind_mono; [|intros ? E; cbv beta]
           end ].

(** A function that has returned or raised does the same with one more
    unit of fuel. *)
Lemma decoder_fuel_step (an : bool) (fuel : nat) :
  (forall tag length value src,
      call an fuel tag length value src <> OutOfFuel ->
      call an (S fuel) tag length value src = call an fuel tag length value src)
  /\ (forall n res src,
         decode_array_loop an fuel n res src <> OutOfFuel ->
         decode_array_loop an (S fuel) n res src
         = decode_array_loop an fuel n res src)
  /\ (forall n key res src,
         decode_object_loop an fuel n key res src <> OutOfFuel ->
         decode_object_loop an (S fuel) n key res src
         = decode_object_loop an fuel n key res src)
  /\ (forall src,
         array_stream an fuel src <> OutOfFuel ->
         array_stream an (S fuel) src = array_stream an fuel src)
  /\ (forall key src,
         object_stream an fuel key src <> OutOfFuel ->
         object_stream an (S fuel) key src = object_stream an fuel key src)
  /\ (forall k key res src,
         list_stream an fuel key res k src <> OutOfFuel ->
         list_stream an (S fuel) key res k src
         = list_stream an fuel key res k src).
Proof.
  induction fuel as [|fuel (IHc & IHa & IHo & IHas & IHos & IHl)].
  - repeat split; intros; contradiction.
  - refine (conj _ (conj _ (conj _ (conj _ (conj _ _))))); intros;
      match goal with
      | H : ?r <> OutOfFuel |- ?l = ?r =>
        revert H; set (L := l);
        cbn [call decode_array_loop decode_object_loop array_stream
               object_stream list_stream];
        subst L; remember (S fuel) as fuel1 eqn:F;
        cbn [call decode_array_loop decode_object_loop array_stream
               object_stream list_stream];
        subst fuel1
      end;
      unfold decode_array, decode_object;
      repeat match goal with
             | |- context [match decoder_dispatch ?t with _ => _ end] =>
               destruct (decoder_dispatch t) as [[]|]
             | |- context [match ?k with ArrayStream => _ | ObjectStream => _ end] =>
               destruct k
             end;
      mono;
      first [ apply IHc | apply IHa | apply IHo | apply IHas | apply IHos
            | apply IHl | apply py_list_mono; intros k; apply IHl ].
Qed.

Lemma decoder_fuel_le (an : bool) (fuel fuel' : nat) :
  (fuel <= fuel')%nat ->
  (forall tag length value src,
      call an fuel tag length value src <> OutOfFuel ->
      call an fuel' tag length value src = call an fuel tag length value src)
  /\ (forall k key res src,
         list_stream an fuel key res k src <> OutOfFuel ->
         list_stream an fuel' key res k src
         = list_stream an fuel key res k src).
Proof.
  induction 1 as [|fuel' L [IHc IHl]]; [split; reflexivity|].
  destruct (decoder_fuel_step an fuel') as (Sc & _ & _ & _ & _ & Sl).
  split; intros.
  - rewrite Sc; [now apply IHc | now rewrite IHc].
  - rewrite Sl; [now apply IHl | now rewrite IHl].
Qed.

(** ** The values the decoder builds *)

Lemma read_tag_noop (an : bool) (src : bytes) (t : byte) (src' : bytes) :
  read_tag an src = Ok (t, src') -> negb (Byte.eqb t NOOP) || an = true.
Proof.
  induction src as [|x src IH]; cbn [read_tag]; intros H; [discriminate H|].
  destruct (Byte.eqb x NOOP) eqn:N; destruct an; cbn [andb negb] in H;
    try (now apply IH); inversion H; subst; now rewrite ?N.
Qed.

Lemma unpack_bounds (f : int_format) (s : bytes) (z : Z) :
  unpack f s = Ok z -> - 2 ^ 63 <= z <= 2 ^ 63 - 1.
Proof.
  unfold unpack. destruct (Nat.eqb (List.length s) (fmt_width f)) eqn:L;
    [|discriminate].
  apply Nat.eqb_eq in L. pose proof (be_value_range s) as R. rewrite L in R.
  intros H. inversion H; subst; clear H.
  destruct f; cbn [fmt_signed fmt_width] in *; unfold to_signed;
    cbn [fmt_width] in *;
    repeat match goal with
           | |- context [if ?a <? ?c then _ else _] => destruct (Z.ltb_spec a c)
           end;
    change (2 ^ (8 * Z.of_nat 2 - 1)) with 32768 in *;
    change (2 ^ (8 * Z.of_nat 4 - 1)) with 2147483648 in *;
    change (2 ^ (8 * Z.of_nat 8 - 1)) with 9223372036854775808 in *;
    change (256 ^ Z.of_nat 2) with 65536 in *;
    change (256 ^ Z.of_nat 4) with 4294967296 in *;
    change (256 ^ Z.of_nat 8) with 18446744073709551616 in *;
    change (2 ^ (8 * Z.of_nat 2)) with 65536 in *;
    change (2 ^ (8 * Z.of_nat 4)) with 4294967296 in *;
    change (2 ^ (8 * Z.of_nat 8)) with 18446744073709551616 in *;
    change (2 ^ 63) with 9223372036854775808; try lia.
Qed.

Lemma ord_bounds (s : bytes) (z : Z) : ord s = Ok z -> 0 <= z < 256.
Proof.
  destruct s as [|x [|y s]]; cbn [ord]; intros H; inversion H.
  apply Z_of_byte_range.
Qed.

Lemma next_tlv_unit (an : bool) (src : bytes) (tag : byte)
    (length : option Z) (value : pyobj) (src' : bytes) :
  next_tlv an src = Ok ((tag, length, value), src') ->
  unit_payload an tag value = true.
Proof.
  unfold next_tlv, unit_payload. intros H. bind_inv H. destruct a as [t s].
  assert (tag = t /\ (tag = t -> True)) as [-> _].
  { split; [|trivial].
    repeat match type of H with
           | (if ?c then _ else _) = _ => destruct c
           | (let '(_, _) := ?r in _) = _ => destruct r
           | bind ?r _ = Ok _ => bind_inv H
           end; inversion H; reflexivity. }
  rewrite (read_tag_noop _ _ _ _ E). cbn [andb]. clear E.
  destruct t; revert H; eval_tag_tests; cbv zeta; intros H; run_inv;
    match goal with
    | |- context [decoder_dispatch ?t] =>
      let v := eval vm_compute in (decoder_dispatch t) in
      change (decoder_dispatch t) with v
    end; cbv iota; try reflexivity;
    repeat match goal with
           | H : unpack _ _ = Ok _ |- _ => apply unpack_bounds in H
           | H : ord _ = Ok _ |- _ => apply ord_bounds in H
           | |- context [if ?a <? ?c then _ else _] => destruct (Z.ltb_spec a c)
           end;
    apply andb_true_intro; split; apply Z.leb_le; lia.
Qed.

Lemma dict_setitem_keys (d : list (pyobj * pyobj)) (k v : pyobj) :
  map fst (dict_setitem d k v) = map fst d
  \/ (map fst (dict_setitem d k v) = map fst d ++ [k]
      /\ existsb (fun k' => pyobj_eqb k' k) (map fst d) = false).
Proof.
  induction d as [|[k' v'] d IH]; cbn [dict_setitem map fst existsb app].
  - right. split; reflexivity.
  - destruct (pyobj_eqb k' k) eqn:Q; cbn [map fst].
    + left. reflexivity.
    + destruct IH as [IH | [IH1 IH2]]; [left | right].
      * now rewrite IH.
      * rewrite IH1, IH2. split; reflexivity.
Qed.

Lemma distinct_keys_snoc (l : list pyobj) (k : pyobj) :
  distinct_keys l = true ->
  existsb (fun k' => pyobj_eqb k' k) l = false ->
  distinct_keys (l ++ [k]) = true.
Proof.
  induction l as [|a l IH]; cbn [distinct_keys existsb app]; intros D E.
  - reflexivity.
  - apply andb_prop in D as [D1 D2]. apply orb_false_elim in E as [E1 E2].
    rewrite existsb_app. cbn [existsb]. rewrite E1, IH by assumption.
    apply negb_true_iff in D1. now rewrite D1.
Qed.

Lemma decoded_setitem (an : bool) (d : list (pyobj * pyobj)) (k v : pyobj) :
  decoded an (PDict d) = true -> is_unicode k = true -> decoded an v = true ->
  decoded an (PDict (dict_setitem d k v)) = true.
Proof.
  cbn [decoded]. intros D K V. apply andb_prop in D as [D1 D2].
  apply andb_true_intro. split.
  - clear D2. induction d as [|[k' v'] d IH]; cbn [dict_setitem forallb fst snd].
    + now rewrite K, V.
    + cbn [forallb fst snd] in D1. apply andb_prop in D1 as [D1 D1'].
      apply andb_prop in D1 as [U W].
      destruct (pyobj_eqb k' k); cbn [forallb fst snd].
      * now rewrite U, V, D1'.
      * now rewrite U, W, IH.
  - destruct (dict_setitem_keys d k v) as [E | [E1 E2]].
    + now rewrite E.
    + rewrite E1. now apply distinct_keys_snoc.
Qed.

Lemma dict_setitem_length (d : list (pyobj * pyobj)) (k v : pyobj) :
  (List.length (dict_setitem d k v) <= S (List.length d))%nat.
Proof.
  induction d as [|[k' v'] d IH]; cbn [dict_setitem List.length]; [lia|].
  destruct (pyobj_eqb k' k); cbn [List.length]; lia.
Qed.

(** [list(...)] of a value the decoder built is a list of such values. *)
Lemma py_list_decoded (an : bool)
    (run : stream_kind -> bytes -> result (pyobj * bytes))
    (item : pyobj) (src : bytes) (v : pyobj) (src' : bytes) :
  decoded an item = true ->
  py_list run item src = Ok (v, src') -> decoded an v = true.
Proof.
  intros D H. destruct item; cbn [decoded] in D; try discriminate D;
    cbn [py_list] in H; try discriminate H; inversion H; subst; clear H;
    cbn [decoded]; try assumption.
  - induction s; cbn; [reflexivity | assumption].
  - apply andb_prop in D as [D _].
    induction items as [|[k x] d IH]; [reflexivity|].
    cbn [map forallb fst snd] in *. apply andb_prop in D as [D1 D2].
    apply andb_prop in D1 as [U _]. rewrite IH by assumption.
    destruct k; try discriminate U. reflexivity.
Qed.

Lemma call_key (an : bool) (fuel : nat) (tag : byte) (length : option Z)
    (value : pyobj) (src : bytes) (v : pyobj) (src' : bytes) :
  mem tag OBJECT_KEYS = true ->
  call an fuel tag length value src = Ok (v, src') -> is_unicode v = true.
Proof.
  intros M H. apply mem_In in M. destruct fuel; [discriminate H|].
  destruct M as [<- | [<- | []]]; cbn in H; unfold decode_string in H;
    run_inv; reflexivity.
Qed.

Lemma dispatch_noop (tag : byte) :
  decoder_dispatch tag = Some H_noop -> Byte.eqb tag NOOP = true.
Proof.
  destruct tag; vm_compute; intros H; (discriminate H || reflexivity).
Qed.

Lemma not_stream_unit (tag t : byte) (length : option Z) :
  In t [ARRAY_S; OBJECT_S] ->
  stream_unit tag length = false ->
  Byte.eqb tag t && length_is length 255 = true -> False.
Proof.
  unfold stream_unit. intros I SU T. apply andb_prop in T as [T1 T2].
  apply Byte.byte_dec_bl in T1. subst tag. rewrite T2 in SU.
  destruct I as [<- | [<- | []]]; discriminate SU.
Qed.

(** The invariants of the decoder's functions on the values they build. *)
Lemma decoder_values (an : bool) (fuel : nat) :
  (forall tag length value src v src',
      call an fuel tag length value src = Ok (v, src') ->
      unit_payload an tag value = true ->
      if stream_unit tag length then v = PStream (stream_of tag)
      else decoded an v = true)
  /\ (forall n res src v src',
         decode_array_loop an fuel n res src = Ok (v, src') ->
         forallb (decoded an) res = true ->
         exists l, v = PList (res ++ l) /\ forallb (decoded an) l = true
                   /\ Z.of_nat (List.length l) = Z.max 0 n)
  /\ (forall n key res src v src',
         decode_object_loop an fuel n key res src = Ok (v, src') ->
         key_slot key = true -> decoded an (PDict res) = true ->
         exists d, v = PDict d /\ decoded an (PDict d) = true
                   /\ Z.of_nat (List.length d)
                      <= Z.of_nat (List.length res)
                         + (Z.max 0 n + (if is_None key then 0 else 1)) / 2)
  /\ (forall src item src',
         array_stream an fuel src = Ok (Yield item, src') ->
         decoded an item = true)
  /\ (forall key src item key' src',
         object_stream an fuel key src = Ok (Yield item, key', src') ->
         key_slot key = true ->
         decoded an item = true /\ key_slot key' = true)
  /\ (forall k key res src v src',
         list_stream an fuel key res k src = Ok (v, src') ->
         key_slot key = true -> forallb (decoded an) res = true ->
         exists l, v = PList l /\ forallb (decoded an) l = true).
Proof.
  induction fuel as [|fuel (IHc & IHa & IHo & IHas & IHos & IHl)].
  - repeat split; intros; discriminate.
  - assert (IHp : forall tag length item src v src' w src'',
               unit_payload an tag w = true ->
               call an fuel tag length w src'' = Ok (item, src) ->
               py_list (list_stream an fuel PNone []) item src = Ok (v, src') ->
               decoded an v = true).
    { intros tag length item src v src' w src'' U C H.
      pose proof (IHc _ _ _ _ _ _ C U) as I.
      destruct (stream_unit tag length).
      - subst item. cbn [py_list] in H.
        destruct (IHl _ _ _ _ _ _ H eq_refl eq_refl) as (l & -> & L).
        exact L.
      - eapply py_list_decoded; eassumption. }
    refine (conj _ (conj _ (conj _ (conj _ (conj _ _))))).
    + intros tag length value src v src' H U. cbn [call] in H.
      unfold unit_payload in U. apply andb_prop in U as [N U].
      destruct (stream_unit tag length) eqn:SU.
      * apply stream_unit_cases in SU as [L [-> | ->]];
          cbn in H; unfold decode_array, decode_object in H; cbn in H;
          rewrite L in H; inversion H; reflexivity.
      * unfold decode_noop, decode_none, decode_false, decode_true,
          decode_int, decode_float, decode_string, decode_hidef,
          decode_array, decode_object, decode_array_stream,
          decode_object_stream in H.
        destruct (decoder_dispatch tag) as [[]|] eqn:D; run_inv;
          try reflexivity.
        -- apply dispatch_noop in D. rewrite D in N. exact N.
        -- destruct v; try discriminate U. exact U.
        -- destruct v; try discriminate U. reflexivity.
        -- exfalso. eapply (not_stream_unit tag ARRAY_S); cbn; eauto.
        -- destruct (IHa _ _ _ _ _ H eq_refl) as (l & -> & L & _). exact L.
        -- exfalso. eapply (not_stream_unit tag OBJECT_S); cbn; eauto.
        -- destruct (IHo _ _ _ _ _ _ H eq_refl eq_refl) as (d & -> & L & _).
           exact L.
    + intros n res src v src' H R. cbn [decode_array_loop] in H.
      destruct (Z.leb_spec n 0) as [N|N].
      * inversion H; subst. exists []. rewrite app_nil_r.
        repeat split. cbn. lia.
      * run_inv;
          (match goal with
          | Hn : next_tlv _ _ = Ok _ |- _ =>
            pose proof (next_tlv_unit _ _ _ _ _ _ Hn) as U
          end;
          match goal with
          | Hc : call _ _ _ _ _ _ = Ok _, Hp : py_list _ _ _ = Ok _ |- _ =>
            pose proof (IHp _ _ _ _ _ _ _ _ U Hc Hp) as I
          | Hc : call _ _ _ _ _ _ = Ok _,
            T : mem _ STREAMS && _ = false |- _ =>
            pose proof (IHc _ _ _ _ _ _ Hc U) as I;
            unfold stream_unit in I; rewrite T in I
          end;
          match goal with
          | Hl : decode_array_loop _ _ _ (?r ++ [?x]) _ = Ok _ |- _ =>
            assert (R' : forallb (decoded an) (r ++ [x]) = true)
              by (rewrite forallb_app, R; cbn; now rewrite I);
            destruct (IHa _ _ _ _ _ Hl R') as (l & -> & L & Len)
          end;
          eexists (_ :: l); rewrite <- app_assoc; split; [reflexivity|];
          cbn [app forallb List.length]; rewrite I, L; split;
          [reflexivity | lia]).
    + intros n key res src v src' H K D. cbn [decode_object_loop] in H.
      destruct (Z.leb_spec n 0) as [N|N].
      * inversion H; subst. exists res. split; [reflexivity|].
        split; [exact D|].
        destruct (is_None key); rewrite Z.max_l by lia; cbn; lia.
      * run_inv;
          (match goal with
           | Hn : next_tlv _ _ = Ok _ |- _ =>
             pose proof (next_tlv_unit _ _ _ _ _ _ Hn) as U
           end).
        1:{ match goal with
           | T : true && negb (mem _ OBJECT_KEYS) = false |- _ =>
             cbn [andb] in T; apply negb_false_iff in T
           end.
           match goal with
           | Hc : call _ _ _ _ _ _ = Ok _, T : mem _ OBJECT_KEYS = true |- _ =>
             pose proof (call_key _ _ _ _ _ _ _ _ T Hc) as Q
           end.
           assert (K' : key_slot p = true)
             by (unfold key_slot; rewrite Q; apply orb_true_r).
           destruct (IHo _ _ _ _ _ _ H K' D) as (d & -> & L & Len).
           exists d. split; [reflexivity|]. split; [exact L|].
           destruct p; try discriminate Q. cbn [is_None] in Len.
           revert Len. rewrite !Z.max_r by lia.
           replace (n - 1 + 1) with n by lia. rewrite Z.add_0_r. trivial. }
        all: match goal with
             | Hc : call _ _ _ _ _ _ = Ok _, Hp : py_list _ _ _ = Ok _ |- _ =>
               pose proof (IHp _ _ _ _ _ _ _ _ U Hc Hp) as I
             | Hc : call _ _ _ _ _ _ = Ok _,
               T : mem _ STREAMS && _ = false |- _ =>
               pose proof (IHc _ _ _ _ _ _ Hc U) as I;
               unfold stream_unit in I; rewrite T in I
             end.
        all: assert (Q : is_unicode key = true)
          by (unfold key_slot in K; destruct key; try discriminate K;
              try discriminate; reflexivity).
        all: match goal with
             | Hl : decode_object_loop _ _ _ PNone (dict_setitem ?r ?k ?x) _
                    = Ok _ |- _ =>
               pose proof (decoded_setitem an r k x D Q I) as D';
               destruct (IHo _ _ _ _ _ _ Hl eq_refl D') as (d & -> & L & Len);
               pose proof (dict_setitem_length r k x) as SL
             end.
        all: exists d; split; [reflexivity|]; split; [exact L|].
        all: cbn [is_None] in Len; revert Len; rewrite !Z.max_r by lia;
          intros Len; rewrite Z.add_0_r in Len;
          replace (n + 1) with ((n - 1) + 1 * 2) by lia;
          rewrite Z.div_add by lia; lia.
    + intros src item src' H. cbn [array_stream] in H. run_inv;
        (match goal with
         | Hn : next_tlv _ _ = Ok _ |- _ =>
           pose proof (next_tlv_unit _ _ _ _ _ _ Hn) as U
         end).
      * eapply IHp; eassumption.
      * match goal with
        | Hc : call _ _ _ _ _ _ = Ok _ |- _ =>
          pose proof (IHc _ _ _ _ _ _ Hc U) as I
        end.
        match goal with
        | T : mem _ STREAMS && _ = false |- _ =>
          unfold stream_unit in I; rewrite T in I
        end.
        exact I.
    + intros key src item key' src' H K. cbn [object_stream] in H.
      assert (Q : is_None key = false -> decoded an key = true).
      { unfold key_slot in K. destruct key; try discriminate K;
          try discriminate; reflexivity. }
      run_inv;
        (match goal with
         | Hn : next_tlv _ _ = Ok _ |- _ =>
           pose proof (next_tlv_unit _ _ _ _ _ _ Hn) as U
         end).
      * split; [|exact K]. apply andb_prop in T as [T _].
        unfold unit_payload in U. rewrite T in U. cbn [negb orb andb] in U.
        apply andb_prop in U as [U _]. cbn [decoded forallb]. now rewrite U.
      * eapply IHos; eassumption.
      * match goal with
        | T : is_None key && negb (mem _ OBJECT_KEYS) = false,
          T' : is_None key = true |- _ =>
          rewrite T' in T; cbn [andb] in T; apply negb_false_iff in T
        | T : true && negb (mem _ OBJECT_KEYS) = false |- _ =>
          cbn [andb] in T; apply negb_false_iff in T
        end.
        match goal with
        | Hc : call _ _ _ _ _ _ = Ok _, T : mem _ OBJECT_KEYS = true |- _ =>
          pose proof (call_key _ _ _ _ _ _ _ _ T Hc) as Q'
        end.
        eapply IHos; [eassumption|].
        unfold key_slot. rewrite Q'. apply orb_true_r.
      * split; [|reflexivity]. cbn [decoded forallb].
        rewrite Q by assumption.
        match goal with
        | Hc : call _ _ _ _ _ _ = Ok _, Hp : py_list _ _ _ = Ok _ |- _ =>
          rewrite (IHp _ _ _ _ _ _ _ _ U Hc Hp)
        end.
        reflexivity.
      * split; [|reflexivity]. cbn [decoded forallb].
        rewrite Q by assumption.
        match goal with
        | Hc : call _ _ _ _ _ _ = Ok _ |- _ =>
          pose proof (IHc _ _ _ _ _ _ Hc U) as I
        end.
        match goal with
        | T : mem _ STREAMS = false |- _ =>
          unfold stream_unit in I; rewrite T in I; cbn [andb] in I
        end.
        now rewrite I.
    + intros k key res src v src' H K R. cbn [list_stream] in H.
      destruct k; run_inv.
      * match goal with
        | Hs : array_stream _ _ _ = Ok _ |- _ => pose proof (IHas _ _ _ Hs) as I
        end.
        eapply IHl; [eassumption | exact K |].
        rewrite forallb_app, R. cbn. now rewrite I.
      * exists res. split; [reflexivity | exact R].
      * match goal with
        | Hs : object_stream _ _ _ _ = Ok _ |- _ =>
          destruct (IHos _ _ _ _ _ Hs K) as [I K']
        end.
        eapply IHl; [eassumption | exact K' |].
        rewrite forallb_app, R. cbn. now rewrite I.
      * exists res. split; [reflexivity | exact R].
Qed.

Lemma unpack_I_bounds (s : bytes) (z : Z) :
  unpack Fmt_I s = Ok z -> 0 <= z < 2 ^ 32.
Proof.
  unfold unpack. destruct (Nat.eqb (List.length s) (fmt_width Fmt_I)) eqn:L;
    [|discriminate].
  apply Nat.eqb_eq in L. pose proof (be_value_range s) as R. rewrite L in R.
  intros H. inversion H; subst; clear H. exact R.
Qed.

(** The length of a unit that has one is not negative. *)
Lemma next_tlv_length (an : bool) (src : bytes) (tag : byte) (n : Z)
    (value : pyobj) (src' : bytes) :
  next_tlv an src = Ok ((tag, Some n, value), src') -> 0 <= n < 2 ^ 32.
Proof.
  unfold next_tlv. intros H. bind_inv H. destruct a as [t s]. clear E.
  repeat match type of H with
         | (if ?c then _ else _) = _ => destruct c
         | (let '(_, _) := ?r in _) = _ => destruct r
         | bind ?r _ = Ok _ => bind_inv H
         end; inversion H; subst;
    repeat match goal with
           | H : unpack Fmt_I _ = Ok _ |- _ => apply unpack_I_bounds in H
           | H : ord _ = Ok _ |- _ => apply ord_bounds in H
           end; lia.
Qed.

(** ** Properties of the decoder on every source *)

(** X1: the decoder reads forward.  A call of [decode_next] that returns
    leaves the source less a non-empty head of it, and so do every
    resumption of the generator of an unsized Array or Object and the
    listing of a decoded generator: no byte is read twice, and at least
    the tag is read each time. *)
Theorem X1_decoder_reads_forward (an : bool) (fuel : nat) :
  (forall src v rest,
      decode_next an fuel src = Ok (v, rest) -> proper_suffix rest src)
  /\ (forall src step rest,
         array_stream an fuel src = Ok (step, rest) -> proper_suffix rest src)
  /\ (forall key src step key' rest,
         object_stream an fuel key src = Ok (step, key', rest) ->
         proper_suffix rest src)
  /\ (forall src v rest,
         decode_and_list an fuel src = Ok (v, rest) -> proper_suffix rest src).
Proof.
  destruct (decoder_reads_forward an fuel) as (Rc & _ & _ & Ras & Ros & Rl).
  pose proof (decode_next_reads an fuel) as Rn.
  refine (conj Rn (conj Ras (conj Ros _))).
  intros src v rest H. unfold decode_and_list, materialize in H. run_inv.
  match goal with
  | Hn : decode_next _ _ _ = Ok _, Hp : py_list _ _ _ = Ok _ |- _ =>
    apply Rn in Hn; eapply py_list_reads in Hp; [|intros; eapply Rl; eassumption]
  end.
  chain_proper.
Qed.

Lemma X1_witness :
  decode_next false 5 [INT16; x01; x02; NULL] = Ok (PInt 258, [NULL])
  /\ proper_suffix [NULL] [INT16; x01; x02; NULL].
Proof.
  split; [reflexivity|].
  apply (proj1 (X1_decoder_reads_forward false 5) _ (PInt 258)).
  reflexivity.
Defined.

(** X2: decoding terminates, and fuel is no part of the result.  With
    two units of fuel for each byte of the source, [decode_next] and the
    listing of what it returns end with a value or an error of the
    code, and more fuel changes nothing. *)
Theorem X2_decoding_terminates (an : bool) (fuel : nat) (src : bytes) :
  (2 * List.length src <= fuel)%nat ->
  decode_next an fuel src <> OutOfFuel
  /\ decode_next an fuel src = decode_next an (2 * List.length src) src
  /\ decode_and_list an fuel src <> OutOfFuel
  /\ decode_and_list an fuel src
     = decode_and_list an (2 * List.length src) src.
Proof.
  intros F.
  assert (N : decode_next an (2 * List.length src) src <> OutOfFuel).
  { unfold decode_next. total; [apply next_tlv_total|].
    apply next_tlv_reads, proper_suffix_length in E.
    apply (decoder_terminates an). lia. }
  assert (Q : decode_next an fuel src = decode_next an (2 * List.length src) src).
  { revert N. unfold decode_next. mono.
    apply (decoder_fuel_le an _ _ F). }
  assert (N' : decode_and_list an (2 * List.length src) src <> OutOfFuel).
  { unfold decode_and_list, materialize. total; [exact N|].
    apply decode_next_reads, proper_suffix_length in E.
    apply py_list_total. intros k. apply (decoder_terminates an). lia. }
  split; [now rewrite Q|]. split; [exact Q|].
  assert (Q' : decode_and_list an fuel src
               = decode_and_list an (2 * List.length src) src).
  { revert N'. unfold decode_and_list, materialize. mono.
    - intros _. exact Q.
    - apply py_list_mono. intros k. apply (decoder_fuel_le an _ _ F). }
  split; [now rewrite Q' | exact Q'].
Qed.

Lemma X2_witness :
  (2 * List.length [ARRAY_S; xff; INT8; x01; EOS] <= 10)%nat
  /\ decode_and_list false 10 [ARRAY_S; xff; INT8; x01; EOS]
     = Ok (PList [PInt 1], [])
  /\ decode_and_list false 10 [ARRAY_S; xff; INT8; x01; EOS] <> OutOfFuel.
Proof.
  split; [cbn; lia|]. split; [reflexivity|].
  apply (X2_decoding_terminates false 10 [ARRAY_S; xff; INT8; x01; EOS]).
  cbn. lia.
Defined.

(** X3: what the decoder builds.  A value [decode_next] returns is the
    generator of an unsized container or is made of the atoms of the
    format, lists and mappings only: no [Noop] at any depth unless the
    decoder keeps [Noop], integers of 64 bits, mappings whose keys are
    texts, no two of them equal; the listing of a generator is a list of
    such values and of pairs of them. *)
Theorem X3_decoded_values (an : bool) (fuel : nat) :
  (forall src v rest,
      decode_next an fuel src = Ok (v, rest) ->
      (exists k, v = PStream k) \/ decoded an v = true)
  /\ (forall k src v rest,
         materialize an fuel (PStream k) src = Ok (v, rest) ->
         decoded an v = true).
Proof.
  destruct (decoder_values an fuel) as (Vc & _ & _ & _ & _ & Vl).
  split.
  - intros src v rest H. unfold decode_next in H. run_inv.
    match goal with
    | Hn : next_tlv _ _ = Ok _, Hc : call _ _ _ _ _ _ = Ok _ |- _ =>
      pose proof (Vc _ _ _ _ _ _ Hc (next_tlv_unit _ _ _ _ _ _ Hn)) as I
    end.
    destruct (stream_unit _ _); [left; eexists; exact I | right; exact I].
  - intros k src v rest H. unfold materialize in H. cbn [py_list] in H.
    destruct (Vl _ _ _ _ _ _ H eq_refl eq_refl) as (l & -> & L). exact L.
Qed.

Lemma X3_witness :
  decode_next true 10
    [OBJECT_S; x01; STRING_S; x01; "k"%byte; ARRAY_S; xff; NOOP; INT8; xff; EOS]
  = Ok (PDict [(PUnicode [107], PList [PNoop; PInt (-1)])], [])
  /\ ((exists k, PDict [(PUnicode [107], PList [PNoop; PInt (-1)])] = PStream k)
      \/ decoded true (PDict [(PUnicode [107], PList [PNoop; PInt (-1)])])
         = true).
Proof.
  split; [reflexivity|].
  apply (proj1 (X3_decoded_values true 10)
           [OBJECT_S; x01; STRING_S; x01; "k"%byte; ARRAY_S; xff; NOOP; INT8; xff; EOS]
           _ []).
  reflexivity.
Defined.

(** X4: a sized Array has the length it announces.  When the unit read
    is a short or long Array of length [n] (not the short tag with 255,
    which opens an unsized one) and [decode_next] returns, it returns a
    list of exactly [n] decoded values. *)
Theorem X4_sized_array_length (an : bool) (fuel : nat) (src : bytes)
    (tag : byte) (n : Z) (value : pyobj) (src1 : bytes) (v : pyobj)
    (rest : bytes) :
  next_tlv an src = Ok ((tag, Some n, value), src1) ->
  In tag [ARRAY_S; ARRAY_L] ->
  (tag = ARRAY_S -> n <> 255) ->
  decode_next an fuel src = Ok (v, rest) ->
  exists l, v = PList l /\ Z.of_nat (List.length l) = n
            /\ forallb (decoded an) l = true.
Proof.
  intros N T U H. unfold decode_next in H. rewrite N in H. cbn [bind] in H.
  pose proof (next_tlv_length _ _ _ _ _ _ N) as B.
  destruct fuel as [|fuel]; [discriminate H|].
  destruct (decoder_values an fuel) as (_ & Va & _).
  assert (L : decode_array_loop an fuel n [] src1 = Ok (v, rest)).
  { destruct T as [<- | [<- | []]]; cbn [call] in H;
      change (decoder_dispatch ARRAY_S) with (Some H_array) in H;
      change (decoder_dispatch ARRAY_L) with (Some H_array) in H;
      unfold decode_array in H; cbn [length_is range] in H.
    - change (Byte.eqb ARRAY_S ARRAY_S) with true in H.
      destruct (Z.eqb_spec n 255) as [Q|Q]; [now elim U|].
      cbn [andb bind] in H. exact H.
    - change (Byte.eqb ARRAY_L ARRAY_S) with false in H.
      cbn [andb bind] in H. exact H. }
  destruct (Va _ _ _ _ _ L eq_refl) as (l & -> & D & Len).
  exists l. split; [reflexivity|]. split; [lia | exact D].
Qed.

Lemma X4_witness :
  exists l, PList [PInt 1; PNone] = PList l
            /\ Z.of_nat (List.length l) = 2
            /\ forallb (decoded false) l = true.
Proof.
  apply (X4_sized_array_length false 5 [ARRAY_S; x02; INT8; x01; NULL; TRUE]
           ARRAY_S 2 PNone [INT8; x01; NULL; TRUE] _ [TRUE]).
  - reflexivity.
  - cbn. auto.
  - intros _. discriminate.
  - reflexivity.
Defined.



(** ** The encoder and the decoder together *)

Lemma decodes_to_decode_next (bs : bytes) (v : pyobj) :
  decodes_to bs v ->
  forall (an : bool) (fuel : nat) (rest : bytes),
    (fuel_need v <= fuel)%nat ->
    decode_next an fuel (bs ++ rest) = Ok (v, rest).
Proof.
  intros D an fuel rest F.
  destruct (D an rest) as (tag & length & value & src1 & N & _ & _ & _ & C).
  unfold decode_next. rewrite N. cbn [bind]. now apply C.
Qed.

(** A handler of the encoder opens its output with a marker that is not
    [EOS]. *)
Ltac handler_head h obj H :=
  destruct h, obj; try discriminate H;
  unfold encode_noop, encode_none, encode_bool, encode_int, encode_float,
    encode_str, encode_decimal, encode_sequence, encode_dict,
    encode_generator, encode_dictitems, chr, pack, pack_float in H;
  cbn [join nth] in H; run_inv; cbn [app];
  try (match goal with x : bool |- _ => destruct x end);
  eexists _, _; (split; [reflexivity | split; reflexivity]).

Lemma join_app (ps qs : list (result bytes)) :
  join (ps ++ qs) = (x <- join ps ;; y <- join qs ;; Ok (x ++ y)).
Proof.
  induction ps as [|p ps IH]; cbn [app join bind].
  - destruct (join qs); reflexivity.
  - destruct p as [x| |]; cbn [bind]; try reflexivity. rewrite IH.
    destruct (join ps) as [xs| |]; cbn [bind]; try reflexivity.
    destruct (join qs) as [ys| |]; cbn [bind]; try reflexivity.
    now rewrite app_assoc.
Qed.

Lemma not_forbidden (t : byte) :
  mem t FORBIDDEN = false ->
  Byte.eqb t NOOP = false /\ Byte.eqb t EOS = false.
Proof.
  unfold mem, FORBIDDEN. cbn [existsb]. intros H.
  apply orb_false_elim in H as [H1 H2]. apply orb_false_elim in H2 as [H2 _].
  now split.
Qed.

(** A sized Array or Object under a short tag is a list or a mapping. *)
Lemma call_short_container (an : bool) (fuel : nat) (tag : byte)
    (length : option Z) (value : pyobj) (src : bytes) (v : pyobj)
    (src' : bytes) :
  mem tag STREAMS = true -> stream_unit tag length = false ->
  call an fuel tag length value src = Ok (v, src') ->
  (exists l, v = PList l) \/ (exists d, v = PDict d).
Proof.
  intros M SU H. destruct fuel as [|fuel]; [discriminate H|].
  destruct (decoder_values an fuel) as (_ & Va & Vo & _).
  unfold stream_unit in SU. rewrite M in SU. cbn [andb] in SU.
  apply mem_In in M. cbn [call] in H.
  destruct M as [<- | [<- | []]];
    [change (decoder_dispatch ARRAY_S) with (Some H_array) in H
    |change (decoder_dispatch OBJECT_S) with (Some H_object) in H];
    unfold decode_array, decode_object in H; rewrite SU, andb_false_r in H;
    run_inv.
  - destruct (Va _ _ _ _ _ H eq_refl) as (l & -> & _). left. eauto.
  - destruct (Vo _ _ _ _ _ _ H eq_refl eq_refl) as (d & -> & _). right. eauto.
Qed.

(** The listing of an unsized Array that holds the encodings of
    [items], then [EOS]. *)
Lemma list_stream_items (an : bool) (items : list pyobj) (bss : list bytes) :
  Forall2 (fun x bs => decodes_to bs x) items bss ->
  forall (fuel : nat) (res : list pyobj) (rest : bytes),
    (2 + list_sum (map (fun x => S (fuel_need x)) items) <= fuel)%nat ->
    list_stream an fuel PNone res ArrayStream (List.concat bss ++ EOS :: rest)
    = Ok (PList (res ++ items), rest).
Proof.
  induction 1 as [|x bs items bss D _ IH]; intros fuel res rest F.
  - destruct fuel as [|[|fuel]]; cbn in F; try lia.
    cbn [List.concat app list_stream array_stream]. read_unit.
    cbn [bind]. now rewrite app_nil_r.
  - cbn [map] in F. rewrite list_sum_cons in F.
    destruct fuel as [|fuel]; [lia|]. cbn [list_stream].
    destruct fuel as [|fuel]; [lia|]. cbn [array_stream].
    cbn [List.concat]. rewrite <- app_assoc.
    destruct (D an (List.concat bss ++ EOS :: rest))
      as (tag & length & value & src1 & N & Fb & SU & _ & C).
    rewrite N. cbn [bind].
    destruct (not_forbidden _ Fb) as [_ ->].
    rewrite (C fuel) by lia. cbn [bind].
    unfold stream_unit in SU. rewrite SU. cbn [bind].
    rewrite IH by lia. now rewrite <- app_assoc.
Qed.

(** The listing of an unsized Object that holds the encodings of the
    keys and values of [d], then [EOS]: the pairs, in order. *)
Lemma list_stream_pairs (an : bool) (d : list (pyobj * pyobj))
    (ps : list (bytes * bytes)) :
  Forall2 (fun kv p => is_unicode (fst kv) = true
                       /\ is_dict (snd kv) = false
                       /\ decodes_to (fst p) (fst kv)
                       /\ decodes_to (snd p) (snd kv)) d ps ->
  forall (fuel : nat) (res : list pyobj) (rest : bytes),
    (2 + list_sum (map (fun kv => 2 + fuel_need (fst kv) + fuel_need (snd kv)) d)
     <= fuel)%nat ->
    list_stream an fuel PNone res ObjectStream
      (List.concat (map (fun p => fst p ++ snd p) ps) ++ EOS :: rest)
    = Ok (PList (res ++ map (fun kv => PTuple [fst kv; snd kv]) d), rest).
Proof.
  induction 1 as [|[k v] [bk bv] d ps (U & ND & Dk & Dv) _ IH];
    intros fuel res rest F.
  - destruct fuel as [|fuel]; [cbn in F; lia|]. cbn [list_stream].
    destruct fuel as [|fuel]; [cbn in F; lia|]. cbn [object_stream].
    cbn [List.concat map app]. read_unit. cbn [bind].
    now rewrite app_nil_r.
  - cbn [map fst snd] in *. rewrite list_sum_cons in F.
    assert (Fk : (1 <= fuel_need k)%nat) by (destruct k; cbn; lia).
    destruct fuel as [|fuel]; [lia|]. cbn [list_stream].
    destruct fuel as [|fuel]; [lia|]. cbn [object_stream].
    cbn [List.concat]. rewrite <- !app_assoc.
    match goal with
    | |- context [bk ++ ?r] =>
      destruct (Dk an r) as (tk & lk & vk & s1 & Nk & Fbk & _ & Kk & Ck)
    end.
    rewrite Nk. cbn [bind].
    destruct (not_forbidden _ Fbk) as [-> ->]. cbn [andb is_None].
    rewrite (Kk U). cbn [negb].
    destruct fuel as [|fuel]; [lia|].
    rewrite (Ck (S fuel)) by lia. cbn [bind object_stream].
    match goal with
    | |- context [bv ++ ?r] =>
      destruct (Dv an r) as (tv & lv & vv & s2 & Nv & Fbv & SUv & _ & Cv)
    end.
    rewrite Nv. cbn [bind].
    destruct (not_forbidden _ Fbv) as [-> ->].
    assert (NK : is_None k = false) by (destruct k; (reflexivity || discriminate U)).
    rewrite NK. cbn [andb].
    rewrite (Cv fuel) by lia. cbn [bind].
    destruct (mem tv STREAMS) eqn:M.
    + destruct (call_short_container _ _ _ _ _ _ _ _ M SUv (Cv fuel ltac:(lia)))
        as [[l ->] | [d' ->]]; [|discriminate ND].
      cbn [py_list bind]. rewrite IH by lia. now rewrite <- app_assoc.
    + cbn [bind]. rewrite IH by lia. now rewrite <- app_assoc.
Qed.

Lemma dictitems_pieces (enc : pyobj -> result bytes)
    (d : list (pyobj * pyobj)) :
  forallb (fun kv => is_basestring (fst kv)) d = true ->
  flat_map (fun kv =>
              if negb (is_basestring (fst kv))
              then [arg <- format_r (fst kv) ;;
                    Raise (EncodeError "invalid object key %r" arg)]
              else [enc (fst kv); enc (snd kv)]) d
  = flat_map (fun kv => [enc (fst kv); enc (snd kv)]) d.
Proof.
  induction d as [|kv d IH]; cbn [forallb flat_map]; intros H; [reflexivity|].
  apply andb_prop in H as [H1 H2]. now rewrite H1, IH.
Qed.










(** The loop of a sized Array over the encodings of [items], with
    [m] more iterations to go. *)
Lemma decode_array_loop_prefix (an : bool) (items : list pyobj)
    (bss : list bytes) :
  Forall2 (fun x bs => decodes_to bs x) items bss ->
  forall (fuel : nat) (m : Z) (res : list pyobj) (rest : bytes),
    0 < m ->
    (list_sum (map fuel_need items) <= fuel)%nat ->
    decode_array_loop an (List.length items + fuel)
      (Z.of_nat (List.length items) + m) res (List.concat bss ++ rest)
    = decode_array_loop an fuel m (res ++ items) rest.
Proof.
  induction 1 as [|x bs items bss D _ IH]; intros fuel m res rest M F.
  - cbn [List.length List.concat app Nat.add]. now rewrite app_nil_r.
  - cbn [map] in F. rewrite list_sum_cons in F.
    cbn [List.length Nat.add decode_array_loop].
    destruct (Z.leb_spec (Z.of_nat (S (List.length items)) + m) 0); [lia|].
    cbn [List.concat]. rewrite <- app_assoc.
    destruct (D an (List.concat bss ++ rest))
      as (tag & length & value & src1 & N & FB & SU & _ & C).
    rewrite N. cbn [bind]. rewrite FB.
    rewrite C by lia. cbn [bind].
    fold (stream_unit tag length). rewrite SU. cbn [bind].
    replace (Z.of_nat (S (List.length items)) + m - 1)
      with (Z.of_nat (List.length items) + m) by lia.
    rewrite IH by lia. now rewrite <- app_assoc.
Qed.

(** The listing of an unsized Array over the encodings of [items], with
    more of the source to go. *)
Lemma list_stream_prefix (an : bool) (items : list pyobj) (bss : list bytes) :
  Forall2 (fun x bs => decodes_to bs x) items bss ->
  forall (fuel : nat) (res : list pyobj) (rest : bytes),
    (1 + list_sum (map fuel_need items) <= fuel)%nat ->
    list_stream an (List.length items + fuel) PNone res ArrayStream
      (List.concat bss ++ rest)
    = list_stream an fuel PNone (res ++ items) ArrayStream rest.
Proof.
  induction 1 as [|x bs items bss D _ IH]; intros fuel res rest F.
  - cbn [List.length List.concat app Nat.add]. now rewrite app_nil_r.
  - cbn [map] in F. rewrite list_sum_cons in F.
    cbn [List.length Nat.add list_stream].
    destruct (List.length items + fuel)%nat as [|fuel'] eqn:Q; [lia|].
    cbn [array_stream].
    cbn [List.concat]. rewrite <- app_assoc.
    destruct (D an (List.concat bss ++ rest))
      as (tag & length & value & src1 & N & Fb & SU & _ & C).
    rewrite N. cbn [bind].
    destruct (not_forbidden _ Fb) as [_ ->].
    rewrite (C fuel') by lia. cbn [bind].
    unfold stream_unit in SU. rewrite SU. cbn [bind].
    rewrite <- Q, IH by lia. now rewrite <- app_assoc.
Qed.

(** The header the encoder writes for a container of [n] members is
    read back as a sized unit of length [n]. *)
Lemma sized_header (tag_s tag_l : byte) (n : Z) (hd : bytes) :
  In (tag_s, tag_l) [(ARRAY_S, ARRAY_L); (OBJECT_S, OBJECT_L)] ->
  0 <= n ->
  (if n <? 255 then size <- chr n ;; Ok (tag_s :: size)
   else size <- pack Fmt_I n ;; Ok (tag_l :: size)) = Ok hd ->
  exists tag : byte,
    (tag = tag_s \/ tag = tag_l)
    /\ (Byte.eqb tag tag_s && length_is (Some n) 255) = false
    /\ stream_unit tag (Some n) = false
    /\ forall (an : bool) (src : bytes),
         next_tlv an (hd ++ src) = Ok ((tag, Some n, PNone), src).
Proof.
  intros T P E.
  assert (B : n < 2 ^ 32).
  { destruct (Z.ltb_spec n (2 ^ 32)) as [B|B]; [exact B|]. exfalso.
    destruct (Z.ltb_spec n 255); [lia|].
    unfold pack in E. change (fmt_max Fmt_I) with (2 ^ 32 - 1) in E.
    destruct (Z.leb_spec n (2 ^ 32 - 1)); [lia|].
    rewrite andb_false_r in E. discriminate E. }
  destruct (container_header tag_s tag_l n T)
    as (tag & hd' & H & R); [lia|].
  rewrite H in E. inversion E; subst. now exists tag.
Qed.

(** The first byte of the UTF-8 form of a character is no continuation
    byte. *)
Lemma utf8_lead_byte (c : Z) :
  code_point c ->
  exists h t, utf8_encode_char c = h :: t
              /\ is_continuation (Z_of_byte h) = false.
Proof.
  unfold code_point, utf8_encode_char. intros R.
  destruct (Z.ltb_spec c 0x80); [|destruct (Z.ltb_spec c 0x800);
                                  [|destruct (Z.ltb_spec c 0x10000)]];
    eexists _, _; (split; [reflexivity|]);
    pose proof (Z.div_pos c 64 ltac:(lia) ltac:(lia));
    pose proof (Z.div_lt_upper_bound c 64 32 ltac:(lia));
    pose proof (Z.div_pos c 4096 ltac:(lia) ltac:(lia));
    pose proof (Z.div_lt_upper_bound c 4096 16 ltac:(lia));
    pose proof (Z.div_pos c 262144 ltac:(lia) ltac:(lia));
    pose proof (Z.div_lt_upper_bound c 262144 5 ltac:(lia));
    rewrite Z_of_byte_of_Z_small by lia;
    unfold is_continuation; decide_tests; reflexivity.
Qed.

Lemma utf8_decode_after_lead (b0 h : byte) (t : bytes) :
  0x80 <= Z_of_byte b0 ->
  is_continuation (Z_of_byte h) = false ->
  utf8_decode (b0 :: h :: t) = Raise utf8_error.
Proof.
  intros B H. cbn [utf8_decode].
  destruct (Z.ltb_spec (Z_of_byte b0) 128); [lia|].
  rewrite H. cbn [andb].
  repeat match goal with
         | |- (if ?c then _ else _) = _ => destruct c
         | |- match ?l with [] => _ | _ :: _ => _ end = _ => destruct l
         end; reflexivity.
Qed.

(** ** Properties of the encoder with the decoder *)

(** X6: whatever the object and the [default] transform, an encoding
    that is produced is not empty and opens with one of the nineteen
    marker bytes, never with [EOS]. *)
Theorem X6_encoding_opens_with_marker
    (default : option (pyobj -> result pyobj)) (fuel : nat) (obj : pyobj)
    (bs : bytes) :
  encode_next default fuel obj = Ok bs ->
  exists t tl, bs = t :: tl /\ mem t MARKERS = true /\ Byte.eqb t EOS = false.
Proof.
  revert obj bs.
  induction fuel as [|fuel IH]; intros obj bs H;
    rewrite encode_next_unfold in H;
    (destruct (encoder_dispatch (type_of obj)) as [h|]; [handler_head h obj H|]).
  - run_inv.
  - run_inv. eapply IH; eassumption.
Qed.

Lemma X6_witness :
  exists t tl, [ARRAY_S; xff; INT8; x07; EOS] = t :: tl
               /\ mem t MARKERS = true /\ Byte.eqb t EOS = false.
Proof.
  apply (X6_encoding_opens_with_marker None 0 (PIterator KGenerator [PInt 7])).
  reflexivity.
Defined.

(** X7: the encodings of the exactly carried values form a prefix code.
    If the encoding of one such value followed by some bytes equals the
    encoding of another followed by some bytes, the values and the
    bytes that follow are the same: a reader never needs a length or a
    separator between two encoded values. *)
Theorem X7_encodings_form_a_prefix_code
    (default : option (pyobj -> result pyobj)) (fuel : nat)
    (v w : pyobj) (bs bs' rest rest' : bytes) :
  exact_value v = true -> exact_value w = true ->
  encode_next default fuel v = Ok bs ->
  encode_next default fuel w = Ok bs' ->
  bs ++ rest = bs' ++ rest' ->
  v = w /\ bs = bs' /\ rest = rest'.
Proof.
  intros V W E E' Q.
  destruct (exact_value_round_trip default fuel v V) as (b1 & E1 & D1).
  destruct (exact_value_round_trip default fuel w W) as (b2 & E2 & D2).
  assert (b1 = bs) by congruence. assert (b2 = bs') by congruence. subst.
  pose proof (decodes_to_decode_next _ _ D1 false
                (fuel_need v + fuel_need w) rest ltac:(lia)) as R1.
  pose proof (decodes_to_decode_next _ _ D2 false
                (fuel_need v + fuel_need w) rest' ltac:(lia)) as R2.
  rewrite Q, R2 in R1. inversion R1; subst.
  split; [reflexivity|]. split; [congruence | reflexivity].
Qed.

Lemma X7_witness :
  PInt 300 = PInt 300 /\ [INT16; x01; "044"%byte] = [INT16; x01; "044"%byte]
  /\ [NULL] = [NULL].
Proof.
  apply (X7_encodings_form_a_prefix_code None 0 (PInt 300) (PInt 300)
           [INT16; x01; "044"%byte] [INT16; x01; "044"%byte] [NULL] [NULL]);
    reflexivity.
Defined.

(** X8: tuples, sets and frozensets are sent by the handler of the
    lists and come back as lists.  For a sequence of fewer than [2^32]
    exactly carried items, the three kinds have the encoding of the
    list of the same items, which decodes to that list. *)
Theorem X8_sequences_come_back_as_lists
    (default : option (pyobj -> result pyobj)) (fuel_e : nat)
    (l : list pyobj) :
  exact_value (PList l) = true ->
  exists bs,
    encode_next default fuel_e (PList l) = Ok bs
    /\ encode_next default fuel_e (PTuple l) = Ok bs
    /\ encode_next default fuel_e (PSet l) = Ok bs
    /\ encode_next default fuel_e (PFrozenset l) = Ok bs
    /\ forall (an : bool) (fuel : nat) (rest : bytes),
         (fuel_need (PList l) <= fuel)%nat ->
         decode_next an fuel (bs ++ rest) = Ok (PList l, rest).
Proof.
  intros V.
  destruct (exact_value_round_trip default fuel_e _ V) as (bs & E & D).
  exists bs. split; [exact E|].
  rewrite encode_next_unfold in E. cbn [type_of encoder_dispatch] in E.
  repeat (split; [rewrite encode_next_unfold; exact E|]).
  now apply decodes_to_decode_next.
Qed.

Lemma X8_witness :
  exists bs,
    encode_next None 0 (PList [PInt 1; PNone]) = Ok bs
    /\ encode_next None 0 (PTuple [PInt 1; PNone]) = Ok bs
    /\ encode_next None 0 (PSet [PInt 1; PNone]) = Ok bs
    /\ encode_next None 0 (PFrozenset [PInt 1; PNone]) = Ok bs
    /\ forall (an : bool) (fuel : nat) (rest : bytes),
         (fuel_need (PList [PInt 1; PNone]) <= fuel)%nat ->
         decode_next an fuel (bs ++ rest) = Ok (PList [PInt 1; PNone], rest).
Proof.
  apply (X8_sequences_come_back_as_lists None 0 [PInt 1; PNone]).
  reflexivity.
Defined.

(** X9: an integer beyond 64 bits is sent as a high-precision number
    and comes back as the decimal of the same value, not as an integer. *)
Theorem X9_big_integers_come_back_as_decimals
    (default : option (pyobj -> result pyobj)) (fuel_e : nat) (z : Z) :
  z < - 2 ^ 63 \/ 2 ^ 63 - 1 < z ->
  Z.of_nat (List.length (Decimal_str (Decimal_of_int z))) <= 2 ^ 31 - 1 ->
  exists bs,
    encode_next default fuel_e (PInt z) = Ok bs
    /\ forall (an : bool) (fuel : nat) (rest : bytes),
         (1 <= fuel)%nat ->
         decode_next an fuel (bs ++ rest)
         = Ok (PDecimal (Decimal_of_int z), rest).
Proof.
  intros R L.
  destruct (encode_decimal_ok _ L) as (bs & E).
  exists bs. split.
  - rewrite encode_next_unfold. cbn [type_of].
    assert (T : (- 2 ^ 63 <=? z) && (z <=? 2 ^ 63 - 1) = false).
    { destruct (Z.leb_spec (- 2 ^ 63) z), (Z.leb_spec z (2 ^ 63 - 1));
        try reflexivity; lia. }
    rewrite T. cbn [encoder_dispatch]. unfold encode_int.
    rewrite T.
    replace ((- 2 ^ 7 <=? z) && (z <=? 2 ^ 7 - 1)) with false
      by (destruct (Z.leb_spec (- 2 ^ 7) z), (Z.leb_spec z (2 ^ 7 - 1));
          try reflexivity; lia).
    replace ((- 2 ^ 15 <=? z) && (z <=? 2 ^ 15 - 1)) with false
      by (destruct (Z.leb_spec (- 2 ^ 15) z), (Z.leb_spec z (2 ^ 15 - 1));
          try reflexivity; lia).
    replace ((- 2 ^ 31 <=? z) && (z <=? 2 ^ 31 - 1)) with false
      by (destruct (Z.leb_spec (- 2 ^ 31) z), (Z.leb_spec z (2 ^ 31 - 1));
          try reflexivity; lia).
    exact E.
  - apply (decodes_to_decode_next bs (PDecimal (Decimal_of_int z))).
    apply decodes_to_decimal; [|exact E].
    unfold Decimal_of_int. cbn [exact_value]. now apply Z.leb_le.
Qed.

Lemma X9_witness :
  exists bs,
    encode_next None 0 (PInt (2 ^ 63)) = Ok bs
    /\ forall (an : bool) (fuel : nat) (rest : bytes),
         (1 <= fuel)%nat ->
         decode_next an fuel (bs ++ rest)
         = Ok (PDecimal (Decimal_of_int (2 ^ 63)), rest).
Proof.
  apply (X9_big_integers_come_back_as_decimals None 0 (2 ^ 63)).
  - right. reflexivity.
  - vm_compute. discriminate.
Defined.

(** X10: a byte string of fewer than 255 bytes is sent as it is under
    the short string tag, and the decoder reads it as UTF-8: it comes
    back as the text it encodes, or the decoder raises the error of the
    codec when it encodes none. *)
Theorem X10_byte_strings_come_back_as_text
    (default : option (pyobj -> result pyobj)) (fuel_e : nat) (s : bytes) :
  Z.of_nat (List.length s) < 255 ->
  encode_next default fuel_e (PStr s)
  = Ok (STRING_S :: byte_of_Z (Z.of_nat (List.length s)) :: s)
  /\ forall (an : bool) (fuel : nat) (rest : bytes),
       decode_next an (S fuel)
         (STRING_S :: byte_of_Z (Z.of_nat (List.length s)) :: s ++ rest)
       = (cs <- utf8_decode s ;; Ok (PUnicode cs, rest)).
Proof.
  intros L. split.
  - rewrite encode_next_unfold. cbn [type_of encoder_dispatch].
    unfold encode_str. cbn [bind].
    destruct (Z.ltb_spec (Z.of_nat (List.length s)) 255); [|lia].
    rewrite chr_byte by lia. reflexivity.
  - intros an fuel rest. unfold decode_next. read_unit.
    rewrite read_one. cbn [ord bind].
    rewrite Z_of_byte_of_Z_small by lia.
    destruct (Z.ltb_spec (Z.of_nat (List.length s)) 255); [|lia].
    rewrite read_app. cbn [bind call].
    change (decoder_dispatch STRING_S) with (Some H_string). cbv iota.
    unfold decode_string, str_decode.
    destruct (utf8_decode s); reflexivity.
Qed.

Lemma X10_witness :
  encode_next None 0 (PStr [x41; xc3; xa9])
  = Ok (STRING_S :: byte_of_Z (Z.of_nat (List.length [x41; xc3; xa9]))
                 :: [x41; xc3; xa9])
  /\ forall (an : bool) (fuel : nat) (rest : bytes),
       decode_next an (S fuel)
         (STRING_S :: byte_of_Z (Z.of_nat (List.length [x41; xc3; xa9]))
                   :: [x41; xc3; xa9] ++ rest)
       = (cs <- utf8_decode [x41; xc3; xa9] ;; Ok (PUnicode cs, rest)).
Proof.
  apply (X10_byte_strings_come_back_as_text None 0 [x41; xc3; xa9]).
  cbn. lia.
Defined.

(** X11: a decoder that does not keep [Noop] reads through any run of
    [Noop] bytes before a unit, wherever a unit is read; a decoder that
    keeps them returns the sentinel for the first. *)
Theorem X11_noop_bytes_before_a_unit (fuel k : nat) (src : bytes) :
  next_tlv false (repeat NOOP k ++ src) = next_tlv false src
  /\ decode_next false fuel (repeat NOOP k ++ src) = decode_next false fuel src
  /\ decode_next true (S fuel) (repeat NOOP (S k) ++ src)
     = Ok (PNoop, repeat NOOP k ++ src).
Proof.
  assert (R : read_tag false (repeat NOOP k ++ src) = read_tag false src).
  { induction k as [|k IH]; [reflexivity | exact IH]. }
  assert (N : next_tlv false (repeat NOOP k ++ src) = next_tlv false src).
  { unfold next_tlv. now rewrite R. }
  split; [exact N|]. split; [|reflexivity].
  unfold decode_next. now rewrite N.
Qed.

(** X12: the encoder does not look at the keys of a mapping, the decoder
    does.  A mapping of fewer than 2^32 pairs whose keys and values are
    exactly carried values, and whose first key is not a text (an
    integer, [None], a float, ...), is encoded: the bytes are the header
    of a sized Object and the encodings of the keys and values.  The
    decoder refuses these bytes with the [ValueError] of a key that is
    not a string. *)
Theorem X12_mapping_with_a_key_that_is_no_text
    (default : option (pyobj -> result pyobj)) (fuel_e : nat)
    (k v : pyobj) (d : list (pyobj * pyobj)) :
  exact_value k = true -> is_unicode k = false ->
  forallb (fun kv => exact_value (fst kv) && exact_value (snd kv))
          ((k, v) :: d) = true ->
  Z.of_nat (List.length ((k, v) :: d)) < 2 ^ 32 ->
  exists ps : list (bytes * bytes),
    Forall2 (fun kv p => encode_next default fuel_e (fst kv) = Ok (fst p)
                         /\ encode_next default fuel_e (snd kv) = Ok (snd p))
            ((k, v) :: d) ps
    /\ let length := Z.of_nat (List.length ((k, v) :: d)) in
       let bs := (if length <? 255 then [OBJECT_S; byte_of_Z length]
                  else OBJECT_L :: be_bytes 4 length)
                 ++ List.concat (map (fun p => fst p ++ snd p) ps) in
       encode_next default fuel_e (PDict ((k, v) :: d)) = Ok bs
       /\ forall (an : bool) (fuel : nat) (rest : bytes),
            (fuel_need k + 2 <= fuel)%nat ->
            decode_next an fuel (bs ++ rest)
            = Raise (ValueError "key should be string, got %r").
Proof.
  intros V U A B.
  set (n := Z.of_nat (List.length ((k, v) :: d))) in *.
  assert (P : 1 <= n) by (unfold n; cbn [List.length]; lia).
  assert (Es : exists ps,
             Forall2 (fun kv p =>
                        encode_next default fuel_e (fst kv) = Ok (fst p)
                        /\ encode_next default fuel_e (snd kv) = Ok (snd p))
                     ((k, v) :: d) ps).
  { clear - A. induction ((k, v) :: d) as [|[k' v'] l IH].
    - exists []. constructor.
    - cbn [forallb fst snd] in A. apply andb_prop in A as [A1 A2].
      apply andb_prop in A1 as [Ak Av].
      destruct (exact_value_round_trip default fuel_e k' Ak) as (bk & Ek & _).
      destruct (exact_value_round_trip default fuel_e v' Av) as (bv & Ev & _).
      destruct (IH A2) as (ps & Es).
      exists ((bk, bv) :: ps). constructor; [now split | exact Es]. }
  destruct Es as (ps & Es).
  destruct (container_header OBJECT_S OBJECT_L n)
    as (tag & hd & H & T & NS & SU & N); [cbn; tauto | lia |].
  assert (E : encode_next default fuel_e (PDict ((k, v) :: d))
              = Ok (hd ++ List.concat (map (fun p => fst p ++ snd p) ps))).
  { rewrite encode_next_unfold. cbn [type_of encoder_dispatch].
    unfold encode_dict. fold n. cbn [join]. rewrite H. cbn [bind].
    now rewrite (join_pairs_ok _ _ _ Es). }
  assert (Hd : hd = if n <? 255 then [OBJECT_S; byte_of_Z n]
                    else OBJECT_L :: be_bytes 4 n).
  { revert H. destruct (Z.ltb_spec n 255) as [L|L].
    - rewrite chr_byte by lia. intros Q. now inversion Q.
    - unfold pack. change (fmt_min Fmt_I) with 0.
      change (fmt_max Fmt_I) with (2 ^ 32 - 1).
      destruct (Z.leb_spec 0 n); [|lia].
      destruct (Z.leb_spec n (2 ^ 32 - 1)); [|lia].
      cbn [andb bind]. intros Q. now inversion Q. }
  exists ps. split; [exact Es|]. cbv zeta. fold n. subst hd.
  split; [exact E|].
  intros an fuel rest F.
  inversion Es as [|kv [bk bv] d' ps' [Ek Ev] Es']; subst.
  cbn [fst snd] in Ek.
  destruct (exact_value_round_trip default fuel_e k V) as (bk' & Ek' & D).
  rewrite Ek in Ek'. inversion Ek'; subst bk'.
  cbn [map List.concat fst snd].
  rewrite <- !app_assoc. unfold decode_next. rewrite N. cbn [bind].
  match goal with
  | |- context [bk ++ ?r] =>
    destruct (D an r) as (t & len & val & src1 & Nk & Fk & _ & _ & C)
  end.
  assert (K : mem t OBJECT_KEYS = false).
  { destruct (mem t OBJECT_KEYS) eqn:M; [|reflexivity].
    pose proof (call_key _ _ _ _ _ _ _ _ M (C _ (le_n _))) as Q.
    congruence. }
  destruct fuel as [|[|fuel]]; try lia.
  assert (O : decoder_dispatch tag = Some H_object)
    by (destruct T as [-> | ->]; reflexivity).
  cbn [call]. rewrite O. unfold decode_object. rewrite NS.
  cbn [option_map range bind decode_object_loop].
  destruct (Z.leb_spec (n * 2) 0); [lia|].
  rewrite Nk. cbn [bind]. rewrite Fk, K. reflexivity.
Qed.

Lemma X12_witness :
  exists ps : list (bytes * bytes),
    Forall2 (fun kv p => encode_next None 0 (fst kv) = Ok (fst p)
                         /\ encode_next None 0 (snd kv) = Ok (snd p))
            [(PInt 1, PInt 2)] ps
    /\ let length := Z.of_nat (List.length [(PInt 1, PInt 2)]) in
       let bs := (if length <? 255 then [OBJECT_S; byte_of_Z length]
                  else OBJECT_L :: be_bytes 4 length)
                 ++ List.concat (map (fun p => fst p ++ snd p) ps) in
       encode_next None 0 (PDict [(PInt 1, PInt 2)]) = Ok bs
       /\ forall (an : bool) (fuel : nat) (rest : bytes),
            (fuel_need (PInt 1) + 2 <= fuel)%nat ->
            decode_next an fuel (bs ++ rest)
            = Raise (ValueError "key should be string, got %r").
Proof.
  apply (X12_mapping_with_a_key_that_is_no_text None 0 (PInt 1) (PInt 2) []);
    reflexivity.
Defined.

(** X13: generators, [xrange] objects and the key and value iterators
    of a [dict] are sent as an unsized Array, and there is no bound on
    their number of items.  When the items are exactly carried values,
    the bytes are the unsized header, the encodings of the items and
    [EOS]; the decoder returns a generator for them, whose listing is
    the list of the items. *)
Theorem X13_generators_round_trip
    (default : option (pyobj -> result pyobj)) (fuel_e : nat)
    (kind : iter_kind) (items : list pyobj) :
  forallb exact_value items = true ->
  exists bs,
    encode_next default fuel_e (PIterator kind items)
    = Ok (ARRAY_S :: xff :: bs ++ [EOS])
    /\ forall (an : bool) (fuel : nat) (rest : bytes),
         (2 + list_sum (map (fun x => S (fuel_need x)) items) <= fuel)%nat ->
         decode_next an fuel (ARRAY_S :: xff :: bs ++ EOS :: rest)
         = Ok (PStream ArrayStream, bs ++ EOS :: rest)
         /\ decode_and_list an fuel (ARRAY_S :: xff :: bs ++ EOS :: rest)
            = Ok (PList items, rest).
Proof.
  intros V.
  destruct (collect_items (encode_next default fuel_e) items) as (bss & Es & Ds);
    [|exact V|].
  { apply Forall_forall. intros x _. apply exact_value_round_trip. }
  exists (List.concat bss). split.
  - rewrite encode_next_unfold.
    assert (T : encoder_dispatch (type_of (PIterator kind items))
                = Some E_generator) by (destruct kind; reflexivity).
    rewrite T. unfold encode_generator. cbn [join].
    change (chr 255) with (Ok [xff]). cbn [bind].
    rewrite join_app, (join_map_ok _ _ _ Es). reflexivity.
  - intros an fuel rest F.
    assert (N : decode_next an fuel
                  (ARRAY_S :: xff :: List.concat bss ++ EOS :: rest)
                = Ok (PStream ArrayStream, List.concat bss ++ EOS :: rest)).
    { destruct fuel as [|fuel]; [lia|]. unfold decode_next. read_unit.
      rewrite read_one. reflexivity. }
    split; [exact N|].
    unfold decode_and_list. rewrite N. cbn [bind].
    unfold materialize. cbn [py_list].
    now rewrite (list_stream_items an items bss Ds fuel [] rest F).
Qed.

Lemma X13_witness :
  exists bs,
    encode_next None 0 (PIterator KXRange [PInt 0; PInt 1; PInt 2])
    = Ok (ARRAY_S :: xff :: bs ++ [EOS])
    /\ forall (an : bool) (fuel : nat) (rest : bytes),
         (2 + list_sum (map (fun x => S (fuel_need x)) [PInt 0; PInt 1; PInt 2])
          <= fuel)%nat ->
         decode_next an fuel (ARRAY_S :: xff :: bs ++ EOS :: rest)
         = Ok (PStream ArrayStream, bs ++ EOS :: rest)
         /\ decode_and_list an fuel (ARRAY_S :: xff :: bs ++ EOS :: rest)
            = Ok (PList [PInt 0; PInt 1; PInt 2], rest).
Proof.
  apply (X13_generators_round_trip None 0 KXRange [PInt 0; PInt 1; PInt 2]).
  reflexivity.
Defined.

(** X14: the item iterator of a [dict] is sent as an unsized Object and
    comes back, listed, as the pairs in the order sent; keys may repeat
    and their number is not bounded.  This holds when the keys are
    exactly carried texts and the values exactly carried values other
    than mappings. *)
Theorem X14_dict_items_round_trip
    (default : option (pyobj -> result pyobj)) (fuel_e : nat)
    (d : list (pyobj * pyobj)) :
  forallb (fun kv => is_unicode (fst kv) && exact_value (fst kv)
                     && exact_value (snd kv)) d = true ->
  forallb (fun kv => negb (is_dict (snd kv))) d = true ->
  exists bs,
    encode_next default fuel_e (PDictItems d)
    = Ok (OBJECT_S :: xff :: bs ++ [EOS])
    /\ forall (an : bool) (fuel : nat) (rest : bytes),
         (2 + list_sum
                (map (fun kv => 2 + fuel_need (fst kv) + fuel_need (snd kv)) d)
          <= fuel)%nat ->
         decode_and_list an fuel (OBJECT_S :: xff :: bs ++ EOS :: rest)
         = Ok (PList (map (fun kv => PTuple [fst kv; snd kv]) d), rest).
Proof.
  intros V ND.
  destruct (collect_pairs (encode_next default fuel_e) d) as (ps & Es & Ds);
    [|exact V|].
  { apply Forall_forall. intros x _.
    split; apply exact_value_round_trip. }
  exists (List.concat (map (fun p => fst p ++ snd p) ps)). split.
  - rewrite encode_next_unfold. cbn [type_of encoder_dispatch].
    unfold encode_dictitems. cbn [join].
    change (chr 255) with (Ok [xff]). cbn [bind].
    rewrite dictitems_pieces.
    + rewrite join_app, (join_pairs_ok _ _ _ Es). reflexivity.
    + clear - V. induction d as [|[k v] d IH]; [reflexivity|].
      cbn [forallb fst snd] in *. apply andb_prop in V as [V1 V2].
      apply andb_prop in V1 as [V1 _]. apply andb_prop in V1 as [V1 _].
      rewrite IH by exact V2. destruct k; try discriminate V1. reflexivity.
  - intros an fuel rest F.
    assert (N : decode_next an fuel
                  (OBJECT_S :: xff
                   :: List.concat (map (fun p => fst p ++ snd p) ps)
                      ++ EOS :: rest)
                = Ok (PStream ObjectStream,
                      List.concat (map (fun p => fst p ++ snd p) ps)
                      ++ EOS :: rest)).
    { destruct fuel as [|fuel]; [lia|]. unfold decode_next. read_unit.
      rewrite read_one. reflexivity. }
    unfold decode_and_list. rewrite N. cbn [bind].
    unfold materialize. cbn [py_list].
    rewrite (list_stream_pairs an d ps); [reflexivity | | exact F].
    clear - Ds ND. induction Ds as [|kv p d ps (U & Dk & Dv) _ IH];
      [constructor|].
    cbn [forallb] in ND. apply andb_prop in ND as [N1 N2].
    constructor; [|now apply IH].
    repeat split; try assumption. now apply negb_true_iff in N1.
Qed.

Lemma X14_witness :
  exists bs,
    encode_next None 0
      (PDictItems [(PUnicode [97%Z], PInt 1); (PUnicode [97%Z], PList [PNone])])
    = Ok (OBJECT_S :: xff :: bs ++ [EOS])
    /\ forall (an : bool) (fuel : nat) (rest : bytes),
         (2 + list_sum
                (map (fun kv => 2 + fuel_need (fst kv) + fuel_need (snd kv))
                     [(PUnicode [97%Z], PInt 1); (PUnicode [97%Z], PList [PNone])])
          <= fuel)%nat ->
         decode_and_list an fuel (OBJECT_S :: xff :: bs ++ EOS :: rest)
         = Ok (PList (map (fun kv => PTuple [fst kv; snd kv])
                          [(PUnicode [97%Z], PInt 1);
                           (PUnicode [97%Z], PList [PNone])]), rest).
Proof.
  apply (X14_dict_items_round_trip None 0
           [(PUnicode [97%Z], PInt 1); (PUnicode [97%Z], PList [PNone])]);
    reflexivity.
Defined.

(** X15: the handler of the item iterators checks the keys, one pair at
    a time.  When the pairs before the first key that is no string are
    texts with exactly carried values, the encoding stops at that key,
    whatever follows it: with the [EncodeError] of the key when the key
    is no tuple; for a tuple key the message is formatted with the tuple
    as the arguments of [%], so that a 1-tuple gives the [EncodeError]
    of its item and every other tuple a [TypeError]. *)
Theorem X15_dict_items_key_that_is_no_string
    (default : option (pyobj -> result pyobj)) (fuel : nat)
    (pre : list (pyobj * pyobj)) (k v : pyobj) (post : list (pyobj * pyobj)) :
  forallb (fun kv => is_unicode (fst kv) && exact_value (fst kv)
                     && exact_value (snd kv)) pre = true ->
  is_basestring k = false ->
  encode_next default fuel (PDictItems (pre ++ (k, v) :: post))
  = match tuple_items k with
    | None => Raise (EncodeError "invalid object key %r" k)
    | Some [x] => Raise (EncodeError "invalid object key %r" x)
    | Some [] => Raise (TypeError "not enough arguments for format string")
    | Some (_ :: _ :: _) =>
      Raise (TypeError "not all arguments converted during string formatting")
    end.
Proof.
  intros V K.
  destruct (collect_pairs (encode_next default fuel) pre) as (ps & Es & _);
    [|exact V|].
  { apply Forall_forall. intros x _. split; apply exact_value_round_trip. }
  rewrite encode_next_unfold. cbn [type_of encoder_dispatch].
  unfold encode_dictitems. cbn [join].
  change (chr 255) with (Ok [xff]). cbn [bind].
  rewrite flat_map_app, <- app_assoc, join_app, dictitems_pieces.
  - rewrite (join_pairs_ok _ _ _ Es). cbn [bind flat_map fst snd].
    rewrite K. cbn [negb app join]. unfold format_r.
    destruct (tuple_items k) as [[|x [|y l]]|]; reflexivity.
  - clear - V. induction pre as [|[k' v'] d IH]; [reflexivity|].
    cbn [forallb fst snd] in *. apply andb_prop in V as [V1 V2].
    apply andb_prop in V1 as [V1 _]. apply andb_prop in V1 as [V1 _].
    rewrite IH by exact V2. destruct k'; try discriminate V1. reflexivity.
Qed.

Lemma X15_witness :
  encode_next None 0
    (PDictItems ([(PUnicode [97], PInt 1)] ++ (PInt 2, PNone) :: []))
  = Raise (EncodeError "invalid object key %r" (PInt 2))
  /\ encode_next None 0
       (PDictItems ([(PUnicode [97], PInt 1)]
                    ++ (PTuple [PInt 1; PInt 2], PNone) :: []))
     = Raise (TypeError "not all arguments converted during string formatting").
Proof.
  split.
  - apply (X15_dict_items_key_that_is_no_string None 0
             [(PUnicode [97], PInt 1)] (PInt 2) PNone []);
      reflexivity.
  - apply (X15_dict_items_key_that_is_no_string None 0
             [(PUnicode [97], PInt 1)] (PTuple [PInt 1; PInt 2]) PNone []);
      reflexivity.
Defined.



(** X17: the decoder is the iterator of the values of its source.  The
    encodings of exactly carried values, one after another, are read
    back one value for each call of [next], and the source is left at
    what follows them. *)
Theorem X17_values_one_after_another
    (default : option (pyobj -> result pyobj)) (fuel_e : nat)
    (vs : list pyobj) :
  forallb exact_value vs = true ->
  exists bss,
    Forall2 (fun v bs => encode_next default fuel_e v = Ok bs) vs bss
    /\ forall (an : bool) (fuel : nat) (rest : bytes),
         (list_sum (map fuel_need vs) <= fuel)%nat ->
         next_values an fuel (List.length vs) (List.concat bss ++ rest)
         = Ok (vs, rest).
Proof.
  intros V.
  destruct (collect_items (encode_next default fuel_e) vs) as (bss & Es & Ds);
    [|exact V|].
  { apply Forall_forall. intros x _. apply exact_value_round_trip. }
  exists bss. split; [exact Es|].
  intros an fuel rest. clear - Ds.
  induction Ds as [|v bs vs bss D _ IH]; intros F; [reflexivity|].
  cbn [map] in F. rewrite list_sum_cons in F.
  cbn [List.length next_values List.concat]. rewrite <- app_assoc.
  rewrite (decodes_to_decode_next _ _ D) by lia. cbn [bind].
  rewrite IH by lia. reflexivity.
Qed.

Lemma X17_witness :
  exists bss,
    Forall2 (fun v bs => encode_next None 0 v = Ok bs)
            [PInt 1; PList [PNone]] bss
    /\ forall (an : bool) (fuel : nat) (rest : bytes),
         (list_sum (map fuel_need [PInt 1; PList [PNone]]) <= fuel)%nat ->
         next_values an fuel (List.length [PInt 1; PList [PNone]])
           (List.concat bss ++ rest)
         = Ok ([PInt 1; PList [PNone]], rest).
Proof.
  apply (X17_values_one_after_another None 0 [PInt 1; PList [PNone]]).
  reflexivity.
Defined.

(** X18: zero and the floats below [2.23e-308] in magnitude are sent as
    high-precision numbers: they come back as the decimal of the same
    value (of the same sign for a zero), not as floats. *)
Theorem X18_tiny_floats_come_back_as_decimals
    (default : option (pyobj -> result pyobj)) (fuel_e : nat)
    (f : spec_float) :
  float_is_finite f = true ->
  SFltb (SFabs f) float_2_23e_308 = true ->
  Z.of_nat (List.length (Decimal_str (Decimal_of_float f))) <= 2 ^ 31 - 1 ->
  exists bs,
    encode_next default fuel_e (PFloat f) = Ok bs
    /\ forall (an : bool) (fuel : nat) (rest : bytes),
         (1 <= fuel)%nat ->
         decode_next an fuel (bs ++ rest)
         = Ok (PDecimal (Decimal_of_float f), rest).
Proof.
  intros Fin T L.
  destruct (encode_decimal_ok _ L) as (bs & E).
  exists bs. split.
  - rewrite encode_next_unfold. cbn [type_of encoder_dispatch].
    unfold encode_float.
    assert (Q : SFleb float_1_18e_38 (SFabs f) = false
                /\ SFleb float_2_23e_308 (SFabs f) = false
                /\ SFeqb f float_inf = false
                /\ SFeqb f float_neg_inf = false).
    { destruct f as [s|s| |s m e]; try discriminate Fin.
      - repeat split; destruct s; reflexivity.
      - assert (C : forall m1 e1 m2 e2,
                   SFcompare (S754_finite false m1 e1) (S754_finite false m2 e2)
                   = Some match e1 ?= e2 with
                          | Eq => Pos.compare m1 m2
                          | Lt => Lt
                          | Gt => Gt
                          end).
        { intros m1 e1 m2 e2. cbn [SFcompare].
          destruct (e1 ?= e2); reflexivity. }
        revert T. cbn [SFabs].
        unfold SFltb, SFleb, float_2_23e_308, float_1_18e_38. rewrite !C.
        split; [|split; [|split; destruct s; reflexivity]]; revert T;
          destruct (Z.compare_spec e (-1074)) as [Q|Q|Q]; try discriminate;
          intros T.
        + subst e. reflexivity.
        + replace (-178 ?= e) with Gt
            by (symmetry; apply Z.compare_gt_iff; lia).
          reflexivity.
        + subst e. rewrite Z.compare_refl, (Pos.compare_antisym m).
          destruct (Pos.compare m 4513570248753027); try discriminate T.
          reflexivity.
        + replace (-1074 ?= e) with Gt
            by (symmetry; apply Z.compare_gt_iff; lia).
          reflexivity. }
    destruct Q as (Q1 & Q2 & Q3 & Q4). rewrite Q1, Q2, Q3, Q4. exact E.
  - apply (decodes_to_decode_next bs (PDecimal (Decimal_of_float f))).
    apply decodes_to_decimal; [|exact E].
    destruct f as [s|s| |s m e]; try discriminate Fin;
      cbn [Decimal_of_float] in *.
    + cbn [exact_value]. now apply Z.leb_le.
    + destruct (0 <=? e); [cbn [exact_value]; now apply Z.leb_le|].
      destruct (pos_twos m) as [t r].
      cbn [exact_value]. now apply Z.leb_le.
Qed.

Lemma X18_witness :
  exists bs,
    encode_next None 0 (PFloat (S754_finite true 1 (-1074))) = Ok bs
    /\ forall (an : bool) (fuel : nat) (rest : bytes),
         (1 <= fuel)%nat ->
         decode_next an fuel (bs ++ rest)
         = Ok (PDecimal (Decimal_of_float (S754_finite true 1 (-1074))), rest).
Proof.
  apply (X18_tiny_floats_come_back_as_decimals None 0
           (S754_finite true 1 (-1074))).
  - reflexivity.
  - reflexivity.
  - vm_compute. discriminate.
Defined.

(** X19: containers that end before their time.  When the source ends
    after the encodings of some exactly carried items, a sized Array
    that announced more items and the listing of an unsized Array, which
    still waits for [EOS], both fail with the [EarlyEndOfStreamError] of
    a decoder that has nothing to decode. *)
Theorem X19_containers_cut_short
    (default : option (pyobj -> result pyobj)) (fuel_e : nat)
    (an : bool) (items : list pyobj) (fuel : nat) :
  forallb exact_value items = true ->
  (3 + List.length items + list_sum (map fuel_need items) <= fuel)%nat ->
  exists bss,
    Forall2 (fun x bs => encode_next default fuel_e x = Ok bs) items bss
    /\ (forall src tag n value,
           next_tlv an src = Ok ((tag, Some n, value), List.concat bss) ->
           In tag [ARRAY_S; ARRAY_L] -> (tag = ARRAY_S -> n <> 255) ->
           Z.of_nat (List.length items) < n ->
           decode_next an fuel src
           = Raise (EarlyEndOfStreamError "nothing to decode" None))
    /\ decode_and_list an fuel (ARRAY_S :: xff :: List.concat bss)
       = Raise (EarlyEndOfStreamError "nothing to decode" None).
Proof.
  intros V F.
  destruct (collect_items (encode_next default fuel_e) items) as (bss & Es & D);
    [|exact V|].
  { apply Forall_forall. intros x _. apply exact_value_round_trip. }
  exists bss. split; [exact Es|].
  split.
  - intros src tag n value N T U L.
    unfold decode_next. rewrite N. cbn [bind].
    replace fuel
      with (S (List.length items + (fuel - 1 - List.length items)))%nat by lia.
    assert (O : decoder_dispatch tag = Some H_array)
      by (destruct T as [<- | [<- | []]]; reflexivity).
    cbn [call]. rewrite O. unfold decode_array.
    replace (Byte.eqb tag ARRAY_S && length_is (Some n) 255) with false.
    2:{ symmetry. destruct T as [<- | [<- | []]]; [|reflexivity].
        cbn [length_is]. destruct (Z.eqb_spec n 255); [now elim U|].
        apply andb_false_r. }
    cbn [range bind].
    replace n
      with (Z.of_nat (List.length items) + (n - Z.of_nat (List.length items)))
      by lia.
    rewrite <- (app_nil_r (List.concat bss)).
    rewrite (decode_array_loop_prefix an items bss D) by lia.
    destruct (fuel - 1 - List.length items)%nat as [|fuel'] eqn:Q; [lia|].
    cbn [decode_array_loop].
    destruct (Z.leb_spec (n - Z.of_nat (List.length items)) 0); [lia|].
    reflexivity.
  - assert (N : decode_next an fuel (ARRAY_S :: xff :: List.concat bss)
                = Ok (PStream ArrayStream, List.concat bss)).
    { destruct fuel as [|fuel]; [lia|]. unfold decode_next. read_unit.
      rewrite read_one. reflexivity. }
    unfold decode_and_list. rewrite N. cbn [bind].
    unfold materialize. cbn [py_list].
    replace fuel
      with (List.length items + (fuel - List.length items))%nat by lia.
    rewrite <- (app_nil_r (List.concat bss)).
    rewrite (list_stream_prefix an items bss D) by lia.
    destruct (fuel - List.length items)%nat as [|[|fuel']] eqn:Q; try lia.
    reflexivity.
Qed.

Lemma X19_witness :
  exists bss,
    Forall2 (fun x bs => encode_next None 0 x = Ok bs) [PInt 1; PNone] bss
    /\ (forall src tag n value,
           next_tlv true src = Ok ((tag, Some n, value), List.concat bss) ->
           In tag [ARRAY_S; ARRAY_L] -> (tag = ARRAY_S -> n <> 255) ->
           Z.of_nat (List.length [PInt 1; PNone]) < n ->
           decode_next true 7 src
           = Raise (EarlyEndOfStreamError "nothing to decode" None))
    /\ decode_and_list true 7 (ARRAY_S :: xff :: List.concat bss)
       = Raise (EarlyEndOfStreamError "nothing to decode" None).
Proof.
  apply (X19_containers_cut_short None 0 true [PInt 1; PNone] 7).
  - reflexivity.
  - cbn. lia.
Defined.

(** X20: a sized container is never read as an unsized one.  The
    encoder gives a tuple, list, set, frozenset or mapping of 255
    members or more the long header, so that the short header never
    carries the length 255 that opens an unsized container: whatever
    the members, when the decoder returns on the encoding of such an
    object it returns a list or a mapping, not a generator. *)
Theorem X20_sized_containers_stay_sized
    (default : option (pyobj -> result pyobj)) (fuel_e : nat) (obj : pyobj)
    (bs : bytes) :
  In (encoder_dispatch (type_of obj)) [Some E_sequence; Some E_dict] ->
  encode_next default fuel_e obj = Ok bs ->
  forall (an : bool) (fuel : nat) (rest : bytes) (v : pyobj) (rest' : bytes),
    decode_next an fuel (bs ++ rest) = Ok (v, rest') ->
    (exists l, v = PList l) \/ (exists d, v = PDict d).
Proof.
  intros T E an fuel rest v rest' H.
  rewrite encode_next_unfold in E.
  assert (G : exists tag_s tag_l n hd more,
             In (tag_s, tag_l) [(ARRAY_S, ARRAY_L); (OBJECT_S, OBJECT_L)]
             /\ 0 <= n
             /\ (if n <? 255 then size <- chr n ;; Ok (tag_s :: size)
                 else size <- pack Fmt_I n ;; Ok (tag_l :: size)) = Ok hd
             /\ bs = hd ++ more).
  { destruct T as [T | [T | []]]; rewrite <- T in E;
      destruct obj; try discriminate T; try discriminate E;
      unfold encode_sequence, encode_dict in E; cbn [join] in E;
      match type of E with
      | bind ?h _ = Ok _ => destruct h as [hd| |] eqn:Q; try discriminate E
      end;
      cbn [bind] in E;
      match type of E with
      | bind ?j _ = Ok _ => destruct j as [more| |]; try discriminate E
      end;
      cbn [bind] in E; inversion E; subst;
      [exists ARRAY_S, ARRAY_L | exists ARRAY_S, ARRAY_L
       | exists ARRAY_S, ARRAY_L | exists ARRAY_S, ARRAY_L
       | exists OBJECT_S, OBJECT_L];
      eexists _, hd, more;
      (split; [cbn; tauto|]); (split; [apply Nat2Z.is_nonneg|]);
      (split; [exact Q | reflexivity]). }
  destruct G as (tag_s & tag_l & n & hd & more & I & P & Q & ->).
  destruct (sized_header _ _ _ _ I P Q) as (tag & Tg & NS & SU & N).
  rewrite <- app_assoc in H. unfold decode_next in H. rewrite N in H.
  cbn [bind] in H. destruct fuel as [|fuel]; [discriminate H|].
  destruct (decoder_values an fuel) as (_ & Va & Vo & _).
  cbn [call] in H.
  destruct I as [I | [I | []]]; inversion I; subst; clear I;
    destruct Tg as [-> | ->];
    cbn [decoder_dispatch] in H;
    try change (decoder_dispatch ARRAY_S) with (Some H_array) in H;
    try change (decoder_dispatch ARRAY_L) with (Some H_array) in H;
    try change (decoder_dispatch OBJECT_S) with (Some H_object) in H;
    try change (decoder_dispatch OBJECT_L) with (Some H_object) in H;
    unfold decode_array, decode_object in H;
    try change (Byte.eqb ARRAY_L ARRAY_S) with false in H;
    try change (Byte.eqb OBJECT_L OBJECT_S) with false in H;
    rewrite ?NS in H; cbn [andb range option_map bind] in H.
  - destruct (Va _ _ _ _ _ H eq_refl) as (l & -> & _). left. eauto.
  - destruct (Va _ _ _ _ _ H eq_refl) as (l & -> & _). left. eauto.
  - destruct (Vo _ _ _ _ _ _ H eq_refl eq_refl) as (d & -> & _). right. eauto.
  - destruct (Vo _ _ _ _ _ _ H eq_refl eq_refl) as (d & -> & _). right. eauto.
Qed.

Lemma X20_witness :
  (exists l, PList (repeat PNone 255) = PList l)
  \/ (exists d, PList (repeat PNone 255) = PDict d).
Proof.
  apply (X20_sized_containers_stay_sized None 0 (PTuple (repeat PNone 255))
           (ARRAY_L :: x00 :: x00 :: x00 :: xff :: repeat NULL 255)
           (or_introl eq_refl) eq_refl false 300 [] _ []).
  vm_compute. reflexivity.
Defined.

(** X21: the decoder reads a text under either string tag.  The short
    tag with a length byte below 255 and the long tag with a four-byte
    length, followed by the UTF-8 bytes of a text, decode to that text
    and leave the source after them. *)
Theorem X21_text_under_either_tag (an : bool) (fuel : nat) (s : list Z)
    (rest : bytes) :
  forallb is_code_point s = true ->
  (Z.of_nat (List.length (utf8_encode s)) < 255 ->
   decode_next an (S fuel)
     (STRING_S :: byte_of_Z (Z.of_nat (List.length (utf8_encode s)))
               :: utf8_encode s ++ rest)
   = Ok (PUnicode s, rest))
  /\ (Z.of_nat (List.length (utf8_encode s)) < 2 ^ 32 ->
      decode_next an (S fuel)
        (STRING_L :: be_bytes 4 (Z.of_nat (List.length (utf8_encode s)))
                  ++ utf8_encode s ++ rest)
      = Ok (PUnicode s, rest)).
Proof.
  intros C. apply forallb_code_points in C.
  set (n := Z.of_nat (List.length (utf8_encode s))).
  assert (P : 0 <= n) by apply Nat2Z.is_nonneg.
  split; intros L; unfold decode_next; read_unit.
  - rewrite read_one. cbn [ord bind].
    rewrite Z_of_byte_of_Z_small by lia.
    destruct (Z.ltb_spec n 255); [|lia].
    unfold n. rewrite read_app. cbn [bind call].
    change (decoder_dispatch STRING_S) with (Some H_string). cbv iota.
    unfold decode_string, str_decode.
    now rewrite utf8_decode_encode by exact C.
  - change 4 with (Z.of_nat (List.length (be_bytes 4 n))) at 1.
    rewrite read_app. unfold unpack. rewrite be_bytes_length.
    cbn [fmt_width Nat.eqb fmt_signed bind].
    rewrite be_value_be_bytes. change (256 ^ Z.of_nat 4) with (2 ^ 32).
    rewrite Z.mod_small by lia.
    unfold n. rewrite read_app. cbn [bind call].
    change (decoder_dispatch STRING_L) with (Some H_string). cbv iota.
    unfold decode_string, str_decode.
    now rewrite utf8_decode_encode by exact C.
Qed.

Lemma X21_witness :
  decode_next false 1
    (STRING_L :: be_bytes 4 (Z.of_nat (List.length (utf8_encode [233; 8364])))
              ++ utf8_encode [233; 8364] ++ [NULL])
  = Ok (PUnicode [233; 8364], [NULL]).
Proof.
  apply (proj2 (X21_text_under_either_tag false 0 [233; 8364] [NULL] eq_refl)).
  reflexivity.
Defined.

(** X22: a text of 255 bytes or more does not survive the round trip.
    The encoder puts an Int32 marker between the long string tag and the
    length; the decoder takes that marker for the first byte of the
    length, finds a length beyond the end of the source, and decodes the
    last byte of the real length together with the text: the result is
    the text with one more character in front when that byte is below
    128, and the error of the codec otherwise. *)
Theorem X22_long_text_does_not_round_trip
    (default : option (pyobj -> result pyobj)) (fuel_e : nat)
    (an : bool) (fuel : nat) (s : list Z) :
  forallb is_code_point s = true ->
  255 <= Z.of_nat (List.length (utf8_encode s)) < 2 ^ 30 ->
  exists bs,
    encode_next default fuel_e (PUnicode s) = Ok bs
    /\ decode_next an (S fuel) bs
       = if Z.of_nat (List.length (utf8_encode s)) mod 256 <? 128
         then Ok (PUnicode (Z.of_nat (List.length (utf8_encode s)) mod 256 :: s),
                  [])
         else Raise utf8_error.
Proof.
  intros C L. apply forallb_code_points in C.
  set (u := utf8_encode s) in *. set (n := Z.of_nat (List.length u)) in *.
  exists (STRING_L :: INT32 :: be_bytes 4 n ++ u). split.
  - rewrite encode_next_unfold. cbn [type_of encoder_dispatch].
    apply encode_str_long. fold u n. lia.
  - unfold decode_next. read_unit.
    change (be_bytes 4 n)
      with [byte_of_Z (n / 256 ^ 3); byte_of_Z (n / 256 ^ 2);
            byte_of_Z (n / 256 ^ 1); byte_of_Z (n / 256 ^ 0)].
    set (b3 := byte_of_Z (n / 256 ^ 3)). set (b2 := byte_of_Z (n / 256 ^ 2)).
    set (b1 := byte_of_Z (n / 256 ^ 1)).
    change (n / 256 ^ 0) with (n / 1). rewrite Z.div_1_r.
    change (INT32 :: [b3; b2; b1; byte_of_Z n] ++ u)
      with ([INT32; b3; b2; b1] ++ byte_of_Z n :: u).
    change 4 with (Z.of_nat (List.length [INT32; b3; b2; b1])) at 1.
    rewrite read_app. unfold unpack.
    cbn [List.length fmt_width Nat.eqb fmt_signed bind].
    assert (B : Z.of_nat (List.length (byte_of_Z n :: u))
                <= be_value [INT32; b3; b2; b1]).
    { rewrite be_value_cons. cbn [List.length].
      pose proof (be_value_range [b3; b2; b1]) as R. cbn [List.length] in R.
      change (Z_of_byte INT32) with 73.
      change (256 ^ Z.of_nat 3) with 16777216 in *.
      fold n. lia. }
    rewrite (read_all _ _ B). cbn [bind call].
    change (decoder_dispatch STRING_L) with (Some H_string). cbv iota.
    unfold decode_string, str_decode.
    destruct (Z.ltb_spec (n mod 256) 128) as [A|A].
    + cbn [utf8_decode]. rewrite Z_of_byte_of_Z.
      destruct (Z.ltb_spec (n mod 256) 128); [|lia].
      unfold u. rewrite utf8_decode_encode by exact C. reflexivity.
    + destruct s as [|c s'].
      { exfalso. unfold n, u in L. cbn in L. lia. }
      inversion C as [|c' l' Cc Cs]; subst.
      destruct (utf8_lead_byte c Cc) as (h & t & Eh & Hh).
      unfold u. cbn [utf8_encode flat_map]. rewrite Eh. cbn [app].
      rewrite utf8_decode_after_lead; [reflexivity | | exact Hh].
      rewrite Z_of_byte_of_Z. exact A.
Qed.

Lemma X22_witness :
  exists bs,
    encode_next None 0 (PUnicode (repeat 97 321)) = Ok bs
    /\ decode_next false 1 bs
       = if Z.of_nat (List.length (utf8_encode (repeat 97 321))) mod 256 <? 128
         then Ok (PUnicode
                    (Z.of_nat (List.length (utf8_encode (repeat 97 321))) mod 256
                     :: repeat 97 321), [])
         else Raise utf8_error.
Proof.
  apply (X22_long_text_does_not_round_trip None 0 false 0 (repeat 97 321)).
  - reflexivity.
  - vm_compute. split; [discriminate | reflexivity].
Defined.
